(** * wopr-plugin-setup: the session ledger and the setup tools

    A shallow embedding of [src/session-store.ts], [src/types.ts] and the
    handlers of [src/tools.ts] (saveConfig, installDependency, complete,
    rollback), with the properties of the mutation ledger and of the
    compensating rollback proved over it.

    Conventions of the embedding.
    - A handler is an [async] function.  Each one is modelled as a single
      atomic transition of the world: an [await] returns before anything
      else runs (the plugin assumes one request at a time per session).
    - A JavaScript object that is shared and mutated in place lives in a
      heap and is named by a location: session objects ([heap]) and the
      configuration objects handed out by the host ([objs]).
    - A thrown exception (or a rejected promise) is [Throw e], where [e] is
      the text [String(err)] of the thrown value.  The state reached before
      the throw is kept.
    - The host ([ctx]), the network ([fetch]) and the regular-expression
      engine are interfaces; the handlers are generic in them.
    - A configuration object is an ordinary object: extensible, with
      writable and configurable data properties only.  Its prototype is
      kept with it, because the key [__proto__] is no key like the
      others.
    - A value that comes with a call is data (it came as JSON): it is no
      configuration object and does not lead to one.
    - Calls to [logger] only print and are left out. *)

From stdpp Require Import gmap strings list fin_maps pretty.
From Stdlib Require Import ZArith Lia Ascii.

Local Open Scope Z_scope.
Local Open Scope string_scope.
Local Open Scope list_scope.

(* ===================================================================== *)
(** ** Strings *)
(* ===================================================================== *)

(** The double quote and the line feed, which template literals of the
    source contain. *)
Definition dquote : string := String "034"%char EmptyString.
Definition newline : string := String "010"%char EmptyString.

(** [Array.prototype.join] on an array of strings. *)
Fixpoint join (sep : string) (l : list string) : string :=
  match l with
  | [] => EmptyString
  | x :: rest =>
      match rest with
      | [] => x
      | _ :: _ => x +:+ sep +:+ join sep rest
      end
  end.

(** [s] contains [needle] ([String.prototype.includes], as the tests'
    [toContain] on a string). *)
Definition contains (needle s : string) : Prop :=
  ∃ before after : string, s = before +:+ needle +:+ after.

(** The same test as a program: [needle] occurs in [s]. *)
Fixpoint includes (needle s : string) : bool :=
  String.prefix needle s ||
  match s with
  | EmptyString => false
  | String _ s' => includes needle s'
  end.

(* ===================================================================== *)
(** ** Values and results *)
(* ===================================================================== *)

(** Heap locations (object identities). *)
Definition loc : Type := positive.

(** A JavaScript value of type [unknown], as far as the handlers look at
    it: they test it against [null], [undefined] and the empty string, and
    ask whether [typeof value === "string"].  Numbers are kept as integers
    (no arithmetic is done on them), other objects by identity. *)
Inductive Value : Type :=
| VUndefined
| VNull
| VBool (b : bool)
| VNumber (n : Z)
| VString (s : string)
| VObject (l : loc).

#[global] Instance Value_eq_dec : EqDecision Value.
Proof. solve_decision. Defined.

(** The outcome of an evaluation that may throw. *)
Inductive Exc (A : Type) : Type :=
| Ret (a : A)
| Throw (err : string).
Arguments Ret {A} a.
Arguments Throw {A} err.

(** [A2AToolResult]: a list of content blocks and an error flag. *)
Record ContentBlock : Type := { cb_type : string; text : string }.
Record A2AToolResult : Type := { content : list ContentBlock; isError : bool }.

(** [textResult(text, isError = false)] *)
Definition textResult (t : string) (err : bool) : A2AToolResult :=
  {| content := [ {| cb_type := "text"; text := t |} ]; isError := err |}.

(** The text of the first content block ([result.content[0].text]). *)
Definition result_text (r : A2AToolResult) : string :=
  match content r with
  | b :: _ => text b
  | [] => EmptyString
  end.

(* ===================================================================== *)
(** ** Schema, mutations and sessions ([src/types.ts]) *)
(* ===================================================================== *)

Inductive FieldType : Type :=
| TText | TPassword | TSelect | TCheckbox | TNumber | TTextarea.

Record SelectOption : Type := { opt_value : string; opt_label : string }.

(** [ConfigField]; an optional property is an [option] ([None] when the
    property is missing). *)
Record ConfigField : Type := {
  name : string;
  type : FieldType;
  label : string;
  description : option string;
  placeholder : option string;
  required : option bool;
  pattern : option string;
  patternError : option string;
  options : option (list SelectOption)
}.

Record ConfigSchema : Type := { title : string; fields : list ConfigField }.

(** [SetupMutation], a tagged union on [type]. *)
Inductive SetupMutation : Type :=
| M_saveConfig (key : string) (value : Value)
| M_installDependency (pluginId : string).

#[global] Instance SetupMutation_eq_dec : EqDecision SetupMutation.
Proof. solve_decision. Defined.

(** A [Map<string, unknown>] keeps its keys in insertion order, which
    [keys()] shows: an association list with unique keys. *)
Definition ValueMap : Type := list (string * Value).

(** [Map.prototype.set]: an existing key keeps its place. *)
Fixpoint map_set (k : string) (v : Value) (m : ValueMap) : ValueMap :=
  match m with
  | [] => [(k, v)]
  | (k', v') :: rest =>
      if String.eqb k' k then (k, v) :: rest else (k', v') :: map_set k v rest
  end.

(** [Array.from(map.keys())] *)
Definition map_keys (m : ValueMap) : list string := map fst m.

(** [SetupSession] *)
Record SetupSession : Type := {
  sessionId : string;
  pluginId : string;
  configSchema : ConfigSchema;
  mutations : list SetupMutation;
  collectedValues : ValueMap;
  completed : bool;
  createdAt : Z
}.

Definition set_mutations (ms : list SetupMutation) (s : SetupSession) : SetupSession :=
  {| sessionId := sessionId s; pluginId := pluginId s;
     configSchema := configSchema s; mutations := ms;
     collectedValues := collectedValues s; completed := completed s;
     createdAt := createdAt s |}.

Definition set_collectedValues (m : ValueMap) (s : SetupSession) : SetupSession :=
  {| sessionId := sessionId s; pluginId := pluginId s;
     configSchema := configSchema s; mutations := mutations s;
     collectedValues := m; completed := completed s;
     createdAt := createdAt s |}.

Definition set_completed (b : bool) (s : SetupSession) : SetupSession :=
  {| sessionId := sessionId s; pluginId := pluginId s;
     configSchema := configSchema s; mutations := mutations s;
     collectedValues := collectedValues s; completed := b;
     createdAt := createdAt s |}.

(** [session.mutations.push(m)] *)
Definition push_mutation (m : SetupMutation) (s : SetupSession) : SetupSession :=
  set_mutations (mutations s ++ [m]) s.

(* ===================================================================== *)
(** ** The outside world: configuration objects, network, events *)
(* ===================================================================== *)

(** A configuration object, [Record<string, unknown>]. *)
Abbreviation Config := (gmap string Value).

(** What [fetch] is called with.  [json_body] is the object given to
    [JSON.stringify]. *)
Record Request : Type := {
  url : string;
  method : string;
  headers : list (string * string);
  json_body : list (string * string)
}.

(** A JSON value, as [await res.json()] gives it.  The cast of the
    handler, [as { success?: boolean; error?: string }], checks nothing:
    the body is whatever the platform sent.  A number is kept by what the
    handler can see of it: whether it is zero ([0] and [-0] are falsy),
    and the text that [String] gives for it. *)
#[local] Unset Elimination Schemes.
Inductive Json : Type :=
| JNull
| JBool (b : bool)
| JNumber (zero : bool) (digits : string)
| JString (s : string)
| JArray (items : list Json)
| JObject (props : list (string * Json)).
#[local] Set Elimination Schemes.

(** What the handlers read of a [Response]: [ok], [status] and the outcome
    of [await res.json()] (a [Throw] when the body is no JSON, or when a
    mock has no [json] method). *)
Record Response : Type := {
  ok : bool;
  status : Z;
  json : Exc Json
}.

(** The payload of the [setup:complete] event. *)
Record SetupCompletePayload : Type := {
  ev_pluginId : string;
  ev_sessionId : string;
  ev_configKeys : list string
}.

(** The effects a handler has on the outside, in the order they happen:
    calls to the host and to the network with their outcome, and writes to
    a configuration object. *)
Inductive Effect : Type :=
| EGetConfig (res : Exc (option loc))
| ESetKey (l : loc) (key : string) (value : Value)
| EDeleteKey (l : loc) (key : string)
| ESaveConfig (l : loc) (res : Exc unit)
| EFetch (req : Request) (res : Exc Response)
| EEmit (event : string) (payload : SetupCompletePayload) (res : Exc unit).

(** The prototype of a configuration object: [Object.prototype] (as for
    an object literal or an object out of [JSON.parse]), [null], or a
    value object that an assignment to [__proto__] has put there. *)
Inductive Proto : Type :=
| ObjectPrototype
| NullPrototype
| ValuePrototype (l : loc).

(** The state outside the plugin: the configuration objects (their own
    properties in [objs], their prototypes in [protos], where an object
    without an entry has [Object.prototype]) and the state [X] of the host
    and of the network. *)
Record Outside (X : Type) : Type := {
  objs : gmap loc Config;
  protos : gmap loc Proto;
  host : X
}.
Arguments objs {X} _.
Arguments protos {X} _.
Arguments host {X} _.
Arguments Build_Outside {X} _ _ _.

(** [WOPRPluginContext], as far as the tools use it.  [getConfig] returns a
    configuration object, or [null]/[undefined] ([None]). *)
Class WOPRPluginContext (X : Type) : Type := {
  ctx_getConfig : Outside X → Exc (option loc) * Outside X;
  ctx_saveConfig : loc → Outside X → Exc unit * Outside X;
  ctx_events_emit : string → SetupCompletePayload → Outside X → Exc unit * Outside X
}.

(** The globals of the runtime: [fetch], and [new RegExp(p)], which throws
    a [SyntaxError] on an ill-formed pattern and else gives a regular
    expression, taken as its [test] function (the expression has no flag,
    so [test] keeps no state).  [inherits_proto_accessor l] tells whether
    the value object [l] inherits the accessor [__proto__] of
    [Object.prototype]: a plain object or an array does, unless it has an
    own property of that name (as [JSON.parse] makes for a key
    [__proto__]). *)
Class Globals (X : Type) : Type := {
  fetch : Request → Outside X → Exc Response * Outside X;
  RegExp_new : string → Exc (string → bool);
  inherits_proto_accessor : loc → Outside X → bool;
  (** [new RegExp("")] is [/(?:)/], which matches every string. *)
  RegExp_empty : ∀ regex s, RegExp_new EmptyString = Ret regex → regex s = true
}.

(* ===================================================================== *)
(** ** The world and the monad of the handlers *)
(* ===================================================================== *)

(** [sessions] is the module-level [Map] of [session-store.ts]; it maps a
    session id to a session object of [heap]. *)
Record World (X : Type) : Type := {
  sessions : gmap string loc;
  heap : gmap loc SetupSession;
  outside : Outside X;
  trace : list Effect
}.
Arguments sessions {X} _.
Arguments heap {X} _.
Arguments outside {X} _.
Arguments trace {X} _.
Arguments Build_World {X} _ _ _ _.

Definition M (X A : Type) : Type := World X → Exc A * World X.

Definition ret {X A} (a : A) : M X A := λ w, (Ret a, w).

Definition bind {X A B} (m : M X A) (k : A → M X B) : M X B :=
  λ w, match m w with
       | (Ret a, w') => k a w'
       | (Throw e, w') => (Throw e, w')
       end.

(** [try { m } catch (err) { h(String(err)) }] *)
Definition try_catch {X A} (m : M X A) (h : string → M X A) : M X A :=
  λ w, match m w with
       | (Ret a, w') => (Ret a, w')
       | (Throw e, w') => h e w'
       end.

Notation "'let*' x ':=' m 'in' k" := (bind m (λ x, k))
  (at level 10, x name, m at level 100, k at level 200).
Notation "m ';;' k" := (bind m (λ _, k))
  (at level 100, k at level 200, right associativity).

(** An outcome that is already known. *)
Definition lift_exc {X A} (r : Exc A) : M X A := λ w, (r, w).

(* ===================================================================== *)
(** ** The session store ([src/session-store.ts]) *)
(* ===================================================================== *)

Section Store.
Context {X : Type}.

Definition set_sessions (f : gmap string loc → gmap string loc) (w : World X) : World X :=
  {| sessions := f (sessions w); heap := heap w;
     outside := outside w; trace := trace w |}.

Definition set_heap (f : gmap loc SetupSession → gmap loc SetupSession)
    (w : World X) : World X :=
  {| sessions := sessions w; heap := f (heap w);
     outside := outside w; trace := trace w |}.

(** [createSession]: a new session object, put in the map under
    [sessionId] (an entry with the same id is replaced).  [now] is
    [Date.now()]. *)
Definition createSession (sid pid : string) (schema : ConfigSchema) (now : Z)
    : M X loc :=
  λ w,
    let l := fresh (dom (heap w)) in
    let session :=
      {| sessionId := sid; pluginId := pid; configSchema := schema;
         mutations := []; collectedValues := []; completed := false;
         createdAt := now |} in
    (Ret l, set_sessions <[sid := l]> (set_heap <[l := session]> w)).

(** [getSession]: the session object, or [undefined]. *)
Definition getSession (sid : string) : M X (option loc) :=
  λ w, (Ret (sessions w !! sid), w).

(** [deleteSession]: [Map.prototype.delete] tells whether the key was
    there. *)
Definition deleteSession (sid : string) : M X bool :=
  λ w, (Ret (bool_decide (is_Some (sessions w !! sid))),
        set_sessions (delete sid) w).

(** Reading the properties of a session object.  A location that is not
    in the heap cannot arise from the operations of this file
    ([wf_preserved] below); the read is then stuck. *)
Definition deref (l : loc) : M X SetupSession :=
  λ w, match heap w !! l with
       | Some s => (Ret s, w)
       | None => (Throw "stuck: no such session object", w)
       end.

(** An assignment to properties of the session object [l]. *)
Definition update (l : loc) (f : SetupSession → SetupSession) : M X unit :=
  λ w, (Ret tt, set_heap (alter f l) w).

(** [isSetupActive] *)
Definition isSetupActive (sid : string) : M X bool :=
  λ w, match sessions w !! sid with
       | None => (Ret false, w)
       | Some l =>
           match heap w !! l with
           | Some s => (Ret (negb (completed s)), w)
           | None => (Throw "stuck: no such session object", w)
           end
       end.

(** [clearAllSessions] *)
Definition clearAllSessions : M X unit :=
  λ w, (Ret tt, set_sessions (λ _, ∅) w).

End Store.

(* ===================================================================== *)
(** ** Calls to the outside, recorded in the trace *)
(* ===================================================================== *)

Section Calls.
Context {X : Type} `{!WOPRPluginContext X} `{!Globals X}.

Definition set_outside (o : Outside X) (e : list Effect) (w : World X) : World X :=
  {| sessions := sessions w; heap := heap w;
     outside := o; trace := trace w ++ e |}.

(** [ctx.getConfig()] *)
Definition call_getConfig : M X (option loc) :=
  λ w, let '(r, o) := ctx_getConfig (outside w) in
       (r, set_outside o [EGetConfig r] w).

(** [await ctx.saveConfig(c)] *)
Definition call_saveConfig (c : loc) : M X unit :=
  λ w, let '(r, o) := ctx_saveConfig c (outside w) in
       (r, set_outside o [ESaveConfig c r] w).

(** [await fetch(...)] *)
Definition call_fetch (req : Request) : M X Response :=
  λ w, let '(r, o) := fetch req (outside w) in
       (r, set_outside o [EFetch req r] w).

(** [ctx.events.emit(event, payload)] *)
Definition call_emit (event : string) (payload : SetupCompletePayload) : M X unit :=
  λ w, let '(r, o) := ctx_events_emit event payload (outside w) in
       (r, set_outside o [EEmit event payload r] w).

(** The content of the configuration object [l]. *)
Definition obj_content (l : loc) (o : Outside X) : Config :=
  default ∅ (objs o !! l).

Definition write_obj (l : loc) (c : Config) (o : Outside X) : Outside X :=
  {| objs := <[l := c]> (objs o); protos := protos o; host := host o |}.

(** The prototype of the configuration object [l]. *)
Definition obj_proto (l : loc) (o : Outside X) : Proto :=
  default ObjectPrototype (protos o !! l).

Definition write_proto (l : loc) (p : Proto) (o : Outside X) : Outside X :=
  {| objs := objs o; protos := <[l := p]> (protos o); host := host o |}.

(** The outside once the object literal [{}] is there as [l]: no own
    property, and [Object.prototype]. *)
Definition alloc (l : loc) (o : Outside X) : Outside X :=
  write_proto l ObjectPrototype (write_obj l ∅ o).

(** [r ?? {}]: the object that [getConfig] gave, or a new object, which
    nobody else holds. *)
Definition config_object (r : option loc) (o : Outside X) : loc * Outside X :=
  match r with
  | Some c => (c, o)
  | None => let l := fresh (dom (objs o)) in (l, alloc l o)
  end.

(** The object literal [{}]. *)
Definition new_object : M X loc :=
  λ w, let '(l, o) := config_object None (outside w) in
       (Ret l, {| sessions := sessions w; heap := heap w;
                  outside := o; trace := trace w |}).

(** An assignment [c.__proto__ = ...] calls the setter of [Object.prototype]
    when the object has no own property of that name and inherits the
    accessor: from [Object.prototype] itself, or through a value object
    that inherits it.  An object whose prototype is [null] inherits
    nothing. *)
Definition calls_proto_setter (c : loc) (key : string) (o : Outside X) : bool :=
  String.eqb key "__proto__" &&
  bool_decide (obj_content c o !! key = None) &&
  match obj_proto c o with
  | ObjectPrototype => true
  | NullPrototype => false
  | ValuePrototype l => inherits_proto_accessor l o
  end.

(** The outside after [c[key] = value].  The property is set on the
    object itself (made, or given the new value), except where the
    assignment calls the setter of [__proto__]: that one makes an object
    or [null] the prototype of [c], ignores every other value, and
    stores no property. *)
Definition assign (c : loc) (key : string) (value : Value) (o : Outside X)
    : Outside X :=
  if calls_proto_setter c key o then
    match value with
    | VNull => write_proto c NullPrototype o
    | VObject l => write_proto c (ValuePrototype l) o
    | _ => o
    end
  else write_obj c (<[key := value]> (obj_content c o)) o.

(** The outside after [delete c[key]]: the own property goes, if there is
    one. *)
Definition delete_key (c : loc) (key : string) (o : Outside X) : Outside X :=
  write_obj c (delete key (obj_content c o)) o.

(** [c[key] = value], in place. *)
Definition obj_set (c : loc) (key : string) (value : Value) : M X unit :=
  λ w, (Ret tt, set_outside (assign c key value (outside w)) [ESetKey c key value] w).

(** [delete c[key]], in place. *)
Definition obj_delete (c : loc) (key : string) : M X unit :=
  λ w, (Ret tt, set_outside (delete_key c key (outside w)) [EDeleteKey c key] w).

(** [ctx.getConfig<Record<string, unknown>>() ?? {}] *)
Definition getConfig_or_empty : M X loc :=
  let* c := call_getConfig in
  match c with
  | Some l => ret l
  | None => new_object
  end.

End Calls.

(* ===================================================================== *)
(** ** The setup tools ([src/tools.ts]) *)
(* ===================================================================== *)

(** The truth value of an optional boolean property ([undefined] is
    falsy). *)
Definition truthy_bool (b : option bool) : bool := default false b.

(** The truth value of an optional string property ([undefined] and the
    empty string are falsy). *)
Definition truthy_string (s : option string) : bool :=
  match s with
  | Some (String _ _) => true
  | _ => false
  end.

(** The truth value of what a property read of a JSON body gave
    ([None] is [undefined]): [undefined], [null], [false], zero and the
    empty string are falsy, everything else is truthy. *)
Definition truthy_json (v : option Json) : bool :=
  match v with
  | None | Some JNull => false
  | Some (JBool b) => b
  | Some (JNumber zero _) => negb zero
  | Some (JString EmptyString) => false
  | Some (JString (String _ _)) => true
  | Some (JArray _) | Some (JObject _) => true
  end.

(** The property [k] of an object out of [JSON.parse]: of two members
    with one name the later one counts. *)
Definition own_property (k : string) (props : list (string * Json)) : option Json :=
  snd <$> find (λ p, String.eqb (fst p) k) (reverse props).

(** [body.success] and [body.error]: reading a property of [null] throws
    a [TypeError]; an object has the property or not; for these two names
    every other value gives [undefined] (no prototype has them). *)
Definition body_property (body : Json) (k : string) : Exc (option Json) :=
  match body with
  | JNull =>
      Throw ("TypeError: Cannot read properties of null (reading '" +:+ k +:+ "')")
  | JObject props => Ret (own_property k props)
  | _ => Ret None
  end.

(** [String(v)], as a template literal prints a value.  In the text of an
    array [null] prints as nothing. *)
Fixpoint to_string (v : Json) : string :=
  match v with
  | JNull => "null"
  | JBool b => if b then "true" else "false"
  | JNumber _ digits => digits
  | JString s => s
  | JArray items =>
      join "," (map (λ x, match x with
                          | JNull => EmptyString
                          | _ => to_string x
                          end) items)
  | JObject _ => "[object Object]"
  end.

(** [v ?? d] in a template literal: [d] when [v] is [null] or
    [undefined]. *)
Definition nullish_or (d : string) (v : option Json) : string :=
  match v with
  | None | Some JNull => d
  | Some v => to_string v
  end.

(** [value === null || value === undefined || value === ""] *)
Definition is_empty_value (value : Value) : bool :=
  match value with
  | VNull | VUndefined => true
  | VString EmptyString => true
  | _ => false
  end.

(** [fields.find((f) => f.name === key)] *)
Definition find_field (key : string) (fs : list ConfigField) : option ConfigField :=
  find (λ f, String.eqb (name f) key) fs.

Definition no_session_message (sid : string) : string :=
  "No active setup session: " +:+ sid.

Definition unknown_field_message (key : string) (fs : list ConfigField) : string :=
  "Unknown config field: " +:+ key +:+ ". Valid fields: " +:+ join ", " (map name fs).

Definition required_message (key : string) : string :=
  "Field " +:+ dquote +:+ key +:+ dquote +:+ " is required and cannot be empty.".

Definition pattern_message (key p : string) : string :=
  "Value for " +:+ dquote +:+ key +:+ dquote +:+ " does not match pattern: " +:+ p.

(** The request of an install or an uninstall. *)
Definition plugins_request (action pid : string) : Request :=
  {| url := "http://localhost:7437/plugins/" +:+ action;
     method := "POST";
     headers := [("Content-Type", "application/json")];
     json_body := [("name", pid)] |}.

Section Tools.
Context {X : Type} `{!WOPRPluginContext X} `{!Globals X}.

(** *** setup.installDependency

    [!res.ok || !body.success] reads [body.success] only when the response
    is [ok]; the branch taken on a refusal reads [body.error]. *)
Definition installDependency_handler (sid pid : string) : M X A2AToolResult :=
  let* session := getSession sid in
  match session with
  | None => ret (textResult (no_session_message sid) true)
  | Some l =>
      try_catch
        (let* res := call_fetch (plugins_request "install" pid) in
         let* body := lift_exc (json res) in
         let* refused :=
           if negb (ok res) then ret true
           else
             let* success := lift_exc (body_property body "success") in
             ret (negb (truthy_json success)) in
         if refused then
           let* error := lift_exc (body_property body "error") in
           ret (textResult
                  ("Failed to install " +:+ pid +:+ ": " +:+
                   nullish_or ("HTTP " +:+ pretty (status res)) error)
                  true)
         else
           update l (push_mutation (M_installDependency pid));;
           ret (textResult ("Successfully installed " +:+ pid) false))
        (λ err,
           ret (textResult ("Failed to install " +:+ pid +:+ ": " +:+ err) true))
  end.

(** *** setup.saveConfig *)

(** The pattern check of the handler: [Some r] when the handler returns
    [r] there, [None] when it goes on.  The regular expression is built
    as soon as the field has a (non-empty) pattern, before the type of
    the value is looked at. *)
Definition check_pattern (field : ConfigField) (key : string) (value : Value)
    : Exc (option A2AToolResult) :=
  if truthy_string (pattern field) then
    let p := default EmptyString (pattern field) in
    match RegExp_new p with
    | Throw err => Throw err
    | Ret regex =>
        match value with
        | VString sv =>
            if negb (regex sv) then
              Ret (Some (textResult
                           (default (pattern_message key p) (patternError field))
                           true))
            else Ret None
        | _ => Ret None
        end
    end
  else Ret None.

(** The checks of the handler on [key] and [value], in their order
    (the field validator): [Some r] when the handler returns [r] from
    one of them, [None] when the value goes on to be saved. *)
Definition validate_field (fs : list ConfigField) (key : string) (value : Value)
    : Exc (option A2AToolResult) :=
  match find_field key fs with
  | None => Ret (Some (textResult (unknown_field_message key fs) true))
  | Some field =>
      if truthy_bool (required field) && is_empty_value value then
        Ret (Some (textResult (required_message key) true))
      else check_pattern field key value
  end.

(** The [try] block of the handler, which persists the value. *)
Definition persist_value (l : loc) (key : string) (value : Value)
    : M X A2AToolResult :=
  try_catch
    (let* currentConfig := getConfig_or_empty in
     obj_set currentConfig key value;;
     call_saveConfig currentConfig;;
     update l (push_mutation (M_saveConfig key value));;
     update l (λ s, set_collectedValues (map_set key value (collectedValues s)) s);;
     ret (textResult ("Saved " +:+ dquote +:+ key +:+ dquote +:+ " successfully.") false))
    (λ err,
       ret (textResult
              ("Failed to save " +:+ dquote +:+ key +:+ dquote +:+ ": " +:+ err)
              true)).

Definition saveConfig_handler (sid key : string) (value : Value)
    : M X A2AToolResult :=
  let* session := getSession sid in
  match session with
  | None => ret (textResult (no_session_message sid) true)
  | Some l =>
      let* s := deref l in
      let* rejected := lift_exc (validate_field (fields (configSchema s)) key value) in
      match rejected with
      | Some r => ret r
      | None => persist_value l key value
      end
  end.

(** *** setup.complete *)
Definition complete_handler (sid : string) : M X A2AToolResult :=
  let* session := getSession sid in
  match session with
  | None => ret (textResult (no_session_message sid) true)
  | Some l =>
      let* s := deref l in
      if completed s then ret (textResult "Setup already completed." true)
      else
        update l (set_completed true);;
        call_emit "setup:complete"
          {| ev_pluginId := pluginId s; ev_sessionId := sid;
             ev_configKeys := map_keys (collectedValues s) |};;
        ret (textResult
               ("Setup complete for " +:+ pluginId s +:+ ". Plugin is now active.")
               false)
  end.

(** *** setup.rollback *)

Definition uninstall_failure_message (pid : string) (st : Z) : string :=
  "Failed to uninstall " +:+ pid +:+ ": HTTP " +:+ pretty st.

Definition rollback_error_message (err : string) : string :=
  "Rollback error: " +:+ err.

(** The body of the loop: the compensation of one mutation inside its
    [try], with the error list before and after. *)
Definition compensate (mutation : SetupMutation) (errors : list string)
    : M X (list string) :=
  try_catch
    (match mutation with
     | M_saveConfig key _ =>
         let* currentConfig := getConfig_or_empty in
         obj_delete currentConfig key;;
         call_saveConfig currentConfig;;
         ret errors
     | M_installDependency pid =>
         let* res := call_fetch (plugins_request "uninstall" pid) in
         if negb (ok res) then
           ret (errors ++ [uninstall_failure_message pid (status res)])
         else ret errors
     end)
    (λ err, ret (errors ++ [rollback_error_message err])).

(** [for (const mutation of reversed) { ... }] *)
Fixpoint rollback_loop (reversed : list SetupMutation) (errors : list string)
    : M X (list string) :=
  match reversed with
  | [] => ret errors
  | mutation :: rest =>
      let* errors' := compensate mutation errors in
      rollback_loop rest errors'
  end.

Definition rollback_handler (sid : string) : M X A2AToolResult :=
  let* session := getSession sid in
  match session with
  | None => ret (textResult (no_session_message sid) true)
  | Some l =>
      let* s := deref l in
      let reversed := reverse (mutations s) in
      let* errors := rollback_loop reversed [] in
      update l (set_mutations []);;
      update l (set_collectedValues []);;
      deleteSession sid;;
      if (0 <? length errors)%nat then
        ret (textResult
               ("Rollback completed with errors:" +:+ newline +:+ join newline errors)
               true)
      else ret (textResult "Rollback complete. All changes undone." false)
  end.

End Tools.

(* ===================================================================== *)
(** ** A host and a runtime to run the tools on ([tests/tools.test.ts]) *)
(* ===================================================================== *)

(** The state behind [makeCtx] and [mockFetch]: the variable
    [savedConfig], the responses queued with [mockResolvedValueOnce] or
    [mockRejectedValueOnce], and the calls that [events.emit] recorded. *)
Record TestState : Type := {
  savedConfig : loc;
  fetchQueue : list (Exc Response);
  emitted : list (string * SetupCompletePayload)
}.

Definition set_host {X Y : Type} (f : X → Y) (o : Outside X) : Outside Y :=
  {| objs := objs o; protos := protos o; host := f (host o) |}.

(** [makeCtx]: [getConfig] returns the object in [savedConfig] itself,
    [saveConfig] makes [savedConfig] the object it is given, [emit] only
    records the call. *)
#[global] Instance TestCtx : WOPRPluginContext TestState := {|
  ctx_getConfig o := (Ret (Some (savedConfig (host o))), o);
  ctx_saveConfig c o :=
    (Ret tt,
     set_host (λ h, {| savedConfig := c; fetchQueue := fetchQueue h;
                        emitted := emitted h |}) o);
  ctx_events_emit ev p o :=
    (Ret tt,
     set_host (λ h, {| savedConfig := savedConfig h; fetchQueue := fetchQueue h;
                        emitted := emitted h ++ [(ev, p)] |}) o)
|}.

(** The characters with a meaning of their own in a pattern. *)
Definition is_meta (c : ascii) : bool :=
  bool_decide (c ∈ ["\"; "^"; "$"; "."; "|"; "?"; "*"; "+"; "("; ")"; "["; "]";
                     "{"; "}"]%char).

Fixpoint plain (p : string) : bool :=
  match p with
  | EmptyString => true
  | String c p' => negb (is_meta c) && plain p'
  end.

(** A regular-expression engine for the patterns made of plain characters,
    which match the strings they occur in.  The one ill-formed pattern it
    knows is the unclosed group; it refuses the other patterns as not
    supported. *)
Definition plain_RegExp (p : string) : Exc (string → bool) :=
  if plain p then Ret (includes p)
  else if String.eqb p "(" then
    Throw "SyntaxError: Invalid regular expression: /(/: Unterminated group"
  else Throw "pattern not supported".

(** [mockFetch]: the next queued outcome; with nothing queued the mock
    returns [undefined], and the handler throws a [TypeError] on reading
    a property of it. *)
Definition mockFetch (req : Request) (o : Outside TestState)
    : Exc Response * Outside TestState :=
  match fetchQueue (host o) with
  | r :: q =>
      (r, set_host (λ h, {| savedConfig := savedConfig h; fetchQueue := q;
                             emitted := emitted h |}) o)
  | [] => (Throw "TypeError: Cannot read properties of undefined", o)
  end.

(** The values of the tests are strings and numbers; a value object of
    this runtime is a plain one. *)
#[global, refine] Instance TestGlobals : Globals TestState :=
  {| fetch := mockFetch; RegExp_new := plain_RegExp;
     inherits_proto_accessor := λ _ _, true |}.
Proof. intros regex s [= <-]. by destruct s. Defined.

(** The world of a test: no session, [makeCtx(config)], and [queue] as the
    outcomes of the coming calls of [fetch]. *)
Definition test_world (config : Config) (queue : list (Exc Response))
    : World TestState :=
  {| sessions := ∅; heap := ∅;
     outside := {| objs := {[ 1%positive := config ]};
                   protos := ∅;
                   host := {| savedConfig := 1%positive; fetchQueue := queue;
                              emitted := [] |} |};
     trace := [] |}.

(** The configuration the host of the tests holds. *)
Definition test_config (w : World TestState) : Config :=
  obj_content (savedConfig (host (outside w))) (outside w).

(** A world of the tests with one session: [sid] is the session object
    [1], in state [s]. *)
Definition session_world (sid : string) (s : SetupSession) (config : Config)
    (queue : list (Exc Response)) : World TestState :=
  {| sessions := {[ sid := 1%positive ]};
     heap := {[ 1%positive := s ]};
     outside := outside (test_world config queue);
     trace := [] |}.

(** The fields and the sessions of the tests. *)
Definition text_field (n : string) (req : option bool) (pat perr : option string)
    : ConfigField :=
  {| name := n; type := TText; label := n; description := None;
     placeholder := None; required := req; pattern := pat; patternError := perr;
     options := None |}.

Definition session_of (sid : string) (fs : list ConfigField)
    (ms : list SetupMutation) (done : bool) : SetupSession :=
  {| sessionId := sid; pluginId := "p";
     configSchema := {| title := "T"; fields := fs |};
     mutations := ms; collectedValues := []; completed := done; createdAt := 0 |}.

(** A response with a status and no readable body. *)
Definition response (st : Z) : Response :=
  {| ok := bool_decide (200 ≤ st < 300); status := st;
     json := Throw "SyntaxError: Unexpected end of JSON input" |}.

(** A response with a status and a JSON body. *)
Definition json_response (st : Z) (body : Json) : Response :=
  {| ok := bool_decide (200 ≤ st < 300); status := st; json := Ret body |}.

(** The bodies [{ success: true }], [{}] and [{ error: "boom" }]. *)
Definition body_success : Json := JObject [("success", JBool true)].
Definition body_empty : Json := JObject [].
Definition body_boom : Json := JObject [("error", JString "boom")].

(** Session [s1] with the ledger [save a; install p1; save b], and an
    uninstall that goes through. *)
Definition s_three : SetupSession :=
  session_of "s1" []
    [M_saveConfig "a" (VString "1"); M_installDependency "p1";
     M_saveConfig "b" (VString "2")] false.

Definition w_three : World TestState :=
  session_world "s1" s_three {[ "a" := VString "1"; "b" := VString "2" ]}
    [Ret (response 200)].

(** Session [s3] of the test on errors: the ledger [install p1; save a],
    and an uninstall that answers 500. *)
Definition s_failing : SetupSession :=
  session_of "s3" [] [M_installDependency "p1"; M_saveConfig "a" (VString "1")] false.

Definition w_failing : World TestState :=
  session_world "s3" s_failing {[ "a" := VString "1" ]} [Ret (response 500)].

(** The same two mutations in the other order, [save a; install p1]: the
    uninstall, which answers 500, is attempted first. *)
Definition s_refused : SetupSession :=
  session_of "s5" [] [M_saveConfig "a" (VString "1"); M_installDependency "p1"] false.

Definition w_refused : World TestState :=
  session_world "s5" s_refused {[ "a" := VString "1" ]} [Ret (response 500)].

(** A session with an empty ledger, completed or not. *)
Definition w_empty (done : bool) : World TestState :=
  session_world "s2" (session_of "s2" [] [] done) ∅ [].

(** A session with the one field [f], on a host whose configuration is
    [config]. *)
Definition w_field (f : ConfigField) (config : Config) : World TestState :=
  session_world "s4" (session_of "s4" [f] [] false) config [].

Definition token_field : ConfigField :=
  text_field "token" (Some true) None None.

Definition id_field (req : option bool) : ConfigField :=
  text_field "id" req (Some "abc") (Some "Must contain abc").

(** A session with an empty ledger and one answer to an install. *)
Definition w_install (answer : Exc Response) : World TestState :=
  session_world "s1" (session_of "s1" [] [] false) ∅ [answer].

(** The calls that reach the plugin: [beginSetup] of the extension and the
    four tools above. *)
Inductive ToolCall : Type :=
| C_beginSetup (pid : string) (schema : ConfigSchema) (sid : string) (now : Z)
| C_installDependency (sid pid : string)
| C_saveConfig (sid key : string) (value : Value)
| C_complete (sid : string)
| C_rollback (sid : string).

(** The session a call names. *)
Definition call_session (c : ToolCall) : string :=
  match c with
  | C_beginSetup _ _ sid _ => sid
  | C_installDependency sid _ => sid
  | C_saveConfig sid _ _ => sid
  | C_complete sid => sid
  | C_rollback sid => sid
  end.

Definition is_beginSetup (c : ToolCall) : bool :=
  match c with
  | C_beginSetup _ _ _ _ => true
  | _ => false
  end.

Section Runs.
Context {X : Type} `{!WOPRPluginContext X} `{!Globals X}.

(** The world after one call (a call that throws leaves the world it
    reached). *)
Definition step (c : ToolCall) (w : World X) : World X :=
  match c with
  | C_beginSetup pid schema sid now => snd (createSession sid pid schema now w)
  | C_installDependency sid pid => snd (installDependency_handler sid pid w)
  | C_saveConfig sid key value => snd (saveConfig_handler sid key value w)
  | C_complete sid => snd (complete_handler sid w)
  | C_rollback sid => snd (rollback_handler sid w)
  end.

(** The world after a sequence of calls, one after the other. *)
Definition run (cs : list ToolCall) (w : World X) : World X :=
  foldl (λ w c, step c w) w cs.

End Runs.

(* ===================================================================== *)
(** ** The notions the properties are stated with *)
(* ===================================================================== *)

(** Session [sid] of the world is the object [l], in state [s]. *)
Definition session_at {X} (w : World X) (sid : string) (l : loc) (s : SetupSession)
    : Prop :=
  sessions w !! sid = Some l ∧ heap w !! l = Some s.

(** Every session of the store is an object of the heap. *)
Definition wf {X} (w : World X) : Prop :=
  ∀ sid l, sessions w !! sid = Some l → is_Some (heap w !! l).

(** [compensation m es errs]: the effects [es] have the shape of an
    attempt to undo the mutation [m] (whether the calls were made is what
    [attempt] below tells), and [errs] are the messages of its failure
    (none when it went through).  Undoing a saved key reads the configuration, deletes
    the key from the object and saves the object; undoing an install calls
    the uninstall endpoint.  A throw anywhere, or a response that is not
    [ok], is a failure. *)
Inductive compensation : SetupMutation → list Effect → list string → Prop :=
| comp_read_throws key v err :
    compensation (M_saveConfig key v)
      [EGetConfig (Throw err)] [rollback_error_message err]
| comp_config_saved key v o c :
    (∀ c', o = Some c' → c' = c) →
    compensation (M_saveConfig key v)
      [EGetConfig (Ret o); EDeleteKey c key; ESaveConfig c (Ret tt)] []
| comp_save_throws key v o c err :
    (∀ c', o = Some c' → c' = c) →
    compensation (M_saveConfig key v)
      [EGetConfig (Ret o); EDeleteKey c key; ESaveConfig c (Throw err)]
      [rollback_error_message err]
| comp_uninstall_throws pid err :
    compensation (M_installDependency pid)
      [EFetch (plugins_request "uninstall" pid) (Throw err)]
      [rollback_error_message err]
| comp_uninstall_refused pid res :
    ok res = false →
    compensation (M_installDependency pid)
      [EFetch (plugins_request "uninstall" pid) (Ret res)]
      [uninstall_failure_message pid (status res)]
| comp_uninstalled pid res :
    ok res = true →
    compensation (M_installDependency pid)
      [EFetch (plugins_request "uninstall" pid) (Ret res)] [].

(** [compensations ms es errs]: [es] is an attempt on each mutation of
    [ms], one after the other in the order of [ms], and [errs] the
    messages of the failures in that order. *)
Inductive compensations : list SetupMutation → list Effect → list string → Prop :=
| comps_nil : compensations [] [] []
| comps_cons m ms es errs es' errs' :
    compensation m es errs →
    compensations ms es' errs' →
    compensations (m :: ms) (es ++ es') (errs ++ errs').

(** The messages of a call that threw, and of an uninstall by what it
    was answered. *)
Definition throw_messages {A} (r : Exc A) : list string :=
  match r with
  | Ret _ => []
  | Throw err => [rollback_error_message err]
  end.

Definition uninstall_messages (pid : string) (r : Exc Response) : list string :=
  match r with
  | Ret res => if ok res then [] else [uninstall_failure_message pid (status res)]
  | Throw err => [rollback_error_message err]
  end.

(** [attempt m o es errs o']: from the outside [o], the mutation [m] was
    attempted to be undone by calls that were really made.  For a saved
    key the host was asked for the configuration; unless that threw, the
    key was deleted from the object it gave (from a new object when it
    gave none) and the host was given the object to save.  For an install
    the uninstall request of the plugin was sent.  [es] records these
    calls with the outcome each one had, [errs] holds the message of the
    failure (a throw, an answer that is not [ok]) if there was one, and
    [o'] is the outside that the last call left. *)
Inductive attempt {X} `{!WOPRPluginContext X} `{!Globals X}
    : SetupMutation → Outside X → list Effect → list string → Outside X → Prop :=
| attempt_read_throws key v o err o1 :
    ctx_getConfig o = (Throw err, o1) →
    attempt (M_saveConfig key v) o
      [EGetConfig (Throw err)] [rollback_error_message err] o1
| attempt_delete key v o r o1 c o2 res o3 :
    ctx_getConfig o = (Ret r, o1) →
    config_object r o1 = (c, o2) →
    ctx_saveConfig c (delete_key c key o2) = (res, o3) →
    attempt (M_saveConfig key v) o
      [EGetConfig (Ret r); EDeleteKey c key; ESaveConfig c res]
      (throw_messages res) o3
| attempt_uninstall pid o res o1 :
    fetch (plugins_request "uninstall" pid) o = (res, o1) →
    attempt (M_installDependency pid) o
      [EFetch (plugins_request "uninstall" pid) res]
      (uninstall_messages pid res) o1.

(** [attempts ms o es errs o']: every mutation of [ms] was attempted, one
    after the other in the order of [ms], each from the outside that the
    one before had left, whether that one failed or not. *)
Inductive attempts {X} `{!WOPRPluginContext X} `{!Globals X}
    : list SetupMutation → Outside X → list Effect → list string → Outside X → Prop :=
| attempts_nil o : attempts [] o [] [] o
| attempts_cons m ms o es errs o1 es' errs' o2 :
    attempt m o es errs o1 →
    attempts ms o1 es' errs' o2 →
    attempts (m :: ms) o (es ++ es') (errs ++ errs') o2.

(** The result of a rollback that collected [errs]. *)
Definition rollback_result (errs : list string) : A2AToolResult :=
  match errs with
  | [] => textResult "Rollback complete. All changes undone." false
  | _ :: _ =>
      textResult ("Rollback completed with errors:" +:+ newline +:+ join newline errs)
        true
  end.

(** What the install call gave as [body.success], if it gave an [ok]
    response with a body that can be read. *)
Definition reported_success (r : Exc Response) : option Json :=
  match r with
  | Ret res =>
      if ok res then
        match json res with
        | Ret body =>
            match body_property body "success" with
            | Ret v => v
            | Throw _ => None
            end
        | Throw _ => None
        end
      else None
  | Throw _ => None
  end.

(** The install went through, as the handler sees it: an [ok] response
    whose body has a truthy [success]. *)
Definition install_succeeded (r : Exc Response) : bool :=
  truthy_json (reported_success r).

(** The install went through, as the claim words it: an [ok] response
    whose body has [success: true]. *)
Definition success_is_true (r : Exc Response) : bool :=
  match reported_success r with
  | Some (JBool true) => true
  | _ => false
  end.

(** The configuration after the keys saved by the mutations [ms] are
    deleted from [c], one after the other. *)
Definition undo_all (ms : list SetupMutation) (c : Config) : Config :=
  foldl (λ c m, match m with
                | M_saveConfig key _ => delete key c
                | M_installDependency _ => c
                end) c ms.

(** A host that keeps one configuration, [current]: [getConfig] gives an
    object whose own properties are the configuration; whatever the
    caller has done to the objects since, [saveConfig] of that object
    makes its own properties the configuration (whether the host handed
    out its own object or a copy; what the object inherits is no part of
    the configuration); and the network does not touch the
    configuration. *)
Record config_store {X} `{!WOPRPluginContext X} `{!Globals X}
    (current : Outside X → Config) : Prop := {
  store_read_write :
    ∀ o, ∃ c o1,
      ctx_getConfig o = (Ret (Some c), o1) ∧
      obj_content c o1 = current o ∧
      ∀ o', host o' = host o1 → ∃ o2,
        ctx_saveConfig c o' = (Ret tt, o2) ∧
        current o2 = obj_content c o';
  store_fetch :
    ∀ req o, current (snd (fetch req o)) = current o
}.

(** The number of [setup:complete] events for session [sid] in a trace. *)
Definition is_completion (sid : string) (e : Effect) : bool :=
  match e with
  | EEmit ev p _ => String.eqb ev "setup:complete" && String.eqb (ev_sessionId p) sid
  | _ => false
  end.

Definition completions (sid : string) (t : list Effect) : nat :=
  length (List.filter (is_completion sid) t).

(** Session [sid] is there and not completed ([isSetupActive]), as a
    number. *)
Definition active {X} (sid : string) (w : World X) : nat :=
  match sessions w !! sid with
  | Some l =>
      match heap w !! l with
      | Some s => if completed s then 0%nat else 1%nat
      | None => 0%nat
      end
  | None => 0%nat
  end.

(** The two together never grow along the calls of the tools (see
    [step_potential]): an event for [sid] is paid for by the session
    ceasing to be active. *)
Definition potential {X} (sid : string) (w : World X) : nat :=
  (completions sid (trace w) + active sid w)%nat.

(** [evolves w w']: from [w] to [w'] no session was added to the store,
    the session objects are the same ones, and no [completed] flag went
    back to [false]. *)
Definition evolves {X} (w w' : World X) : Prop :=
  (∀ sid l, sessions w' !! sid = Some l → sessions w !! sid = Some l) ∧
  (∀ l, option_Forall2 (λ s s', completed s = true → completed s' = true)
          (heap w !! l) (heap w' !! l)).

(** [quiet sid w w']: moreover the trace only grew, by effects that are no
    completion event of [sid]. *)
Definition quiet {X} (sid : string) (w w' : World X) : Prop :=
  evolves w w' ∧ ∃ es, trace w' = trace w ++ es ∧ completions sid es = 0%nat.

(* ===================================================================== *)
(** ** The other tools, the validators and the shutdown
       ([src/tools.ts], [src/validators.ts], [src/index.ts]) *)
(* ===================================================================== *)

(** [ValidationResult] of [validators.ts]. *)
Record ValidationResult : Type := {
  valid : bool;
  validation_error : option string
}.

(** What the rest of the code needs of the runtime and of the host.
    - [response_text res] is [await res.text()], the body of a response.
    - [Object_prototype p] is what the object literal [validators] inherits
      under the name [p] ([toString], [constructor], ...), if anything,
      taken as the outcome of calling it like a validator, [fn(key)], and
      of reading [valid] and [error] off what it returns.
    - [ctx_unregisterExtension] is the optional method of the host.
    These calls are not among the effects of [Effect]; they change the
    outside and leave the trace as it is. *)
Class Runtime (X : Type) : Type := {
  response_text : Response → Outside X → Exc string * Outside X;
  Object_prototype :
    string → option (string → Outside X → Exc ValidationResult * Outside X);
  ctx_unregisterExtension : option (string → Outside X → Exc unit * Outside X)
}.

(** The em dash of the templates of [tools.ts], in UTF-8. *)
Definition em_dash : string := "—".

Definition backtick : string := "`".

(** A call of [fetch] without [method] and [body] is a GET. *)
Definition get_request (u : string) (hs : list (string * string)) : Request :=
  {| url := u; method := "GET"; headers := hs; json_body := [] |}.

Definition health_request (service : string) : Request :=
  get_request ("http://localhost:7437/plugins/" +:+ service +:+ "/health") [].

(** The names of the validators, in the order of the object literal
    ([Object.keys(validators)]). *)
Definition provider_names : list string :=
  ["anthropic"; "openai"; "discord"; "telegram"].

Definition unknown_provider_message (provider : string) : string :=
  "Unknown provider: " +:+ provider +:+ ". Supported: " +:+ join ", " provider_names.

(** [prompt] of [setup.ask], built up by its [+=]. *)
Definition ask_prompt (field : ConfigField) : string :=
  let prompt := "Please provide: **" +:+ label field +:+ "**" in
  let prompt :=
    if truthy_string (description field)
    then prompt +:+ newline +:+ default EmptyString (description field)
    else prompt in
  let prompt :=
    match type field with
    | TPassword =>
        prompt +:+ newline +:+
        "(This value will be stored securely and never displayed.)"
    | _ => prompt
    end in
  let prompt :=
    match type field, options field with
    | TSelect, Some opts =>
        foldl (λ p opt,
                 p +:+ newline +:+ "- " +:+ backtick +:+ opt_value opt +:+ backtick
                   +:+ " " +:+ em_dash +:+ " " +:+ opt_label opt)
              (prompt +:+ newline +:+ newline +:+ "Options:") opts
    | _, _ => prompt
    end in
  let prompt :=
    if truthy_string (placeholder field)
    then prompt +:+ newline +:+ newline +:+ "Example: " +:+ backtick +:+
         default EmptyString (placeholder field) +:+ backtick
    else prompt in
  let prompt :=
    if truthy_bool (required field)
    then prompt +:+ newline +:+ newline +:+ "*This field is required.*"
    else prompt in
  prompt.

Section OtherTools.
Context {X : Type} `{!WOPRPluginContext X} `{!Globals X} `{!Runtime X}.

(** A call to the outside that the trace does not record. *)
Definition call_outside {A} (f : Outside X → Exc A * Outside X) : M X A :=
  λ w, let '(r, o) := f (outside w) in
       (r, {| sessions := sessions w; heap := heap w;
              outside := o; trace := trace w |}).

(** [await res.text()] *)
Definition call_text (res : Response) : M X string :=
  call_outside (response_text res).

(** *** setup.ask *)
Definition ask_handler (sid : string) (field : ConfigField) : M X A2AToolResult :=
  let* session := getSession sid in
  match session with
  | None => ret (textResult (no_session_message sid) true)
  | Some _ => ret (textResult (ask_prompt field) false)
  end.

(** *** The validators

    The four validators of [validators.ts] differ in the request and in
    the name of the API in the message. *)
Definition provider_validator (api : string) (req : Request) : M X ValidationResult :=
  try_catch
    (let* res := call_fetch req in
     if ok res then ret {| valid := true; validation_error := None |}
     else
       let* body := call_text res in
       ret {| valid := false;
              validation_error :=
                Some (api +:+ " API returned " +:+ pretty (status res) +:+ ": " +:+ body) |})
    (λ err,
       ret {| valid := false; validation_error := Some ("Network error: " +:+ err) |}).

Definition anthropic_request (key : string) : Request :=
  get_request "https://api.anthropic.com/v1/models"
    [("x-api-key", key); ("anthropic-version", "2023-06-01")].

Definition openai_request (key : string) : Request :=
  get_request "https://api.openai.com/v1/models" [("Authorization", "Bearer " +:+ key)].

Definition discord_request (key : string) : Request :=
  get_request "https://discord.com/api/v10/users/@me" [("Authorization", "Bot " +:+ key)].

Definition telegram_request (key : string) : Request :=
  get_request ("https://api.telegram.org/bot" +:+ key +:+ "/getMe") [].

Definition anthropic (key : string) : M X ValidationResult :=
  provider_validator "Anthropic" (anthropic_request key).

Definition openai (key : string) : M X ValidationResult :=
  provider_validator "OpenAI" (openai_request key).

Definition discord (key : string) : M X ValidationResult :=
  provider_validator "Discord" (discord_request key).

Definition telegram (key : string) : M X ValidationResult :=
  provider_validator "Telegram" (telegram_request key).

(** [validators[provider]]: one of the four, or what the object inherits
    under that name, or [undefined]. *)
Definition validators (provider : string) : option (string → M X ValidationResult) :=
  if String.eqb provider "anthropic" then Some anthropic
  else if String.eqb provider "openai" then Some openai
  else if String.eqb provider "discord" then Some discord
  else if String.eqb provider "telegram" then Some telegram
  else (λ f key, call_outside (f key)) <$> Object_prototype provider.

(** [validateKey] of [validators.ts] *)
Definition validateKey (provider key : string) : M X ValidationResult :=
  match validators provider with
  | None =>
      ret {| valid := false;
             validation_error := Some (unknown_provider_message provider) |}
  | Some fn => fn key
  end.

(** *** setup.validateKey; an [error] that is [undefined] prints as
    such. *)
Definition validateKey_handler (provider key : string) : M X A2AToolResult :=
  let* result := validateKey provider key in
  if valid result then
    ret (textResult ("Key validated successfully for provider: " +:+ provider) false)
  else
    ret (textResult
           ("Key validation failed: " +:+ default "undefined" (validation_error result))
           true).

(** *** setup.testConnection *)
Definition testConnection_handler (service : string) : M X A2AToolResult :=
  try_catch
    (let* res := call_fetch (health_request service) in
     if ok res then ret (textResult ("Connection to " +:+ service +:+ " is healthy.") false)
     else
       let* body := call_text res in
       ret (textResult
              ("Connection test failed for " +:+ service +:+ ": HTTP " +:+
               pretty (status res) +:+ " " +:+ em_dash +:+ " " +:+ body)
              true))
    (λ err,
       ret (textResult ("Connection test failed for " +:+ service +:+ ": " +:+ err) true)).

(** *** [shutdown] of the plugin ([index.ts]).  [initialised] tells
    whether [init] has set the module variable [ctx]. *)
Definition shutdown (initialised : bool) : M X unit :=
  (if initialised then
     match ctx_unregisterExtension with
     | Some unregister => call_outside (unregister "setup")
     | None => ret tt
     end
   else ret tt);;
  clearAllSessions.

End OtherTools.

(** Every call that reaches the plugin: the calls of [ToolCall], the three
    other tools, the two queries of the extension, and the shutdown. *)
Inductive PluginCall : Type :=
| P_tool (tc : ToolCall)
| P_ask (sid : string) (field : ConfigField)
| P_validateKey (provider key : string)
| P_testConnection (service : string)
| P_getSession (sid : string)
| P_isSetupActive (sid : string)
| P_shutdown (initialised : bool).

Section PluginRuns.
Context {X : Type} `{!WOPRPluginContext X} `{!Globals X} `{!Runtime X}.

Definition plugin_step (pc : PluginCall) (w : World X) : World X :=
  match pc with
  | P_tool tc => step tc w
  | P_ask sid field => snd (ask_handler sid field w)
  | P_validateKey provider key => snd (validateKey_handler provider key w)
  | P_testConnection service => snd (testConnection_handler service w)
  | P_getSession sid => snd (getSession sid w)
  | P_isSetupActive sid => snd (isSetupActive sid w)
  | P_shutdown initialised => snd (shutdown initialised w)
  end.

Definition plugin_run (pcs : list PluginCall) (w : World X) : World X :=
  foldl (λ w pc, plugin_step pc w) w pcs.

End PluginRuns.

(** The runtime of the tests.  The mocked responses carry their text by
    status ([401] in the tests of the validators, [503] in those of the
    tools); the other mocks have no [text] method.  The inherited
    properties are those of [Object.prototype], called as [fn(key)] with
    no receiver: [constructor], [toString] and [isPrototypeOf] return a
    value without [valid] or [error], the others throw.  [makeCtx] has no
    [unregisterExtension]. *)
Definition mock_text (res : Response) : Exc string :=
  if (status res =? 401)%Z then Ret "invalid key"
  else if (status res =? 503)%Z then Ret "down"
  else Throw "TypeError: res.text is not a function".

Definition Object_prototype_names : list string :=
  ["constructor"; "toString"; "toLocaleString"; "valueOf"; "hasOwnProperty";
   "isPrototypeOf"; "propertyIsEnumerable"; "__proto__"; "__defineGetter__";
   "__defineSetter__"; "__lookupGetter__"; "__lookupSetter__"].

Definition node_Object_prototype (p : string)
    : option (string → Outside TestState → Exc ValidationResult * Outside TestState) :=
  if bool_decide (p ∈ ["constructor"; "toString"; "isPrototypeOf"]) then
    Some (λ _ o, (Ret {| valid := false; validation_error := None |}, o))
  else if bool_decide (p ∈ Object_prototype_names) then
    Some (λ _ o, (Throw "TypeError", o))
  else None.

#[global] Instance TestRuntime : Runtime TestState := {|
  response_text res o := (mock_text res, o);
  Object_prototype := node_Object_prototype;
  ctx_unregisterExtension := None
|}.

(* ===================================================================== *)
(** ** More notions for the properties *)
(* ===================================================================== *)

(** [Map.prototype.get] *)
Fixpoint map_get (k : string) (m : ValueMap) : option Value :=
  match m with
  | [] => None
  | (k', v) :: rest => if String.eqb k' k then Some v else map_get k rest
  end.

(** The value that the mutations [ms] saved last under the key [k]. *)
Definition last_saved (k : string) (ms : list SetupMutation) : option Value :=
  foldl (λ acc m, match m with
                  | M_saveConfig k' v => if String.eqb k' k then Some v else acc
                  | M_installDependency _ => acc
                  end) None ms.

(** The collected values of a session agree with its ledger: the keys are
    distinct, and each holds the value saved last under it. *)
Definition agrees (s : SetupSession) : Prop :=
  NoDup (map_keys (collectedValues s)) ∧
  ∀ k, map_get k (collectedValues s) = last_saved k (mutations s).

(** [s'] is [s] but for its ledger, its collected values and its
    [completed] flag. *)
Definition same_identity (s s' : SetupSession) : Prop :=
  sessionId s' = sessionId s ∧ pluginId s' = pluginId s ∧
  configSchema s' = configSchema s ∧ createdAt s' = createdAt s.

(** The plugins installed and the keys saved by a ledger, in its order. *)
Definition installed (ms : list SetupMutation) : list string :=
  flat_map (λ m, match m with
                 | M_installDependency pid => [pid]
                 | M_saveConfig _ _ => []
                 end) ms.

Definition saved_keys (ms : list SetupMutation) : list string :=
  flat_map (λ m, match m with
                 | M_saveConfig key _ => [key]
                 | M_installDependency _ => []
                 end) ms.

(** What a trace shows: the requests sent, the keys deleted, the number
    of reads of the configuration, and whether anything else was done to
    the outside (a key set, an event emitted). *)
Definition fetched (es : list Effect) : list Request :=
  flat_map (λ e, match e with EFetch req _ => [req] | _ => [] end) es.

Definition deleted_keys (es : list Effect) : list string :=
  flat_map (λ e, match e with EDeleteKey _ key => [key] | _ => [] end) es.

Definition config_reads (es : list Effect) : nat :=
  length (List.filter (λ e, match e with EGetConfig _ => true | _ => false end) es).

Definition sets_or_emits (e : Effect) : bool :=
  match e with
  | ESetKey _ _ _ | EEmit _ _ _ => true
  | _ => false
  end.

(** Kinds of calls. *)
Definition is_rollback (pc : PluginCall) : bool :=
  match pc with
  | P_tool (C_rollback _) => true
  | _ => false
  end.

Definition begins_session (pc : PluginCall) : bool :=
  match pc with
  | P_tool tc => is_beginSetup tc
  | _ => false
  end.

(** Two fields with the same name and the same constraints ([required],
    [pattern], [patternError]); they may differ in the rest ([type],
    [options], [label], ...). *)
Definition same_constraints (f f' : ConfigField) : Prop :=
  name f = name f' ∧ required f = required f' ∧
  pattern f = pattern f' ∧ patternError f = patternError f'.

(** The request a provider is asked with, and the name of its API in the
    messages. *)
Definition provider_request (provider key : string) : option (string * Request) :=
  if String.eqb provider "anthropic" then Some ("Anthropic", anthropic_request key)
  else if String.eqb provider "openai" then Some ("OpenAI", openai_request key)
  else if String.eqb provider "discord" then Some ("Discord", discord_request key)
  else if String.eqb provider "telegram" then Some ("Telegram", telegram_request key)
  else None.

(** The text of a [saveConfig] whose [try] block caught [err]. *)
Definition save_failed_message (key err : string) : string :=
  "Failed to save " +:+ dquote +:+ key +:+ dquote +:+ ": " +:+ err.

(** What one call can do to a session object: nothing; or, for the four
    tools that write, what the tool does to the object of its session. *)
Definition saved_value (key : string) (value : Value) (s : SetupSession) : SetupSession :=
  set_collectedValues (map_set key value (collectedValues s))
    (push_mutation (M_saveConfig key value) s).

Definition cleared (s : SetupSession) : SetupSession :=
  set_collectedValues [] (set_mutations [] s).

Inductive obj_change : PluginCall → SetupSession → SetupSession → Prop :=
| oc_same pc s : obj_change pc s s
| oc_install sid pid s :
    obj_change (P_tool (C_installDependency sid pid)) s
      (push_mutation (M_installDependency pid) s)
| oc_save sid key value s :
    obj_change (P_tool (C_saveConfig sid key value)) s (saved_value key value s)
| oc_complete sid s :
    obj_change (P_tool (C_complete sid)) s (set_completed true s)
| oc_rollback sid s :
    obj_change (P_tool (C_rollback sid)) s (cleared s).

(** The heap after a tool ran on session [sid]: as before, or with the
    object of [sid] changed by [f]. *)
Definition heap_altered {X} (w w' : World X) (sid : string)
    (f : SetupSession → SetupSession) : Prop :=
  heap w' = heap w ∨
  ∃ l0, sessions w !! sid = Some l0 ∧ heap w' = alter f l0 (heap w).

(** [s] begins with [a] ([String.prototype.startsWith]). *)
Definition starts_with (a s : string) : Prop := ∃ rest : string, s = a +:+ rest.

(** The configuration after the values saved by the mutations [ms] are
    put in [c], one after the other. *)
Definition apply_saves (ms : list SetupMutation) (c : Config) : Config :=
  foldl (λ c m, match m with
                | M_saveConfig key value => <[key := value]> c
                | M_installDependency _ => c
                end) c ms.

(** A call of [saveConfig] or of [installDependency] on session [sid]. *)
Definition writes_on (sid : string) (tc : ToolCall) : Prop :=
  match tc with
  | C_saveConfig sid' _ _ | C_installDependency sid' _ => sid' = sid
  | _ => False
  end.


(** A host that keeps the names of its extensions, as the one of the test
    "unregisters on shutdown": [unregisterExtension] takes the name off,
    or throws when [fails] is set.  It has no configuration and no
    network. *)
Definition registry_ctx : WOPRPluginContext (list string) := {|
  ctx_getConfig o := (Ret None, o);
  ctx_saveConfig c o := (Ret tt, o);
  ctx_events_emit ev p o := (Ret tt, o)
|}.

Definition registry_globals : Globals (list string) := {|
  fetch req o := (Throw "TypeError: fetch failed", o);
  RegExp_new := plain_RegExp;
  inherits_proto_accessor := λ _ _, true;
  RegExp_empty := @RegExp_empty TestState TestGlobals
|}.

Definition registry_runtime (fails : bool) : Runtime (list string) := {|
  response_text res o := (Throw "TypeError: res.text is not a function", o);
  Object_prototype := λ _, None;
  ctx_unregisterExtension :=
    Some (λ ext o,
            if fails then (Throw "Error: host is shutting down", o)
            else (Ret tt, set_host (List.filter (λ e, negb (String.eqb e ext))) o))
|}.

(** A world on that host: the extension is registered, and one session
    is in the store. *)
Definition w_registry : World (list string) :=
  {| sessions := {[ "s1" := 1%positive ]};
     heap := {[ 1%positive := session_of "s1" [] [] false ]};
     outside := {| objs := ∅; protos := ∅; host := ["setup"; "other"] |};
     trace := [] |}.

(** A field whose name is [__proto__]. *)
Definition proto_field : ConfigField := text_field "__proto__" None None None.

(** The select field of the test of [setup.ask]. *)
Definition model_field : ConfigField :=
  {| name := "model"; type := TSelect; label := "Model"; description := None;
     placeholder := None; required := None; pattern := None; patternError := None;
     options := Some [ {| opt_value := "gpt-4"; opt_label := "GPT-4" |};
                       {| opt_value := "claude"; opt_label := "Claude" |} ] |}.

(** A completed session with the field [token], and an install that goes
    through. *)
Definition w_completed : World TestState :=
  session_world "s2" (session_of "s2" [token_field] [] true) ∅
    [Ret (json_response 200 body_success)].

(* ===================================================================== *)
(** ** How the handlers run *)
(* ===================================================================== *)

(** *** Strings *)

Lemma append_cons (x : ascii) (a b : string) :
  String x a +:+ b = String x (a +:+ b).
Proof. reflexivity. Qed.

Lemma append_assoc (a b c : string) : (a +:+ b) +:+ c = a +:+ b +:+ c.
Proof.
  induction a as [| x a IH]; [reflexivity |].
  by rewrite !append_cons, IH.
Qed.

Lemma append_empty_r (a : string) : a +:+ EmptyString = a.
Proof.
  induction a as [| x a IH]; [reflexivity |].
  by rewrite append_cons, IH.
Qed.

Lemma contains_refl (a : string) : contains a a.
Proof. exists EmptyString, EmptyString. by rewrite append_empty_r. Qed.

Lemma contains_append_l (n a b : string) : contains n b → contains n (a +:+ b).
Proof.
  intros (p & q & ->). exists (a +:+ p), q. by rewrite append_assoc.
Qed.

Lemma contains_append_r (n a b : string) : contains n a → contains n (a +:+ b).
Proof.
  intros (p & q & ->). exists p, (q +:+ b). by rewrite !append_assoc.
Qed.

(** Each string of a list occurs in the list joined. *)
Lemma contains_join (sep e : string) (l : list string) :
  e ∈ l → contains e (join sep l).
Proof.
  induction l as [| x l IH]; [by intros ?%elem_of_nil |].
  intros [-> | Hin]%elem_of_cons; destruct l as [| y l]; simpl.
  - apply contains_refl.
  - apply contains_append_r, contains_refl.
  - by apply elem_of_nil in Hin.
  - by apply contains_append_l, contains_append_l, IH.
Qed.

(** *** The handlers *)

Section Theory.
Context {X : Type} `{!WOPRPluginContext X} `{!Globals X}.
Implicit Types (w : World X) (s : SetupSession) (l c : loc).

Lemma getSession_at w sid l s :
  session_at w sid l s → getSession sid w = (Ret (Some l), w).
Proof. intros [Hs _]. unfold getSession. by rewrite Hs. Qed.

Lemma deref_at w sid l s :
  session_at w sid l s → deref l w = (Ret s, w).
Proof. intros [_ Hl]. unfold deref. by rewrite Hl. Qed.

(** One turn of the rollback loop is an attempt on its mutation: it
    returns whatever the host and the network do, it adds the messages
    of its failure to the error list, and it leaves the sessions as they
    are. *)
Lemma compensate_spec m errs w :
  ∃ es errs' w',
    compensate m errs w = (Ret (errs ++ errs'), w') ∧
    trace w' = trace w ++ es ∧
    compensation m es errs' ∧
    sessions w' = sessions w ∧ heap w' = heap w.
Proof.
  destruct m as [key v | pid];
    unfold compensate, try_catch, getConfig_or_empty, call_getConfig,
      call_fetch; unfold bind.
  - destruct (ctx_getConfig (outside w)) as [[o | err] o1] eqn:Hget.
    + set (w1 := set_outside o1 [EGetConfig (Ret o)] w).
      assert (∃ c w2, (match o with Some l => ret l | None => new_object end) w1
                      = (Ret c, w2) ∧ trace w2 = trace w ++ [EGetConfig (Ret o)] ∧
                      sessions w2 = sessions w ∧ heap w2 = heap w ∧
                      (∀ c', o = Some c' → c' = c)) as (c & w2 & -> & Ht & Hs & Hh & Hc).
      { destruct o as [c |].
        - exists c, w1. repeat split; try done. by intros c' [= ->].
        - eexists _, _. unfold new_object. by repeat split. }
      unfold obj_delete, call_saveConfig, ret. simpl.
      destruct (ctx_saveConfig c _) as [[[] | err] o2].
      * eexists _, [], _. rewrite app_nil_r. split; [done |]. simpl.
        rewrite Ht, <- !app_assoc. simpl. repeat split; try done.
        by constructor.
      * eexists _, _, _. split; [done |]. simpl.
        rewrite Ht, <- !app_assoc. simpl. repeat split; try done.
        by constructor.
    + eexists _, _, _. split; [done |]. simpl. repeat split; try done.
      constructor.
  - destruct (fetch _ (outside w)) as [[res | err] o1].
    + destruct (ok res) eqn:Hok; simpl.
      * eexists _, [], _. rewrite app_nil_r. split; [done |]. simpl.
        repeat split; try done. by constructor.
      * eexists _, _, _. split; [done |]. simpl.
        repeat split; try done. by constructor.
    + eexists _, _, _. split; [done |]. simpl. repeat split; try done.
      constructor.
Qed.

(** The loop attempts every mutation of the list it is given, in the
    order of the list, and returns. *)
Lemma rollback_loop_spec ms errs w :
  ∃ es errs' w',
    rollback_loop ms errs w = (Ret (errs ++ errs'), w') ∧
    trace w' = trace w ++ es ∧
    compensations ms es errs' ∧
    sessions w' = sessions w ∧ heap w' = heap w.
Proof.
  revert errs w. induction ms as [| m ms IH]; intros errs w.
  - exists [], [], w. rewrite !app_nil_r. repeat split; try done. constructor.
  - destruct (compensate_spec m errs w) as (es1 & errs1 & w1 & Hc & Ht1 & Hm & Hs1 & Hh1).
    destruct (IH (errs ++ errs1) w1) as (es2 & errs2 & w2 & Hl & Ht2 & Hms & Hs2 & Hh2).
    exists (es1 ++ es2), (errs1 ++ errs2), w2.
    simpl. unfold bind. rewrite Hc, Hl, Ht2, Ht1, !app_assoc.
    repeat split; try congruence. by constructor.
Qed.

(** The rollback of an existing session: the loop over the reversed
    ledger, then the clean-up, then the result. *)
Lemma rollback_handler_spec w sid l s :
  session_at w sid l s →
  ∃ es errs w1,
    rollback_loop (reverse (mutations s)) [] w = (Ret errs, w1) ∧
    trace w1 = trace w ++ es ∧
    compensations (reverse (mutations s)) es errs ∧
    rollback_handler sid w =
      (Ret (rollback_result errs),
       {| sessions := delete sid (sessions w);
          heap := alter (set_collectedValues []) l
                    (alter (set_mutations []) l (heap w));
          outside := outside w1;
          trace := trace w ++ es |}).
Proof.
  intros Hat.
  destruct (rollback_loop_spec (reverse (mutations s)) [] w)
    as (es & errs & w1 & Hl & Ht & Hc & Hs & Hh).
  exists es, errs, w1. simpl in Hl. repeat split; try done.
  unfold rollback_handler, bind.
  rewrite (getSession_at _ _ _ _ Hat), (deref_at _ _ _ _ Hat), Hl.
  unfold update, deleteSession, ret, set_heap, set_sessions. simpl.
  rewrite Hs, Hh, Ht. by destruct errs.
Qed.

(** [getConfig() ?? {}] *)
Lemma getConfig_or_empty_run w :
  let out := ctx_getConfig (outside w) in
  getConfig_or_empty w
  = match fst out with
    | Ret r =>
        (Ret (fst (config_object r (snd out))),
         set_outside (snd (config_object r (snd out))) [EGetConfig (Ret r)] w)
    | Throw err => (Throw err, set_outside (snd out) [EGetConfig (Throw err)] w)
    end.
Proof.
  intros out. subst out.
  unfold getConfig_or_empty, call_getConfig; unfold bind.
  destruct (ctx_getConfig (outside w)) as [[[c |] | err] o1]; reflexivity.
Qed.

(** One turn of the rollback loop makes the calls of an attempt on its
    mutation, and adds the message of the failure, if any, to the error
    list. *)
Lemma compensate_attempt m errs w :
  ∃ es errs' o',
    compensate m errs w
    = (Ret (errs ++ errs'),
       {| sessions := sessions w; heap := heap w; outside := o';
          trace := trace w ++ es |}) ∧
    attempt m (outside w) es errs' o'.
Proof.
  destruct m as [key v | pid]; unfold compensate, try_catch; unfold bind.
  - rewrite getConfig_or_empty_run.
    destruct (ctx_getConfig (outside w)) as [[r | err] o1] eqn:Hget; cbn [fst snd].
    + destruct (config_object r o1) as [c o2] eqn:Hobj; cbn [fst snd].
      unfold obj_delete, call_saveConfig, ret, set_outside;
        cbn [outside sessions heap trace].
      destruct (ctx_saveConfig c (delete_key c key o2)) as [res o3] eqn:Hsave.
      exists [EGetConfig (Ret r); EDeleteKey c key; ESaveConfig c res],
        (throw_messages res), o3.
      split; [| by eapply attempt_delete].
      destruct res as [[] | err]; cbn [throw_messages];
        by rewrite ?app_nil_r, <- !app_assoc.
    + eexists _, _, _. split; [reflexivity |]. by constructor.
  - unfold call_fetch.
    destruct (fetch _ (outside w)) as [res o1] eqn:Hfetch.
    exists [EFetch (plugins_request "uninstall" pid) res],
      (uninstall_messages pid res), o1.
    split; [| by constructor].
    destruct res as [res | err]; [| done]. cbn [uninstall_messages].
    destruct (ok res); cbn [negb]; by rewrite ?app_nil_r.
Qed.

(** The loop makes the calls of an attempt on every mutation of the list
    it is given, in the order of the list, and returns. *)
Lemma rollback_loop_attempts ms errs w :
  ∃ es errs' o',
    rollback_loop ms errs w
    = (Ret (errs ++ errs'),
       {| sessions := sessions w; heap := heap w; outside := o';
          trace := trace w ++ es |}) ∧
    attempts ms (outside w) es errs' o'.
Proof.
  revert errs w. induction ms as [| m ms IH]; intros errs w.
  - exists [], [], (outside w). rewrite !app_nil_r.
    split; [by destruct w | constructor].
  - destruct (compensate_attempt m errs w) as (es1 & errs1 & o1 & Hc & Hm).
    destruct (IH (errs ++ errs1)
                {| sessions := sessions w; heap := heap w; outside := o1;
                   trace := trace w ++ es1 |})
      as (es2 & errs2 & o2 & Hl & Hms).
    exists (es1 ++ es2), (errs1 ++ errs2), o2.
    cbn [rollback_loop]. unfold bind. rewrite Hc, Hl.
    cbn [sessions heap outside trace] in *. rewrite !app_assoc.
    split; [done |]. by econstructor.
Qed.

(** The rollback of an existing session, by the calls it makes. *)
Lemma rollback_handler_attempts w sid l s :
  session_at w sid l s →
  ∃ es errs o',
    attempts (reverse (mutations s)) (outside w) es errs o' ∧
    rollback_handler sid w =
      (Ret (rollback_result errs),
       {| sessions := delete sid (sessions w);
          heap := alter (set_collectedValues []) l
                    (alter (set_mutations []) l (heap w));
          outside := o';
          trace := trace w ++ es |}).
Proof.
  intros Hat.
  destruct (rollback_loop_attempts (reverse (mutations s)) [] w)
    as (es & errs & o' & Hl & Hatt).
  exists es, errs, o'. split; [done |]. cbn [app] in Hl.
  unfold rollback_handler, bind.
  rewrite (getSession_at _ _ _ _ Hat), (deref_at _ _ _ _ Hat), Hl.
  unfold update, deleteSession, ret, set_heap, set_sessions.
  cbn [sessions heap outside trace]. by destruct errs.
Qed.

(** An attempt has the shape of a compensation. *)
Lemma attempt_compensation m (o o' : Outside X) es errs :
  attempt m o es errs o' → compensation m es errs.
Proof.
  intros Hatt. destruct Hatt as [key v o err o1 Hget
                                | key v o r o1 c o2 res o3 Hget Hobj Hsave
                                | pid o res o1 Hfetch].
  - constructor.
  - assert (∀ c', r = Some c' → c' = c) as Hc.
    { intros c' ->. cbn in Hobj. congruence. }
    destruct res as [[] | err]; by constructor.
  - destruct res as [res | err]; [| constructor].
    cbn [uninstall_messages]. destruct (ok res) eqn:Hok; by constructor.
Qed.

Lemma attempts_compensations ms (o o' : Outside X) es errs :
  attempts ms o es errs o' → compensations ms es errs.
Proof.
  induction 1 as [| m ms o es errs o1 es' errs' o2 Hm _ IH]; constructor;
    [by eapply attempt_compensation | done].
Qed.

(** A rollback of a session that is not there changes nothing. *)
Lemma rollback_absent w sid :
  sessions w !! sid = None →
  rollback_handler sid w = (Ret (textResult (no_session_message sid) true), w).
Proof. intros Hs. unfold rollback_handler, bind, getSession. by rewrite Hs. Qed.

(* =================================================================== *)
(** ** Rollback: order, failures, clean-up *)
(* =================================================================== *)

(** C1. The rollback of a session returns, and what it does outside is
    one attempt per mutation of the ledger, in the reverse of the order
    of the ledger (the most recent mutation first): the calls of each
    attempt are made from the outside that the attempt before has left,
    and the outside after the rollback is the one that the last attempt
    has left. *)
Theorem rollback_reverse_order w sid l s :
  session_at w sid l s →
  ∃ r w' es errs,
    rollback_handler sid w = (Ret r, w') ∧
    trace w' = trace w ++ es ∧
    attempts (reverse (mutations s)) (outside w) es errs (outside w').
Proof.
  intros Hat.
  destruct (rollback_handler_attempts w sid l s Hat) as (es & errs & o' & Hatt & Hr).
  eexists _, _, es, errs. split; [exact Hr |]. by split.
Qed.

(** For the ledger [A; B; C] the attempts are on [C], then [B], then
    [A]. *)
Corollary rollback_three w sid l s A B C :
  session_at w sid l s →
  mutations s = [A; B; C] →
  ∃ r w' esC esB esA errsC errsB errsA oC oB,
    rollback_handler sid w = (Ret r, w') ∧
    trace w' = trace w ++ esC ++ esB ++ esA ∧
    attempt C (outside w) esC errsC oC ∧ attempt B oC esB errsB oB ∧
    attempt A oB esA errsA (outside w').
Proof.
  intros Hat Hms.
  destruct (rollback_handler_attempts w sid l s Hat) as (es & errs & o' & Hc & Hr).
  rewrite Hms in Hc. cbn in Hc.
  inversion Hc as [| ? ? ? esC errsC oC ? ? ? HC Hc1]; subst.
  inversion Hc1 as [| ? ? ? esB errsB oB ? ? ? HB Hc2]; subst.
  inversion Hc2 as [| ? ? ? esA errsA oA ? ? ? HA Hc3]; subst.
  inversion Hc3; subst.
  eexists _, _, esC, esB, esA, errsC, errsB, errsA, oC, oB.
  split; [exact Hr |]. rewrite app_nil_r. by repeat split.
Qed.

(** The messages of a list of attempts are those of its parts. *)
Lemma attempts_app ms1 ms2 (o o' : Outside X) es errs :
  attempts (ms1 ++ ms2) o es errs o' →
  ∃ es1 errs1 o1 es2 errs2,
    attempts ms1 o es1 errs1 o1 ∧ attempts ms2 o1 es2 errs2 o' ∧
    es = es1 ++ es2 ∧ errs = errs1 ++ errs2.
Proof.
  revert o es errs. induction ms1 as [| m ms1 IH]; intros o es errs Hatt.
  - exists [], [], o, es, errs. repeat split; try done. constructor.
  - inversion Hatt as [| ? ? ? esm errsm om es' errs' ? Hm Hrest]; subst.
    destruct (IH om es' errs' Hrest)
      as (es1 & errs1 & o1 & es2 & errs2 & H1 & H2 & -> & ->).
    exists (esm ++ es1), (errsm ++ errs1), o1, es2, errs2.
    rewrite !app_assoc. repeat split; try done. by econstructor.
Qed.

(** C2. The rollback of a session never throws and never stops early.
    Every mutation of the ledger is attempted, the most recent first, by
    calls that are really made, whatever the attempts before it have
    done: an attempt that fails (a call throws, the uninstall is answered
    with a response that is not [ok]) leaves its message, and the attempt
    of the next mutation starts from the outside it has left.  The result
    is the success result when no attempt has left a message, else one
    error result whose text holds every message. *)
Theorem rollback_best_effort w sid l s :
  session_at w sid l s →
  ∃ w' es errs,
    rollback_handler sid w = (Ret (rollback_result errs), w') ∧
    trace w' = trace w ++ es ∧
    attempts (reverse (mutations s)) (outside w) es errs (outside w') ∧
    (∀ before m after,
       reverse (mutations s) = before ++ m :: after →
       ∃ es1 errs1 o1 es2 errs2 o2 es3 errs3,
         attempts before (outside w) es1 errs1 o1 ∧
         attempt m o1 es2 errs2 o2 ∧
         attempts after o2 es3 errs3 (outside w') ∧
         es = es1 ++ es2 ++ es3 ∧ errs = errs1 ++ errs2 ++ errs3) ∧
    (errs = [] →
     rollback_result errs
     = textResult "Rollback complete. All changes undone." false) ∧
    (errs ≠ [] →
     isError (rollback_result errs) = true ∧
     result_text (rollback_result errs)
     = "Rollback completed with errors:" +:+ newline +:+ join newline errs ∧
     ∀ e, e ∈ errs → contains e (result_text (rollback_result errs))).
Proof.
  intros Hat.
  destruct (rollback_handler_attempts w sid l s Hat) as (es & errs & o' & Hc & Hr).
  eexists _, es, errs. split; [exact Hr |]. cbn [trace outside].
  split; [done |]. split; [done |]. split; [| repeat split].
  - intros before m after Hsplit. rewrite Hsplit in Hc.
    destruct (attempts_app _ _ _ _ _ _ Hc)
      as (es1 & errs1 & o1 & es' & errs' & H1 & H2 & -> & ->).
    inversion H2 as [| ? ? ? es2 errs2 o2 es3 errs3 ? Hm H3]; subst.
    by exists es1, errs1, o1, es2, errs2, o2, es3, errs3.
  - by intros ->.
  - by destruct errs.
  - by destruct errs.
  - intros e He. destruct errs as [| e0 errs]; [by apply elem_of_nil in He |].
    unfold rollback_result, result_text, textResult; cbn [content text].
    by apply contains_append_l, contains_append_l, contains_join.
Qed.

(** C3. After a rollback the session is not in the store, whatever
    failed; and the session object that was there has an empty ledger
    and no collected value (its other properties are as before). *)
Theorem rollback_deletes_session w sid :
  wf w →
  ∃ r w',
    rollback_handler sid w = (Ret r, w') ∧
    getSession sid w' = (Ret None, w') ∧
    ∀ l s, session_at w sid l s →
      heap w' !! l
      = Some {| sessionId := sessionId s; pluginId := pluginId s;
                configSchema := configSchema s; mutations := [];
                collectedValues := []; completed := completed s;
                createdAt := createdAt s |}.
Proof.
  intros Hwf. destruct (sessions w !! sid) as [l |] eqn:Hs.
  - destruct (Hwf sid l Hs) as [s Hl].
    destruct (rollback_handler_spec w sid l s (conj Hs Hl))
      as (es & errs & w1 & _ & _ & _ & Hr).
    eexists _, _. split; [exact Hr |]. split.
    + unfold getSession. cbn [sessions]. by rewrite lookup_delete_eq.
    + intros l' s' [Hs' Hl']. rewrite Hs in Hs'. injection Hs' as <-.
      rewrite Hl in Hl'. injection Hl' as <-. cbn [heap].
      rewrite !lookup_alter_eq, Hl. done.
  - eexists _, _. split; [by apply rollback_absent |]. split.
    + unfold getSession. by rewrite Hs.
    + intros l s [Hs' _]. congruence.
Qed.

(* =================================================================== *)
(** ** Completion *)
(* =================================================================== *)

Lemma complete_absent w sid :
  sessions w !! sid = None →
  complete_handler sid w = (Ret (textResult (no_session_message sid) true), w).
Proof. intros Hs. unfold complete_handler, bind, getSession. by rewrite Hs. Qed.

Lemma complete_already w sid l s :
  session_at w sid l s → completed s = true →
  complete_handler sid w = (Ret (textResult "Setup already completed." true), w).
Proof.
  intros Hat Hc. unfold complete_handler, bind.
  by rewrite (getSession_at _ _ _ _ Hat), (deref_at _ _ _ _ Hat), Hc.
Qed.

(** The completion of a session that is there and not completed: the
    flag is set, the event is emitted, and the handler returns the
    success result unless the emission throws. *)
Lemma complete_first w sid l s :
  session_at w sid l s → completed s = false →
  let payload := {| ev_pluginId := pluginId s; ev_sessionId := sid;
                    ev_configKeys := map_keys (collectedValues s) |} in
  let out := ctx_events_emit "setup:complete" payload (outside w) in
  complete_handler sid w =
    (match fst out with
     | Ret _ => Ret (textResult ("Setup complete for " +:+ pluginId s +:+
                                 ". Plugin is now active.") false)
     | Throw err => Throw err
     end,
     {| sessions := sessions w;
        heap := alter (set_completed true) l (heap w);
        outside := snd out;
        trace := trace w ++ [EEmit "setup:complete" payload (fst out)] |}).
Proof.
  intros Hat Hc payload out. unfold complete_handler, bind.
  rewrite (getSession_at _ _ _ _ Hat), (deref_at _ _ _ _ Hat), Hc.
  unfold update, call_emit, ret, set_heap, set_outside. cbn [outside heap sessions trace].
  fold payload. fold out. by destruct out as [[[] | err] o].
Qed.

(** C9. A [complete] that succeeds sets the [completed] flag of its
    session object and changes nothing else of the sessions: the store
    is the same map, the other properties of the object are as before,
    and every other session object is untouched. *)
Theorem complete_frame w sid l s r w' :
  session_at w sid l s → completed s = false →
  complete_handler sid w = (Ret r, w') →
  isError r = false ∧
  sessions w' = sessions w ∧
  heap w' !! l
  = Some {| sessionId := sessionId s; pluginId := pluginId s;
            configSchema := configSchema s; mutations := mutations s;
            collectedValues := collectedValues s; completed := true;
            createdAt := createdAt s |} ∧
  (∀ l', l' ≠ l → heap w' !! l' = heap w !! l').
Proof.
  intros Hat Hc Hrun. rewrite (complete_first w sid l s Hat Hc) in Hrun.
  destruct (fst (ctx_events_emit _ _ _)) as [[] | err]; [| done].
  injection Hrun as <- <-. cbn [sessions heap]. destruct Hat as [_ Hl].
  repeat split; try done.
  - by rewrite lookup_alter_eq, Hl.
  - intros l' Hne. by rewrite lookup_alter_ne.
Qed.

(* =================================================================== *)
(** ** Saving a value *)
(* =================================================================== *)

Lemma saveConfig_absent w sid key value :
  sessions w !! sid = None →
  saveConfig_handler sid key value w
  = (Ret (textResult (no_session_message sid) true), w).
Proof. intros Hs. unfold saveConfig_handler, bind, getSession. by rewrite Hs. Qed.

(** The handler on a session that is there: the validator, then the
    [try] block. *)
Lemma saveConfig_run w sid l s key value :
  session_at w sid l s →
  saveConfig_handler sid key value w
  = match validate_field (fields (configSchema s)) key value with
    | Throw err => (Throw err, w)
    | Ret (Some r) => (Ret r, w)
    | Ret None => persist_value l key value w
    end.
Proof.
  intros Hat. unfold saveConfig_handler, bind, lift_exc.
  rewrite (getSession_at _ _ _ _ Hat), (deref_at _ _ _ _ Hat).
  by destruct (validate_field _ _ _) as [[r |] | err].
Qed.

(** In a schema whose names are unique, the field found under the name
    of a declared field is that field. *)
Lemma find_field_declared (fs : list ConfigField) f :
  NoDup (map name fs) → f ∈ fs → find_field (name f) fs = Some f.
Proof.
  induction fs as [| g fs IH]; [by intros _ ?%elem_of_nil |].
  intros [Hg Hnd]%NoDup_cons [-> | Hin]%elem_of_cons; unfold find_field; cbn.
  - by rewrite String.eqb_refl.
  - destruct (String.eqb_spec (name g) (name f)) as [Heq |]; [| by apply IH].
    destruct Hg. rewrite Heq. apply list_elem_of_In, in_map, list_elem_of_In, Hin.
Qed.

Lemma required_message_contains key : contains "required" (required_message key).
Proof.
  exists ("Field " +:+ dquote +:+ key +:+ dquote +:+ " is "),
    " and cannot be empty.".
  unfold required_message. by rewrite !append_assoc.
Qed.

(** C7. Saving [null], [undefined] or the empty string under a key whose
    field is required returns an error that says "required" and changes
    nothing: no mutation is recorded. *)
Theorem saveConfig_required w sid l s key field value :
  session_at w sid l s →
  find_field key (fields (configSchema s)) = Some field →
  required field = Some true →
  value = VNull ∨ value = VUndefined ∨ value = VString EmptyString →
  ∃ r, saveConfig_handler sid key value w = (Ret r, w) ∧
       isError r = true ∧ contains "required" (result_text r).
Proof.
  intros Hat Hf Hreq Hv. rewrite (saveConfig_run w sid l s key value Hat).
  unfold validate_field. rewrite Hf, Hreq.
  assert (is_empty_value value = true) as -> by by destruct Hv as [-> | [-> | ->]].
  eexists. split; [done |]. split; [done |]. apply required_message_contains.
Qed.

(** The pattern check on a field whose pattern is well formed. *)
Lemma check_pattern_run field key value p regex :
  pattern field = Some p →
  RegExp_new p = Ret regex →
  check_pattern field key value
  = match value with
    | VString sv =>
        if regex sv then Ret None
        else Ret (Some (textResult
                          (default (pattern_message key p) (patternError field))
                          true))
    | _ => Ret None
    end.
Proof.
  intros Hp Hre. unfold check_pattern. rewrite Hp.
  destruct p as [| a p]; cbv zeta; cbn [truthy_string default from_option id].
  - destruct value as [| | | | sv |]; try done.
    by rewrite (RegExp_empty regex sv Hre).
  - rewrite Hre. destruct value as [| | | | sv |]; try done.
    by destruct (regex sv).
Qed.

Lemma pattern_message_contains key p : contains p (pattern_message key p).
Proof.
  exists ("Value for " +:+ dquote +:+ key +:+ dquote +:+
          " does not match pattern: "), EmptyString.
  unfold pattern_message. by rewrite !append_assoc, append_empty_r.
Qed.

(** C8, as the code has it.  Take a field with a pattern that is a
    well-formed regular expression, and a value that the required check
    lets through (the check on a required field comes first).  A string
    that does not match is rejected, nothing is changed, and the message
    is the [patternError] of the field when it has one, else the generic
    message, which ends with the pattern.  A value that is not a string
    passes the validator, and the handler goes on to save it. *)
Theorem saveConfig_pattern w sid l s key field p regex value :
  session_at w sid l s →
  find_field key (fields (configSchema s)) = Some field →
  pattern field = Some p →
  RegExp_new p = Ret regex →
  truthy_bool (required field) && is_empty_value value = false →
  (∀ sv, value = VString sv → regex sv = false →
     ∃ r, saveConfig_handler sid key value w = (Ret r, w) ∧
          isError r = true ∧
          (∀ msg, patternError field = Some msg → result_text r = msg) ∧
          (patternError field = None →
           result_text r = pattern_message key p ∧ contains p (result_text r))) ∧
  ((∀ sv, value ≠ VString sv) →
     validate_field (fields (configSchema s)) key value = Ret None ∧
     saveConfig_handler sid key value w = persist_value l key value w).
Proof.
  intros Hat Hf Hp Hre Hreq.
  assert (validate_field (fields (configSchema s)) key value
          = check_pattern field key value) as Hval.
  { unfold validate_field. by rewrite Hf, Hreq. }
  rewrite (saveConfig_run w sid l s key value Hat), Hval,
    (check_pattern_run field key value p regex Hp Hre).
  split.
  - intros sv -> Hno. rewrite Hno. eexists. split; [done |].
    split; [done |]. split.
    + by intros msg ->.
    + intros ->. split; [done |]. apply pattern_message_contains.
  - intros Hns. destruct value as [| | | | sv |]; try done.
    by destruct (Hns sv).
Qed.

(* =================================================================== *)
(** ** Installing a dependency *)
(* =================================================================== *)

(** Only [null] has no properties to read. *)
Lemma body_property_returns body k k' v :
  body_property body k = Ret v → ∃ v', body_property body k' = Ret v'.
Proof. destruct body; cbn; eauto; discriminate. Qed.

Lemma body_property_throws body k k' err :
  body_property body k = Throw err → ∃ err', body_property body k' = Throw err'.
Proof. destruct body; cbn; eauto; discriminate. Qed.

(** What the handler does on a session that is there, by the outcome of
    the call: the outside is what the one request left, and the session
    object has the mutation or is as before. *)
Lemma installDependency_run w sid l pid :
  sessions w !! sid = Some l →
  let out := fetch (plugins_request "install" pid) (outside w) in
  ∃ r,
    installDependency_handler sid pid w
    = (Ret r,
       {| sessions := sessions w;
          heap := if install_succeeded (fst out)
                  then alter (push_mutation (M_installDependency pid)) l (heap w)
                  else heap w;
          outside := snd out;
          trace := trace w ++ [EFetch (plugins_request "install" pid) (fst out)] |}) ∧
    isError r = negb (install_succeeded (fst out)) ∧
    (install_succeeded (fst out) = true →
     r = textResult ("Successfully installed " +:+ pid) false) ∧
    (∀ err, fst out = Throw err →
     r = textResult ("Failed to install " +:+ pid +:+ ": " +:+ err) true) ∧
    (∀ resp err, fst out = Ret resp → json resp = Throw err →
     r = textResult ("Failed to install " +:+ pid +:+ ": " +:+ err) true) ∧
    (∀ resp body err, fst out = Ret resp → json resp = Ret body →
     body_property body (if ok resp then "success" else "error") = Throw err →
     r = textResult ("Failed to install " +:+ pid +:+ ": " +:+ err) true) ∧
    (∀ resp body error, fst out = Ret resp → json resp = Ret body →
     body_property body "error" = Ret error →
     install_succeeded (fst out) = false →
     r = textResult ("Failed to install " +:+ pid +:+ ": " +:+
                     nullish_or ("HTTP " +:+ pretty (status resp)) error) true).
Proof.
  intros Hs out. subst out.
  unfold installDependency_handler, bind, getSession.
  rewrite Hs. unfold try_catch, call_fetch, lift_exc.
  unfold install_succeeded, reported_success.
  destruct (fetch _ (outside w)) as [[resp | err] o1]; cbn [fst snd];
    [| eexists; split; [reflexivity |]; repeat split; try done; congruence].
  destruct (json resp) as [body | err] eqn:Hjson;
    [| rewrite Tauto.if_same; eexists; split; [reflexivity |];
       repeat split; try done; congruence].
  destruct (ok resp) eqn:Hok; cbn [negb].
  - destruct (body_property body "success") as [success | err] eqn:Hsuccess.
    + cbn [ret]. destruct (truthy_json success) eqn:Htruthy; cbn [negb].
      * eexists. split; [reflexivity |].
        repeat split; try done; intros; simplify_eq; rewrite ?Hok in *; congruence.
      * destruct (body_property_returns body "success" "error" success Hsuccess)
          as [error Herr].
        rewrite Herr. eexists. split; [reflexivity |].
        repeat split; try done; intros; simplify_eq; rewrite ?Hok in *; congruence.
    + destruct (body_property_throws body "success" "error" err Hsuccess) as [err' Herr'].
      eexists. split; [reflexivity |].
      repeat split; try done; intros; simplify_eq; rewrite ?Hok in *; congruence.
  - destruct (body_property body "error") as [error | err] eqn:Herr;
      (eexists; split; [reflexivity |];
       repeat split; try done; intros; simplify_eq; rewrite ?Hok in *; congruence).
Qed.

(** C10, as the code has it.  On a session that is there,
    [installDependency] returns a result.  The handler tests the truth
    value of [body.success], not whether it is [true].  When the call gave
    an [ok] response whose body has a truthy [success] ([true], but also a
    number that is not zero, a string that is not empty, an object), the
    result is a success and the mutation is at the end of the ledger; in
    every other case (a throw, a response that is not [ok], a body that
    cannot be read, a body without [success] or with a falsy one) the
    result is an error and the session object is as before.  So the
    mutation is recorded exactly when the install went through in that
    sense, which is the case whenever the body has [success: true]. *)
Theorem installDependency_records_iff w sid l s pid :
  session_at w sid l s →
  let out := fetch (plugins_request "install" pid) (outside w) in
  let res := fst out in
  ∃ r w' s',
    installDependency_handler sid pid w = (Ret r, w') ∧
    outside w' = snd out ∧
    heap w' !! l = Some s' ∧
    (install_succeeded res = true →
     isError r = false ∧ s' = push_mutation (M_installDependency pid) s) ∧
    (install_succeeded res = false → isError r = true ∧ s' = s) ∧
    (mutations s' = mutations s ++ [M_installDependency pid]
     ↔ install_succeeded res = true) ∧
    (success_is_true res = true → install_succeeded res = true) ∧
    (install_succeeded res = true ↔
     ∃ resp body success,
       res = Ret resp ∧ ok resp = true ∧ json resp = Ret body ∧
       body_property body "success" = Ret success ∧ truthy_json success = true).
Proof.
  intros Hat out res.
  destruct Hat as [Hs Hl].
  destruct (installDependency_run w sid l pid Hs) as (r & Hrun & Herr & _).
  fold out in Hrun, Herr. fold res in Hrun, Herr.
  eexists r, _, _. split; [exact Hrun |]. cbn [outside heap].
  split; [done |].
  assert ((if install_succeeded res
           then alter (push_mutation (M_installDependency pid)) l (heap w)
           else heap w) !! l
          = Some (if install_succeeded res
                  then push_mutation (M_installDependency pid) s else s)) as Hheap.
  { destruct (install_succeeded res); [by rewrite lookup_alter_eq, Hl | done]. }
  split; [exact Hheap |]. rewrite Herr.
  split; [by intros -> |]. split; [by intros -> |]. split; [| split].
  - destruct (install_succeeded res); [done |]. split; [| done].
    intros Hms. apply (f_equal length) in Hms. rewrite length_app in Hms.
    simpl in Hms. lia.
  - unfold success_is_true, install_succeeded.
    by destruct (reported_success res) as [[| [] | | | |] |].
  - unfold install_succeeded, reported_success. split.
    + destruct res as [resp | err]; [| by cbn].
      destruct (ok resp) eqn:Hok; [| by cbn].
      destruct (json resp) as [body | err] eqn:Hjson; [| by cbn].
      destruct (body_property body "success") as [success | err] eqn:Hsuccess;
        [| by cbn].
      intros Ht. by exists resp, body, success.
    + intros (resp & body & success & -> & -> & -> & -> & Ht). exact Ht.
Qed.

(* =================================================================== *)
(** ** Completion and rollback, one after the other *)
(* =================================================================== *)

(** C4, as the code has it.  On a session that is there, a rollback
    returns and removes the session, after which both [complete] and a
    second [rollback] fail and change nothing.  On a session that is
    completed, a second [complete] fails and changes nothing, but
    [rollback] has no guard on the flag: it runs as on any session, it
    removes the session, and with an empty ledger it reports success. *)
Theorem terminal_operations w sid l s :
  session_at w sid l s →
  (∃ r1 w1,
     rollback_handler sid w = (Ret r1, w1) ∧
     complete_handler sid w1
     = (Ret (textResult (no_session_message sid) true), w1) ∧
     rollback_handler sid w1
     = (Ret (textResult (no_session_message sid) true), w1)) ∧
  (completed s = true →
     complete_handler sid w
     = (Ret (textResult "Setup already completed." true), w) ∧
     ∃ r2 w2,
       rollback_handler sid w = (Ret r2, w2) ∧
       sessions w2 !! sid = None ∧
       (mutations s = [] → isError r2 = false)).
Proof.
  intros Hat.
  destruct (rollback_handler_spec w sid l s Hat) as (es & errs & w1 & _ & _ & Hc & Hr).
  split.
  - eexists _, _. split; [exact Hr |].
    split; [apply complete_absent | apply rollback_absent];
      cbn [sessions]; apply lookup_delete_eq.
  - intros Hdone. split; [by eapply complete_already |].
    eexists _, _. split; [exact Hr |]. cbn [sessions].
    split; [apply lookup_delete_eq |].
    intros Hms. rewrite Hms in Hc. by inversion Hc.
Qed.

(* =================================================================== *)
(** ** Saving and rolling back on a host that keeps a configuration *)
(* =================================================================== *)

(** What an assignment does to the own properties of the object: it
    touches no other key, and it sets the key unless the key is
    [__proto__]; the host is not involved. *)
Lemma assign_content c key value (o : Outside X) :
  (∀ k, k ≠ key → obj_content c (assign c key value o) !! k = obj_content c o !! k) ∧
  (key ≠ "__proto__" →
   obj_content c (assign c key value o) = <[key := value]> (obj_content c o)) ∧
  host (assign c key value o) = host o.
Proof.
  unfold assign, calls_proto_setter.
  destruct (String.eqb_spec key "__proto__") as [-> | Hne]; cbn [andb].
  - split; [| split]; [| done |].
    + intros k Hk. destruct (_ && _).
      * by destruct value.
      * unfold obj_content at 1, write_obj; cbn [objs].
        rewrite lookup_insert_eq. cbn [default from_option id].
        by rewrite lookup_insert_ne.
    + destruct (_ && _); [by destruct value | done].
  - split; [| split]; [| | done].
    + intros k Hk. unfold obj_content, write_obj; cbn [objs].
      rewrite lookup_insert_eq. cbn [default from_option id].
      by rewrite lookup_insert_ne.
    + intros _. unfold obj_content, write_obj; cbn [objs].
      by rewrite lookup_insert_eq.
Qed.

Lemma delete_key_content c key (o : Outside X) :
  obj_content c (delete_key c key o) = delete key (obj_content c o) ∧
  host (delete_key c key o) = host o.
Proof.
  unfold delete_key, obj_content at 1, write_obj; cbn [objs host].
  by rewrite lookup_insert_eq.
Qed.

Section ConfigStoreHost.
Context (current : Outside X → Config) (Hstore : config_store current).

(** Saving goes through.  It touches no other key of the configuration,
    and it puts the value in the configuration under the key, unless the
    key is [__proto__]. *)
Lemma persist_value_store w l key value :
  ∃ w',
    persist_value l key value w
    = (Ret (textResult ("Saved " +:+ dquote +:+ key +:+ dquote +:+
                        " successfully.") false), w') ∧
    (∀ k, k ≠ key → current (outside w') !! k = current (outside w) !! k) ∧
    (key ≠ "__proto__" →
     current (outside w') = <[key := value]> (current (outside w))) ∧
    sessions w' = sessions w ∧
    heap w'
    = alter (λ s, set_collectedValues (map_set key value (collectedValues s)) s) l
        (alter (push_mutation (M_saveConfig key value)) l (heap w)).
Proof.
  destruct (store_read_write current Hstore (outside w))
    as (c & o1 & Hget & Hcontent & Hsave).
  destruct (assign_content c key value o1) as (Hother & Hkey & Hhost).
  destruct (Hsave (assign c key value o1) Hhost) as (o2 & Hsave' & Hcur).
  unfold persist_value, try_catch, getConfig_or_empty, call_getConfig; unfold bind.
  rewrite Hget. unfold ret, obj_set, call_saveConfig.
  cbn [outside set_outside]. rewrite Hsave'.
  eexists. split; [reflexivity |].
  unfold update, set_heap, set_outside; cbn [outside sessions heap fst snd].
  rewrite Hcur, <- Hcontent. done.
Qed.

(** Undoing a mutation: the key of a saved value leaves the
    configuration (and that cannot fail); an uninstall does not touch
    the configuration. *)
Lemma compensate_store m errs w :
  ∃ errs' w',
    compensate m errs w = (Ret errs', w') ∧
    current (outside w') = undo_all [m] (current (outside w)) ∧
    ((∃ key v, m = M_saveConfig key v) → errs' = errs).
Proof.
  destruct m as [key v | pid].
  - destruct (store_read_write current Hstore (outside w))
      as (c & o1 & Hget & Hcontent & Hsave).
    destruct (delete_key_content c key o1) as [Hdel Hhost].
    destruct (Hsave (delete_key c key o1) Hhost) as (o2 & Hsave' & Hcur).
    unfold compensate, try_catch, getConfig_or_empty, call_getConfig; unfold bind.
    rewrite Hget. unfold ret, obj_delete, call_saveConfig.
    cbn [outside set_outside]. rewrite Hsave'.
    eexists _, _. split; [reflexivity |].
    unfold set_outside; cbn [outside]. by rewrite Hcur, Hdel, Hcontent.
  - pose proof (store_fetch current Hstore (plugins_request "uninstall" pid)
                  (outside w)) as Hf.
    unfold compensate, try_catch, call_fetch; unfold bind.
    destruct (fetch _ (outside w)) as [[res | err] o1]; cbn [snd] in Hf.
    + destruct (ok res); eexists _, _; (split; [reflexivity |]);
        (split; [exact Hf | by intros (? & ? & ?)]).
    + eexists _, _. split; [reflexivity |].
      split; [exact Hf | by intros (? & ? & ?)].
Qed.

Lemma undo_all_cons m ms (c : Config) :
  undo_all (m :: ms) c = undo_all ms (undo_all [m] c).
Proof. reflexivity. Qed.

Lemma rollback_loop_store ms errs w :
  ∃ errs' w',
    rollback_loop ms errs w = (Ret errs', w') ∧
    current (outside w') = undo_all ms (current (outside w)) ∧
    (Forall (λ m, ∃ key v, m = M_saveConfig key v) ms → errs' = errs).
Proof.
  revert errs w. induction ms as [| m ms IH]; intros errs w.
  - by exists errs, w.
  - destruct (compensate_store m errs w) as (errs1 & w1 & Hc & Hcur1 & He1).
    destruct (IH errs1 w1) as (errs2 & w2 & Hl & Hcur2 & He2).
    exists errs2, w2. cbn [rollback_loop]. unfold bind. rewrite Hc, Hl.
    split; [done |]. split.
    + by rewrite undo_all_cons, Hcur2, Hcur1.
    + intros [Hm Hms]%Forall_cons. by rewrite He2, He1.
Qed.

(** A key that is not in a configuration is not in it after more keys
    are deleted. *)
Lemma undo_all_absent ms (c : Config) key :
  c !! key = None → undo_all ms c !! key = None.
Proof.
  revert c. induction ms as [| m ms IH]; intros c Hc; [done |].
  rewrite undo_all_cons. apply IH. destruct m as [k v | pid]; [| done].
  cbn. by apply lookup_delete_None; right.
Qed.

End ConfigStoreHost.

(** C5, as the code has it.  On a host that keeps a configuration, a
    value that the validator accepts is saved: the key holds the value
    (unless the key is [__proto__], which an ordinary object does not
    store as a key), and no other key is touched.  The rollback that
    follows deletes the key (and the keys of the earlier mutations of
    the ledger); it restores no earlier value.  The key is absent
    afterwards.  With no earlier mutation in the ledger the rollback
    reports success, and the configuration is the one before the save
    when the key was not in it. *)
Theorem saveConfig_then_rollback (current : Outside X → Config) w sid l s key value :
  config_store current →
  session_at w sid l s →
  validate_field (fields (configSchema s)) key value = Ret None →
  ∃ r1 w1 r2 w2,
    saveConfig_handler sid key value w = (Ret r1, w1) ∧
    isError r1 = false ∧
    (key ≠ "__proto__" →
     current (outside w1) = <[key := value]> (current (outside w))) ∧
    (∀ k, k ≠ key → current (outside w1) !! k = current (outside w) !! k) ∧
    rollback_handler sid w1 = (Ret r2, w2) ∧
    current (outside w2)
    = undo_all (reverse (mutations s)) (delete key (current (outside w))) ∧
    current (outside w2) !! key = None ∧
    (mutations s = [] →
     isError r2 = false ∧
     (current (outside w) !! key = None →
      current (outside w2) = current (outside w))).
Proof.
  intros Hstore Hat Hval.
  destruct (persist_value_store current Hstore w l key value)
    as (w1 & Hsave & Hother & Hkey & Hs1 & Hh1).
  set (s1 := set_collectedValues (map_set key value (collectedValues s))
               (push_mutation (M_saveConfig key value) s)).
  assert (session_at w1 sid l s1) as Hat1.
  { destruct Hat as [Hs Hl]. split; [by rewrite Hs1 |].
    by rewrite Hh1, !lookup_alter_eq, Hl. }
  destruct (rollback_handler_spec w1 sid l s1 Hat1)
    as (es & errs & w2 & Hloop & _ & _ & Hr).
  destruct (rollback_loop_store current Hstore (reverse (mutations s1)) [] w1)
    as (errs' & w2' & Hloop' & Hcur2 & Herrs).
  rewrite Hloop in Hloop'. injection Hloop' as <- <-.
  assert (reverse (mutations s1) = M_saveConfig key value :: reverse (mutations s))
    as Hrev by apply reverse_snoc.
  assert (delete key (current (outside w1)) = delete key (current (outside w)))
    as Hdel.
  { apply map_eq. intros k. destruct (decide (k = key)) as [-> | Hk].
    - by rewrite !lookup_delete_eq.
    - rewrite !lookup_delete_ne by done. by apply Hother. }
  rewrite Hrev, undo_all_cons in Hcur2. cbn [undo_all foldl] in Hcur2.
  rewrite Hdel in Hcur2. fold (undo_all (reverse (mutations s))) in Hcur2.
  eexists _, w1, _, _. rewrite (saveConfig_run w sid l s key value Hat), Hval.
  split; [exact Hsave |]. split; [done |]. split; [exact Hkey |].
  split; [exact Hother |].
  split; [exact Hr |]. cbn [outside]. split; [exact Hcur2 |]. split.
  - rewrite Hcur2. apply undo_all_absent, lookup_delete_eq.
  - intros Hms. split.
    + rewrite Herrs; [done |]. rewrite Hrev, Hms. repeat constructor. eauto.
    + intros Hk. rewrite Hcur2, Hms. cbn. by apply delete_id.
Qed.

(* =================================================================== *)
(** ** Sequences of calls: at most one completion event per session *)
(* =================================================================== *)

Lemma completions_app sid t1 t2 :
  completions sid (t1 ++ t2) = (completions sid t1 + completions sid t2)%nat.
Proof. unfold completions. by rewrite List.filter_app, length_app. Qed.

Lemma evolves_refl w : evolves w w.
Proof.
  split; [done |]. intros l. destruct (heap w !! l); by constructor.
Qed.

Lemma evolves_trans w1 w2 w3 : evolves w1 w2 → evolves w2 w3 → evolves w1 w3.
Proof.
  intros [Hs1 Hh1] [Hs2 Hh2]. split; [by eauto |].
  intros l. specialize (Hh1 l). specialize (Hh2 l).
  destruct Hh1; inversion Hh2; subst; constructor; auto.
Qed.

(** A change of a session object that keeps a [completed] flag set. *)
Lemma evolves_alter w f l :
  (∀ s, completed s = true → completed (f s) = true) →
  evolves w (set_heap (alter f l) w).
Proof.
  intros Hf. split; [done |]. intros l'. cbn [heap set_heap].
  destruct (decide (l = l')) as [<- |].
  - rewrite lookup_alter_eq. destruct (heap w !! l); constructor; auto.
  - rewrite lookup_alter_ne by done. destruct (heap w !! l'); by constructor.
Qed.

Lemma evolves_delete w sid :
  evolves w (set_sessions (delete sid) w).
Proof.
  split.
  - intros sid' l. cbn [sessions set_sessions].
    by intros [_ ?]%lookup_delete_Some.
  - intros l. cbn. destruct (heap w !! l); by constructor.
Qed.

(** Only the sessions matter to [evolves]. *)
Lemma evolves_same w1 w2 w2' :
  sessions w2' = sessions w2 → heap w2' = heap w2 →
  evolves w1 w2 → evolves w1 w2'.
Proof. intros Hs Hh [H1 H2]. split; intros ?; rewrite ?Hs, ?Hh; auto. Qed.

Lemma wf_evolves w w' : evolves w w' → wf w → wf w'.
Proof.
  intros [Hs Hh] Hwf sid l Hl. destruct (Hwf sid l (Hs sid l Hl)) as [s Hsl].
  specialize (Hh l). rewrite Hsl in Hh. inversion Hh. eauto.
Qed.

Lemma active_evolves sid w w' :
  evolves w w' → (active sid w' ≤ active sid w)%nat.
Proof.
  intros [Hs Hh]. unfold active.
  destruct (sessions w' !! sid) as [l |] eqn:Hl; [| lia].
  rewrite (Hs sid l Hl). specialize (Hh l).
  destruct Hh as [s s' Hc |]; [| lia].
  destruct (completed s); [by rewrite Hc | destruct (completed s'); lia].
Qed.

Lemma potential_quiet sid w w' :
  quiet sid w w' → (potential sid w' ≤ potential sid w)%nat.
Proof.
  intros [Hev (es & Ht & Hes)]. unfold potential.
  rewrite Ht, completions_app, Hes. pose proof (active_evolves sid w w' Hev). lia.
Qed.

Lemma quiet_refl sid w : quiet sid w w.
Proof. split; [apply evolves_refl |]. exists []. by rewrite app_nil_r. Qed.

Lemma compensations_quiet sid ms es errs :
  compensations ms es errs → completions sid es = 0%nat.
Proof.
  induction 1 as [| m ms es errs es' errs' Hm _ IH]; [done |].
  rewrite completions_app, IH. by destruct Hm.
Qed.

(** A read of a session object that is not in the heap. *)
Lemma deref_stuck w l :
  heap w !! l = None → ∃ err, deref l w = (Throw err, w).
Proof. intros Hl. unfold deref. rewrite Hl. eauto. Qed.

Lemma rollback_quiet sid sid' w :
  quiet sid w (snd (rollback_handler sid' w)).
Proof.
  destruct (sessions w !! sid') as [l |] eqn:Hs;
    [| rewrite rollback_absent by done; apply quiet_refl].
  destruct (heap w !! l) as [s |] eqn:Hl.
  - destruct (rollback_handler_spec w sid' l s (conj Hs Hl))
      as (es & errs & w1 & _ & _ & Hc & ->). cbn [snd]. split.
    + eapply (evolves_same _ (set_sessions (delete sid')
               (set_heap (alter (set_collectedValues []) l)
                  (set_heap (alter (set_mutations []) l) w)))); [done | done |].
      eapply evolves_trans; [| apply evolves_delete].
      eapply evolves_trans; by apply evolves_alter.
    + exists es. split; [done |]. by eapply compensations_quiet.
  - unfold rollback_handler, bind, getSession, deref. rewrite Hs, Hl.
    apply quiet_refl.
Qed.

Lemma installDependency_quiet sid sid' pid w :
  quiet sid w (snd (installDependency_handler sid' pid w)).
Proof.
  destruct (sessions w !! sid') as [l |] eqn:Hs.
  - destruct (installDependency_run w sid' l pid Hs) as (r & -> & _).
    cbn [snd]. split; [| by eexists [_]].
    destruct (install_succeeded _).
    + eapply (evolves_same _ (set_heap (alter _ l) w)); [done | done |].
      by apply evolves_alter.
    + eapply evolves_same; [| | apply evolves_refl]; done.
  - unfold installDependency_handler, bind, getSession. rewrite Hs.
    apply quiet_refl.
Qed.

Lemma persist_value_quiet sid l key value w :
  quiet sid w (snd (persist_value l key value w)).
Proof.
  unfold persist_value, try_catch, getConfig_or_empty, call_getConfig; unfold bind.
  destruct (ctx_getConfig (outside w)) as [[o | err] o1].
  - set (w1 := set_outside o1 [EGetConfig (Ret o)] w).
    assert (∃ c w2, (match o with Some l => ret l | None => new_object end) w1
                    = (Ret c, w2) ∧ trace w2 = trace w ++ [EGetConfig (Ret o)] ∧
                    sessions w2 = sessions w ∧ heap w2 = heap w)
      as (c & w2 & -> & Ht & Hs & Hh).
    { destruct o as [c |].
      - by exists c, w1.
      - eexists _, _. unfold new_object. by repeat split. }
    unfold obj_set, call_saveConfig, ret, update. cbn [outside set_outside].
    destruct (ctx_saveConfig c _) as [[[] | err] o2]; cbn [snd]; split.
    + eapply (evolves_same _
               (set_heap (alter (λ s, set_collectedValues
                                        (map_set key value (collectedValues s)) s) l)
                  (set_heap (alter (push_mutation (M_saveConfig key value)) l) w)));
        [done | by cbn; rewrite Hh |].
      eapply evolves_trans; by apply evolves_alter.
    + eexists [_; _; _]. cbn [trace set_heap set_outside].
      by rewrite Ht, <- !app_assoc.
    + eapply evolves_same; [| | apply evolves_refl]; done.
    + eexists [_; _; _]. cbn [trace set_heap set_outside].
      by rewrite Ht, <- !app_assoc.
  - cbn [snd]. split; [| by eexists [_]].
    eapply evolves_same; [| | apply evolves_refl]; done.
Qed.

Lemma saveConfig_quiet sid sid' key value w :
  quiet sid w (snd (saveConfig_handler sid' key value w)).
Proof.
  destruct (sessions w !! sid') as [l |] eqn:Hs;
    [| rewrite saveConfig_absent by done; apply quiet_refl].
  destruct (heap w !! l) as [s |] eqn:Hl.
  - rewrite (saveConfig_run w sid' l s key value (conj Hs Hl)).
    destruct (validate_field _ _ _) as [[r |] | err]; try apply quiet_refl.
    apply persist_value_quiet.
  - unfold saveConfig_handler, bind, getSession, deref. rewrite Hs, Hl.
    apply quiet_refl.
Qed.

Lemma complete_potential sid sid' w :
  let w' := snd (complete_handler sid' w) in
  evolves w w' ∧ (potential sid w' ≤ potential sid w)%nat ∧
  ∃ es, trace w' = trace w ++ es.
Proof.
  intros w'. subst w'.
  assert (∀ w0 : World X, evolves w0 w0 ∧ (potential sid w0 ≤ potential sid w0)%nat ∧
               ∃ es, trace w0 = trace w0 ++ es) as Hsame.
  { intros w0. split; [apply evolves_refl |]. split; [lia |].
    exists []. by rewrite app_nil_r. }
  destruct (sessions w !! sid') as [l |] eqn:Hs;
    [| rewrite complete_absent by done; apply Hsame].
  destruct (heap w !! l) as [s |] eqn:Hl.
  - destruct (completed s) eqn:Hc.
    + rewrite (complete_already w sid' l s (conj Hs Hl) Hc). apply Hsame.
    + rewrite (complete_first w sid' l s (conj Hs Hl) Hc). cbn [snd].
      set (w' := Build_World _ _ _ _).
      assert (evolves w w') as Hev.
      { eapply (evolves_same _ (set_heap (alter (set_completed true) l) w));
          [done | done |]. by apply evolves_alter. }
      split; [exact Hev |]. split; [| by eexists].
      unfold potential. cbn [trace w']. rewrite completions_app.
      destruct (decide (sid' = sid)) as [-> | Hne].
      * assert (active sid w = 1%nat) as -> by (unfold active; by rewrite Hs, Hl, Hc).
        assert (active sid w' = 0%nat) as ->.
        { unfold active, w'; cbn [sessions heap].
          by rewrite Hs, lookup_alter_eq, Hl. }
        unfold completions; cbn. rewrite String.eqb_refl. cbn. lia.
      * pose proof (active_evolves sid w w' Hev).
        apply String.eqb_neq in Hne.
        unfold completions at 2; cbn. rewrite Hne. cbn. lia.
  - unfold complete_handler, bind, getSession, deref. rewrite Hs, Hl. apply Hsame.
Qed.

Lemma wf_createSession sid pid schema now w :
  wf w → wf (snd (createSession sid pid schema now w)).
Proof.
  intros Hwf x l0. unfold createSession.
  cbn [snd sessions heap set_sessions set_heap].
  destruct (decide (sid = x)) as [<- | Hx].
  - rewrite lookup_insert_eq. intros [= <-]. by rewrite lookup_insert_eq.
  - rewrite lookup_insert_ne by done. intros Hl0.
    destruct (Hwf x l0 Hl0) as [s0 Hs0]. rewrite lookup_insert. case_decide; eauto.
Qed.

(** A new session does not touch the sessions that are there. *)
Lemma createSession_potential sid sid' pid schema now w :
  wf w → sid' ≠ sid →
  let w' := snd (createSession sid' pid schema now w) in
  potential sid w' = potential sid w ∧ trace w' = trace w.
Proof.
  intros Hwf Hne w'. subst w'. unfold createSession; cbn [snd].
  set (l' := fresh (dom (heap w))).
  assert (heap w !! l' = None) as Hfresh
    by (apply not_elem_of_dom, is_fresh).
  split; [| done].
  unfold potential, active. cbn [sessions heap set_sessions set_heap trace].
  rewrite lookup_insert_ne by done. f_equal.
  destruct (sessions w !! sid) as [l0 |] eqn:Hl0; [| done].
  destruct (Hwf sid l0 Hl0) as [s0 Hs0].
  destruct (decide (l' = l0)) as [<- |]; [congruence |].
  by rewrite lookup_insert_ne.
Qed.

(** A call keeps the store well formed, only adds to the trace, and does
    not raise the potential of a session, unless it begins the session
    anew. *)
Lemma step_potential sid tc w :
  wf w →
  (is_beginSetup tc = true → call_session tc ≠ sid) →
  wf (step tc w) ∧ (potential sid (step tc w) ≤ potential sid w)%nat ∧
  ∃ es, trace (step tc w) = trace w ++ es.
Proof.
  intros Hwf Htc.
  assert (∀ w' : World X, quiet sid w w' →
            wf w' ∧ (potential sid w' ≤ potential sid w)%nat ∧
            ∃ es, trace w' = trace w ++ es) as Hquiet.
  { intros w' Hq. split; [by eapply wf_evolves, Hwf; apply Hq |].
    split; [by apply potential_quiet |].
    destruct Hq as [_ (es & Ht & _)]. eauto. }
  destruct tc as [pid schema sid' now | sid' pid | sid' key value | sid' | sid'];
    cbn [step].
  - destruct (createSession_potential sid sid' pid schema now w Hwf (Htc eq_refl))
      as (Hp & Ht).
    split; [by apply wf_createSession |]. split; [lia |].
    exists []. by rewrite app_nil_r.
  - apply Hquiet, installDependency_quiet.
  - apply Hquiet, saveConfig_quiet.
  - destruct (complete_potential sid sid' w) as (Hev & Hp & Ht).
    split; [by eapply wf_evolves |]. done.
  - apply Hquiet, rollback_quiet.
Qed.

Lemma run_potential sid tcs w :
  wf w →
  Forall (λ tc, is_beginSetup tc = true → call_session tc ≠ sid) tcs →
  wf (run tcs w) ∧ (potential sid (run tcs w) ≤ potential sid w)%nat ∧
  ∃ es, trace (run tcs w) = trace w ++ es.
Proof.
  intros Hwf Htcs. revert w Hwf.
  induction Htcs as [| tc tcs Htc _ IH]; intros w Hwf.
  - split; [done |]. split; [done |]. exists []. by rewrite app_nil_r.
  - destruct (step_potential sid tc w Hwf Htc) as (Hwf1 & Hp1 & es1 & Ht1).
    destruct (IH (step tc w) Hwf1) as (Hwf2 & Hp2 & es2 & Ht2).
    cbn [run foldl]. fold (run tcs (step tc w)).
    split; [done |]. split; [lia |].
    exists (es1 ++ es2). by rewrite Ht2, Ht1, app_assoc.
Qed.

Lemma active_le_1 sid w : (active sid w ≤ 1)%nat.
Proof.
  unfold active. destruct (sessions w !! sid) as [l |]; [| lia].
  destruct (heap w !! l) as [s |]; [| lia]. destruct (completed s); lia.
Qed.

(** Along any calls that do not begin session [sid] anew, at most one
    completion event is emitted for it. *)
Lemma one_completion_per_run sid tcs w :
  wf w →
  Forall (λ tc, is_beginSetup tc = true → call_session tc ≠ sid) tcs →
  (completions sid (trace (run tcs w)) ≤ completions sid (trace w) + 1)%nat.
Proof.
  intros Hwf Htcs.
  destruct (run_potential sid tcs w Hwf Htcs) as (_ & Hp & _).
  unfold potential in Hp. pose proof (active_le_1 sid w). lia.
Qed.

(** The store is well formed when it is empty, and stays so along the
    calls. *)
Lemma wf_empty w : sessions w = ∅ → wf w.
Proof. intros He sid l. by rewrite He, lookup_empty. Qed.

Lemma wf_step tc w : wf w → wf (step tc w).
Proof.
  intros Hwf.
  destruct tc as [pid schema sid' now | sid' pid | sid' key value | sid' | sid'];
    cbn [step].
  - by apply wf_createSession.
  - eapply wf_evolves, Hwf. apply (installDependency_quiet sid').
  - eapply wf_evolves, Hwf. apply (saveConfig_quiet sid').
  - eapply wf_evolves, Hwf. apply (complete_potential sid').
  - eapply wf_evolves, Hwf. apply (rollback_quiet sid').
Qed.

Lemma wf_run tcs w : wf w → wf (run tcs w).
Proof.
  revert w. induction tcs as [| tc tcs IH]; intros w Hwf; [done |].
  cbn [run foldl]. fold (run tcs (step tc w)). by apply IH, wf_step.
Qed.

(** C6. [complete] on a session that is already completed returns the
    error result and changes nothing (the trace is as before: no event).
    And once a session is completed, no sequence of calls of the tools
    emits a completion event for it again (short of beginning the
    session anew); over any such calls a session gets at most one. *)
Theorem complete_at_most_once w sid l s tcs :
  wf w →
  session_at w sid l s → completed s = true →
  Forall (λ tc, is_beginSetup tc = true → call_session tc ≠ sid) tcs →
  (∃ r, complete_handler sid w = (Ret r, w) ∧ isError r = true ∧
        result_text r = "Setup already completed.") ∧
  completions sid (trace (run tcs w)) = completions sid (trace w) ∧
  (∀ w0 : World X, wf w0 →
     (completions sid (trace (run tcs w0)) ≤ completions sid (trace w0) + 1)%nat).
Proof.
  intros Hwf Hat Hdone Htcs. split; [| split].
  - eexists. split; [by eapply complete_already |]. done.
  - destruct (run_potential sid tcs w Hwf Htcs) as (_ & Hp & es & Ht).
    assert (active sid w = 0%nat) as Ha.
    { destruct Hat as [Hs Hl]. unfold active. by rewrite Hs, Hl, Hdone. }
    unfold potential in Hp. rewrite Ha in Hp.
    rewrite Ht, completions_app in *. lia.
  - intros w0 Hwf0. by apply one_completion_per_run.
Qed.

End Theory.

(* ===================================================================== *)
(** ** The host of the tests *)
(* ===================================================================== *)

(** The host of the tests keeps a configuration: the content of the object
    in [savedConfig]. *)
Lemma test_config_store :
  config_store (λ o : Outside TestState, obj_content (savedConfig (host o)) o).
Proof.
  split.
  - intros o. exists (savedConfig (host o)), o. split; [done |]. split; [done |].
    intros o' _. eexists. split; [reflexivity |]. done.
  - intros req o. cbn [fetch TestGlobals]. unfold mockFetch.
    by destruct (fetchQueue (host o)).
Qed.

(* ===================================================================== *)
(** ** The properties at work on the scenarios of the tests *)
(* ===================================================================== *)

(** The ledger [save a; install p1; save b]: the rollback undoes [b], then
    [p1], then [a]. *)
Lemma rollback_reverse_order_witness :
  ∃ r w' es errs,
    rollback_handler "s1" w_three = (Ret r, w') ∧
    trace w' = trace w_three ++ es ∧
    attempts (reverse (mutations s_three)) (outside w_three) es errs (outside w').
Proof.
  apply (rollback_reverse_order w_three "s1" 1%positive s_three).
  split; reflexivity.
Defined.

(** What that rollback does outside, call by call, and what it leaves:
    the queued answer is used up and the two keys are gone. *)
Example rollback_three_trace :
  let w' := snd (rollback_handler "s1" w_three) in
  trace w'
  = [EGetConfig (Ret (Some 1%positive)); EDeleteKey 1%positive "b";
     ESaveConfig 1%positive (Ret tt);
     EFetch (plugins_request "uninstall" "p1") (Ret (response 200));
     EGetConfig (Ret (Some 1%positive)); EDeleteKey 1%positive "a";
     ESaveConfig 1%positive (Ret tt)] ∧
  fetchQueue (host (outside w')) = [] ∧
  test_config w' = ∅.
Proof. vm_compute. repeat split. Qed.

(** The uninstall is attempted first and is refused; the key is deleted
    all the same. *)
Lemma rollback_best_effort_witness :
  ∃ w' es errs,
    rollback_handler "s5" w_refused = (Ret (rollback_result errs), w') ∧
    trace w' = trace w_refused ++ es ∧
    attempts (reverse (mutations s_refused)) (outside w_refused) es errs (outside w') ∧
    (∀ before m after,
       reverse (mutations s_refused) = before ++ m :: after →
       ∃ es1 errs1 o1 es2 errs2 o2 es3 errs3,
         attempts before (outside w_refused) es1 errs1 o1 ∧
         attempt m o1 es2 errs2 o2 ∧
         attempts after o2 es3 errs3 (outside w') ∧
         es = es1 ++ es2 ++ es3 ∧ errs = errs1 ++ errs2 ++ errs3) ∧
    (errs = [] →
     rollback_result errs
     = textResult "Rollback complete. All changes undone." false) ∧
    (errs ≠ [] →
     isError (rollback_result errs) = true ∧
     result_text (rollback_result errs)
     = "Rollback completed with errors:" +:+ newline +:+ join newline errs ∧
     ∀ e, e ∈ errs → contains e (result_text (rollback_result errs))).
Proof.
  apply (rollback_best_effort w_refused "s5" 1%positive s_refused).
  split; reflexivity.
Defined.

(** Its result, its calls, the configuration and the store afterwards:
    the uninstall failed, and the key was deleted after that. *)
Example rollback_refused_run :
  let '(r, w') := rollback_handler "s5" w_refused in
  r = Ret (textResult ("Rollback completed with errors:" +:+ newline +:+
                       "Failed to uninstall p1: HTTP 500") true) ∧
  trace w'
  = [EFetch (plugins_request "uninstall" "p1") (Ret (response 500));
     EGetConfig (Ret (Some 1%positive)); EDeleteKey 1%positive "a";
     ESaveConfig 1%positive (Ret tt)] ∧
  fetchQueue (host (outside w')) = [] ∧
  test_config w_refused = {[ "a" := VString "1" ]} ∧
  test_config w' = ∅ ∧
  sessions w' !! "s5" = None.
Proof. vm_compute. repeat split. Qed.

(** The test "reports errors but continues rolling back", where the
    uninstall comes last. *)
Example rollback_failing_run :
  let '(r, w') := rollback_handler "s3" w_failing in
  r = Ret (textResult ("Rollback completed with errors:" +:+ newline +:+
                       "Failed to uninstall p1: HTTP 500") true) ∧
  trace w'
  = [EGetConfig (Ret (Some 1%positive)); EDeleteKey 1%positive "a";
     ESaveConfig 1%positive (Ret tt);
     EFetch (plugins_request "uninstall" "p1") (Ret (response 500))] ∧
  test_config w' = ∅ ∧
  sessions w' !! "s3" = None.
Proof. vm_compute. repeat split. Qed.

(** The session of that test is gone after the rollback that failed. *)
Lemma rollback_deletes_session_witness :
  ∃ r w',
    rollback_handler "s3" w_failing = (Ret r, w') ∧
    getSession "s3" w' = (Ret None, w') ∧
    ∀ l s, session_at w_failing "s3" l s →
      heap w' !! l
      = Some {| sessionId := sessionId s; pluginId := pluginId s;
                configSchema := configSchema s; mutations := [];
                collectedValues := []; completed := completed s;
                createdAt := createdAt s |}.
Proof.
  apply (rollback_deletes_session w_failing "s3").
  intros x l Hl. cbn in Hl. apply lookup_singleton_Some in Hl as [_ <-].
  cbn. rewrite lookup_singleton_eq. eauto.
Defined.

(** A completed session with an empty ledger. *)
Lemma terminal_operations_witness :
  (∃ r1 w1,
     rollback_handler "s2" (w_empty true) = (Ret r1, w1) ∧
     complete_handler "s2" w1
     = (Ret (textResult (no_session_message "s2") true), w1) ∧
     rollback_handler "s2" w1
     = (Ret (textResult (no_session_message "s2") true), w1)) ∧
  (completed (session_of "s2" [] [] true) = true →
     complete_handler "s2" (w_empty true)
     = (Ret (textResult "Setup already completed." true), w_empty true) ∧
     ∃ r2 w2,
       rollback_handler "s2" (w_empty true) = (Ret r2, w2) ∧
       sessions w2 !! "s2" = None ∧
       (mutations (session_of "s2" [] [] true) = [] → isError r2 = false)).
Proof.
  apply (terminal_operations (w_empty true) "s2" 1%positive
           (session_of "s2" [] [] true)).
  split; reflexivity.
Defined.

(** C4 fails on the code: a session is completed, and the rollback that
    comes second does not fail; it reports success and removes the
    session. *)
Lemma rollback_after_complete_succeeds :
  let w0 := w_empty false in
  let w1 := snd (complete_handler "s2" w0) in
  let w2 := snd (rollback_handler "s2" w1) in
  fst (complete_handler "s2" w0)
  = Ret (textResult "Setup complete for p. Plugin is now active." false) ∧
  session_at w1 "s2" 1%positive (session_of "s2" [] [] true) ∧
  fst (rollback_handler "s2" w1)
  = Ret (textResult "Rollback complete. All changes undone." false) ∧
  sessions w2 !! "s2" = None ∧
  w2 ≠ w1.
Proof.
  repeat split; try reflexivity.
  intros Heq. apply (f_equal (λ w, sessions w !! "s2")) in Heq. discriminate Heq.
Qed.

(** Saving the token of the first test, then rolling back. *)
Lemma saveConfig_then_rollback_witness :
  let w := w_field token_field ∅ in
  ∃ r1 w1 r2 w2,
    saveConfig_handler "s4" "token" (VString "sk-123") w = (Ret r1, w1) ∧
    isError r1 = false ∧
    ("token" ≠ "__proto__" →
     test_config w1 = <[ "token" := VString "sk-123" ]> (test_config w)) ∧
    (∀ k, k ≠ "token" → test_config w1 !! k = test_config w !! k) ∧
    rollback_handler "s4" w1 = (Ret r2, w2) ∧
    test_config w2
    = undo_all (reverse (mutations (session_of "s4" [token_field] [] false)))
        (delete "token" (test_config w)) ∧
    test_config w2 !! "token" = None ∧
    (mutations (session_of "s4" [token_field] [] false) = [] →
     isError r2 = false ∧
     (test_config w !! "token" = None → test_config w2 = test_config w)).
Proof.
  apply (saveConfig_then_rollback
           (λ o : Outside TestState, obj_content (savedConfig (host o)) o)
           (w_field token_field ∅) "s4" 1%positive
           (session_of "s4" [token_field] [] false) "token" (VString "sk-123")).
  - exact test_config_store.
  - split; reflexivity.
  - reflexivity.
Defined.

(** C5 fails on the code when the key had a value before the save: the
    value is accepted and saved, the rollback reports success, and the
    configuration is left without the key, not with the value it had. *)
Lemma rollback_does_not_restore :
  let w := w_field token_field {[ "token" := VString "old" ]} in
  let w1 := snd (saveConfig_handler "s4" "token" (VString "new") w) in
  let w2 := snd (rollback_handler "s4" w1) in
  validate_field [token_field] "token" (VString "new") = Ret None ∧
  fst (saveConfig_handler "s4" "token" (VString "new") w)
  = Ret (textResult ("Saved " +:+ dquote +:+ "token" +:+ dquote +:+ " successfully.")
           false) ∧
  fst (rollback_handler "s4" w1)
  = Ret (textResult "Rollback complete. All changes undone." false) ∧
  test_config w !! "token" = Some (VString "old") ∧
  test_config w2 !! "token" = None ∧
  test_config w2 ≠ test_config w.
Proof.
  repeat split; try reflexivity.
  intros Heq. apply (f_equal (λ c : Config, c !! "token")) in Heq.
  discriminate Heq.
Qed.

(** The key [__proto__] on the host of the tests, whose configuration
    object is an ordinary one.  A string saved under it is reported as
    saved and recorded in the ledger, and the configuration holds no such
    key.  An object saved under it becomes the prototype of the
    configuration object; the rollback reports success and leaves that
    prototype in place. *)
Example saveConfig_proto_key :
  let w := w_field proto_field {[ "a" := VString "1" ]} in
  let '(r1, w1) := saveConfig_handler "s4" "__proto__" (VString "x") w in
  let '(r2, w2) := saveConfig_handler "s4" "__proto__" (VObject 7%positive) w in
  let '(r3, w3) := rollback_handler "s4" w2 in
  r1 = Ret (textResult ("Saved " +:+ dquote +:+ "__proto__" +:+ dquote +:+
                        " successfully.") false) ∧
  mutations <$> heap w1 !! 1%positive = Some [M_saveConfig "__proto__" (VString "x")] ∧
  test_config w1 = {[ "a" := VString "1" ]} ∧
  obj_proto 1%positive (outside w1) = ObjectPrototype ∧
  r2 = r1 ∧
  test_config w2 = {[ "a" := VString "1" ]} ∧
  obj_proto 1%positive (outside w2) = ValuePrototype 7%positive ∧
  r3 = Ret (textResult "Rollback complete. All changes undone." false) ∧
  test_config w3 = {[ "a" := VString "1" ]} ∧
  obj_proto 1%positive (outside w3) = ValuePrototype 7%positive.
Proof. vm_compute. repeat split. Qed.

(** Once [null] is the prototype, the object inherits no setter, and
    [__proto__] is a key like the others. *)
Example saveConfig_proto_key_after_null :
  let w := w_field proto_field ∅ in
  let w1 := snd (saveConfig_handler "s4" "__proto__" VNull w) in
  let w2 := snd (saveConfig_handler "s4" "__proto__" (VString "x") w1) in
  let w3 := snd (rollback_handler "s4" w2) in
  test_config w1 = ∅ ∧
  obj_proto 1%positive (outside w1) = NullPrototype ∧
  test_config w2 = {[ "__proto__" := VString "x" ]} ∧
  test_config w3 = ∅ ∧
  obj_proto 1%positive (outside w3) = NullPrototype.
Proof. vm_compute. repeat split. Qed.

(** The test "errors if already completed", and calls that follow it. *)
Lemma complete_at_most_once_witness :
  let tcs := [C_complete "s2"; C_saveConfig "s2" "k" (VString "v");
              C_beginSetup "q" {| title := "T"; fields := [] |} "other" 1;
              C_complete "other"; C_rollback "s2"; C_complete "s2"] in
  (∃ r, complete_handler "s2" (w_empty true) = (Ret r, w_empty true) ∧
        isError r = true ∧ result_text r = "Setup already completed.") ∧
  completions "s2" (trace (run tcs (w_empty true)))
  = completions "s2" (trace (w_empty true)) ∧
  (∀ w0 : World TestState, wf w0 →
     (completions "s2" (trace (run tcs w0)) ≤ completions "s2" (trace w0) + 1)%nat).
Proof.
  apply (complete_at_most_once (w_empty true) "s2" 1%positive
           (session_of "s2" [] [] true)).
  - intros x l Hl. cbn in Hl. apply lookup_singleton_Some in Hl as [_ <-].
    cbn. rewrite lookup_singleton_eq. eauto.
  - split; reflexivity.
  - reflexivity.
  - repeat constructor; cbn; intros; discriminate.
Defined.

(** The completion of the fresh session of the tests emits its event
    once, whatever is called afterwards. *)
Example complete_once_run :
  let tcs := [C_complete "s2"; C_complete "s2"; C_rollback "s2"; C_complete "s2"] in
  completions "s2" (trace (run tcs (w_empty false))) = 1%nat ∧
  emitted (host (outside (run tcs (w_empty false))))
  = [("setup:complete",
      {| ev_pluginId := "p"; ev_sessionId := "s2"; ev_configKeys := [] |})].
Proof. split; reflexivity. Qed.

(** The test "rejects empty required field". *)
Lemma saveConfig_required_witness :
  ∃ r, saveConfig_handler "s4" "token" (VString EmptyString) (w_field token_field ∅)
       = (Ret r, w_field token_field ∅) ∧
       isError r = true ∧ contains "required" (result_text r).
Proof.
  apply (saveConfig_required (w_field token_field ∅) "s4" 1%positive
           (session_of "s4" [token_field] [] false) "token" token_field
           (VString EmptyString)).
  - split; reflexivity.
  - reflexivity.
  - reflexivity.
  - right; right; reflexivity.
Defined.

(** The test "validates pattern if present", with a pattern of plain
    characters. *)
Lemma saveConfig_pattern_witness :
  let w := w_field (id_field None) ∅ in
  let s := session_of "s4" [id_field None] [] false in
  (∀ sv, VString "xyz" = VString sv → includes "abc" sv = false →
     ∃ r, saveConfig_handler "s4" "id" (VString "xyz") w = (Ret r, w) ∧
          isError r = true ∧
          (∀ msg, patternError (id_field None) = Some msg → result_text r = msg) ∧
          (patternError (id_field None) = None →
           result_text r = pattern_message "id" "abc" ∧
           contains "abc" (result_text r))) ∧
  ((∀ sv, VString "xyz" ≠ VString sv) →
     validate_field (fields (configSchema s)) "id" (VString "xyz") = Ret None ∧
     saveConfig_handler "s4" "id" (VString "xyz") w
     = persist_value 1%positive "id" (VString "xyz") w).
Proof.
  apply (saveConfig_pattern (w_field (id_field None) ∅) "s4" 1%positive
           (session_of "s4" [id_field None] [] false) "id" (id_field None)
           "abc" (includes "abc") (VString "xyz")).
  - split; reflexivity.
  - reflexivity.
  - reflexivity.
  - reflexivity.
  - reflexivity.
Defined.

(** A string that does not match is rejected with the message of the
    field; a number is saved. *)
Example saveConfig_pattern_run :
  fst (saveConfig_handler "s4" "id" (VString "xyz") (w_field (id_field None) ∅))
  = Ret (textResult "Must contain abc" true) ∧
  fst (saveConfig_handler "s4" "id" (VNumber 42) (w_field (id_field None) ∅))
  = Ret (textResult ("Saved " +:+ dquote +:+ "id" +:+ dquote +:+ " successfully.")
           false).
Proof. split; reflexivity. Qed.

(** A pattern that is not well formed: the handler throws, whatever the
    type of the value. *)
Example saveConfig_ill_formed_pattern :
  let f := text_field "id" None (Some "(") None in
  saveConfig_handler "s4" "id" (VNumber 42) (w_field f ∅)
  = (Throw "SyntaxError: Invalid regular expression: /(/: Unterminated group",
     w_field f ∅).
Proof. reflexivity. Qed.

(** C8 fails on the code for a required field and the empty string: the
    value is a string that does not match the pattern, the field has a
    [patternError], and the message returned is the one of the required
    check, which comes first. *)
Lemma required_check_precedes_pattern :
  let f := id_field (Some true) in
  let w := w_field f ∅ in
  pattern f = Some "abc" ∧
  patternError f = Some "Must contain abc" ∧
  (∃ regex, RegExp_new (X := TestState) "abc" = Ret regex ∧
            regex EmptyString = false) ∧
  saveConfig_handler "s4" "id" (VString EmptyString) w
  = (Ret (textResult (required_message "id") true), w) ∧
  required_message "id" ≠ "Must contain abc".
Proof.
  repeat split; try reflexivity.
  - by exists (includes "abc").
  - discriminate.
Qed.

(** The test "marks session complete and emits event". *)
Lemma complete_frame_witness :
  let s := session_of "s2" [] [] false in
  let w' := snd (complete_handler "s2" (w_empty false)) in
  isError (textResult "Setup complete for p. Plugin is now active." false) = false ∧
  sessions w' = sessions (w_empty false) ∧
  heap w' !! 1%positive
  = Some {| sessionId := sessionId s; pluginId := pluginId s;
            configSchema := configSchema s; mutations := mutations s;
            collectedValues := collectedValues s; completed := true;
            createdAt := createdAt s |} ∧
  (∀ l', l' ≠ 1%positive → heap w' !! l' = heap (w_empty false) !! l').
Proof.
  apply (complete_frame (w_empty false) "s2" 1%positive
           (session_of "s2" [] [] false)
           (textResult "Setup complete for p. Plugin is now active." false)
           (snd (complete_handler "s2" (w_empty false)))).
  - split; reflexivity.
  - reflexivity.
  - reflexivity.
Defined.

(** An answer 200 whose body has no [success]: a failure, and no
    mutation. *)
Lemma installDependency_records_iff_witness :
  let answer := Ret (json_response 200 body_empty) in
  let w := w_install answer in
  let s := session_of "s1" [] [] false in
  let out := fetch (plugins_request "install" "voice") (outside w) in
  let res := fst out in
  ∃ r w' s',
    installDependency_handler "s1" "voice" w = (Ret r, w') ∧
    outside w' = snd out ∧
    heap w' !! 1%positive = Some s' ∧
    (install_succeeded res = true →
     isError r = false ∧ s' = push_mutation (M_installDependency "voice") s) ∧
    (install_succeeded res = false → isError r = true ∧ s' = s) ∧
    (mutations s' = mutations s ++ [M_installDependency "voice"]
     ↔ install_succeeded res = true) ∧
    (success_is_true res = true → install_succeeded res = true) ∧
    (install_succeeded res = true ↔
     ∃ resp body success,
       res = Ret resp ∧ ok resp = true ∧ json resp = Ret body ∧
       body_property body "success" = Ret success ∧ truthy_json success = true).
Proof.
  apply (installDependency_records_iff
           (w_install (Ret (json_response 200 body_empty)))
           "s1" 1%positive (session_of "s1" [] [] false) "voice").
  split; reflexivity.
Defined.

(** C10 fails on the code for a body whose [success] is truthy and not
    [true]: the answer 200 with [{ success: "false" }] has no
    [success: true], and the handler reports a success and records the
    mutation. *)
Lemma truthy_success_is_recorded :
  let answer := Ret (json_response 200 (JObject [("success", JString "false")])) in
  let w := w_install answer in
  let res := fst (fetch (plugins_request "install" "voice") (outside w)) in
  let '(r, w') := installDependency_handler "s1" "voice" w in
  res = answer ∧
  success_is_true res = false ∧
  r = Ret (textResult "Successfully installed voice" false) ∧
  mutations <$> heap w' !! 1%positive = Some [M_installDependency "voice"] ∧
  mutations <$> heap w !! 1%positive = Some [].
Proof. vm_compute. repeat split. Qed.

(** The results of the handler and the ledger afterwards, for some
    answers of the platform: bodies with and without [success], with a
    number for it, with [null] for a body, and a call that throws. *)
Example installDependency_runs :
  let run_install answer :=
    let '(r, w') := installDependency_handler "s1" "voice" (w_install answer) in
    (r, mutations <$> heap w' !! 1%positive) in
  run_install (Ret (json_response 200 body_success))
  = (Ret (textResult "Successfully installed voice" false),
     Some [M_installDependency "voice"]) ∧
  run_install (Ret (json_response 200 body_empty))
  = (Ret (textResult "Failed to install voice: HTTP 200" true), Some []) ∧
  run_install (Ret (json_response 500 body_boom))
  = (Ret (textResult "Failed to install voice: boom" true), Some []) ∧
  run_install (Ret (json_response 500 body_success))
  = (Ret (textResult "Failed to install voice: HTTP 500" true), Some []) ∧
  run_install (Ret (json_response 200 (JObject [("success", JNumber false "1")])))
  = (Ret (textResult "Successfully installed voice" false),
     Some [M_installDependency "voice"]) ∧
  run_install (Ret (json_response 200
                      (JObject [("success", JNumber true "0");
                                ("error", JArray [JString "a"; JNull; JBool true])])))
  = (Ret (textResult "Failed to install voice: a,,true" true), Some []) ∧
  run_install (Ret (json_response 200 JNull))
  = (Ret (textResult
            "Failed to install voice: TypeError: Cannot read properties of null (reading 'success')"
            true), Some []) ∧
  run_install (Ret (json_response 500 JNull))
  = (Ret (textResult
            "Failed to install voice: TypeError: Cannot read properties of null (reading 'error')"
            true), Some []) ∧
  run_install (Throw "TypeError: fetch failed")
  = (Ret (textResult "Failed to install voice: TypeError: fetch failed" true),
     Some []).
Proof. repeat split. Qed.

(* ===================================================================== *)
(** ** The session store *)
(* ===================================================================== *)

Section Coverage.
Context {X : Type} `{!WOPRPluginContext X} `{!Globals X} `{!Runtime X}.
Implicit Types (w : World X) (s : SetupSession) (l : loc).

(** X1. [createSession] returns a new session object, which [getSession]
    then returns under the id: it has the given ids and schema, an empty
    ledger, no collected value, and is active.  An entry with the same id
    is replaced; the other entries and every session object that was there
    are untouched. *)
Theorem createSession_getSession w sid pid schema now :
  ∃ l w',
    createSession sid pid schema now w = (Ret l, w') ∧
    heap w !! l = None ∧
    getSession sid w' = (Ret (Some l), w') ∧
    heap w' !! l
    = Some {| sessionId := sid; pluginId := pid; configSchema := schema;
              mutations := []; collectedValues := []; completed := false;
              createdAt := now |} ∧
    isSetupActive sid w' = (Ret true, w') ∧
    (∀ sid', sid' ≠ sid → sessions w' !! sid' = sessions w !! sid') ∧
    (∀ l' s, heap w !! l' = Some s → heap w' !! l' = Some s) ∧
    outside w' = outside w ∧ trace w' = trace w.
Proof.
  assert (heap w !! fresh (dom (heap w)) = None) as Hfresh
    by (apply not_elem_of_dom, is_fresh).
  eexists _, _. split; [reflexivity |]. split; [done |].
  unfold getSession, isSetupActive. cbn [sessions heap set_sessions set_heap].
  rewrite !lookup_insert_eq. repeat split; try done.
  - intros sid' Hne. by rewrite lookup_insert_ne.
  - intros l' s Hl'. rewrite lookup_insert_ne; [done |].
    intros Heq. rewrite <- Heq, Hfresh in Hl'. discriminate Hl'.
Qed.

(** X2. [deleteSession] tells whether the session was there; afterwards
    it is not, and a second deletion tells [false].  The other entries
    and the session objects are untouched. *)
Theorem deleteSession_removes w sid :
  ∃ w',
    deleteSession sid w = (Ret (bool_decide (is_Some (sessions w !! sid))), w') ∧
    getSession sid w' = (Ret None, w') ∧
    deleteSession sid w' = (Ret false, w') ∧
    (∀ sid', sid' ≠ sid → sessions w' !! sid' = sessions w !! sid') ∧
    heap w' = heap w ∧ outside w' = outside w ∧ trace w' = trace w.
Proof.
  eexists. split; [reflexivity |].
  unfold getSession, deleteSession. cbn [sessions heap set_sessions].
  rewrite !lookup_delete_eq. repeat split; try done.
  - unfold set_sessions; cbn [sessions heap outside trace].
    rewrite delete_delete_eq, bool_decide_eq_false_2; [done |]. by intros [? ?].
  - intros sid' Hne. by rewrite lookup_delete_ne.
Qed.

(** X3. [isSetupActive] along the life of a session: it is [true] for a
    session that is there and not completed; after [complete] it is
    [false], even when the emission of the event threw; after [rollback]
    it is [false]. *)
Theorem isSetupActive_lifecycle w sid l s :
  session_at w sid l s → completed s = false →
  isSetupActive sid w = (Ret true, w) ∧
  (let w1 := snd (complete_handler sid w) in
   isSetupActive sid w1 = (Ret false, w1)) ∧
  (let w2 := snd (rollback_handler sid w) in
   isSetupActive sid w2 = (Ret false, w2)).
Proof.
  intros Hat Hc. pose proof Hat as [Hs Hl]. split; [| split].
  - unfold isSetupActive. by rewrite Hs, Hl, Hc.
  - rewrite (complete_first w sid l s Hat Hc). cbn [snd].
    unfold isSetupActive. cbn [sessions heap].
    by rewrite Hs, lookup_alter_eq, Hl.
  - destruct (rollback_handler_spec w sid l s Hat) as (es & errs & w1 & _ & _ & _ & ->).
    cbn [snd]. unfold isSetupActive. cbn [sessions]. by rewrite lookup_delete_eq.
Qed.

(** *** No session *)

Lemma ask_absent w sid field :
  sessions w !! sid = None →
  ask_handler sid field w = (Ret (textResult (no_session_message sid) true), w).
Proof. intros Hs. unfold ask_handler, bind, getSession. by rewrite Hs. Qed.

Lemma installDependency_absent w sid pid :
  sessions w !! sid = None →
  installDependency_handler sid pid w
  = (Ret (textResult (no_session_message sid) true), w).
Proof. intros Hs. unfold installDependency_handler, bind, getSession. by rewrite Hs. Qed.

(** X4. Each of the five tools that take a session id, called with an id
    that is not in the store, returns the error "No active setup
    session: id" and does nothing: the world, trace included, is the
    same (no call to the host or to the network). *)
Theorem no_session_no_effect w sid :
  sessions w !! sid = None →
  let r := Ret (textResult ("No active setup session: " +:+ sid) true) in
  (∀ field, ask_handler sid field w = (r, w)) ∧
  (∀ pid, installDependency_handler sid pid w = (r, w)) ∧
  (∀ key value, saveConfig_handler sid key value w = (r, w)) ∧
  complete_handler sid w = (r, w) ∧
  rollback_handler sid w = (r, w).
Proof.
  intros Hs r. repeat split; intros.
  - by apply ask_absent.
  - by apply installDependency_absent.
  - by apply saveConfig_absent.
  - by apply complete_absent.
  - by apply rollback_absent.
Qed.

(** X5. [clearAllSessions] empties the store: afterwards no id has a
    session.  [shutdown] calls [unregisterExtension("setup")] first when
    the host has that method and [init] has run, and the outside is what
    that call has left; when the call throws, the shutdown throws what it
    threw and the store is left as it was; when it returns, and when there
    is nothing to call, the shutdown returns with the store empty.  The
    session objects are not touched. *)
Theorem shutdown_clears w initialised :
  (∀ sid, getSession sid (snd (clearAllSessions w)) = (Ret None, snd (clearAllSessions w))) ∧
  ∃ res w',
    shutdown initialised w = (res, w') ∧ heap w' = heap w ∧ trace w' = trace w ∧
    match (if initialised then ctx_unregisterExtension else None) with
    | Some unregister =>
        let out := unregister "setup" (outside w) in
        outside w' = snd out ∧
        match fst out with
        | Ret _ => res = Ret tt ∧ sessions w' = ∅
        | Throw err => res = Throw err ∧ sessions w' = sessions w
        end
    | None => outside w' = outside w ∧ res = Ret tt ∧ sessions w' = ∅
    end.
Proof.
  split; [done |].
  unfold shutdown, bind, clearAllSessions, call_outside.
  destruct initialised; [| by eexists _, _].
  destruct ctx_unregisterExtension as [unregister |]; [| by eexists _, _].
  destruct (unregister "setup" (outside w)) as [[[] | err] o] eqn:Hu;
    eexists _, _; (split; [reflexivity |]); by repeat split.
Qed.

(* ===================================================================== *)
(** ** Saving a value: the other paths *)
(* ===================================================================== *)

Lemma find_field_None key (fs : list ConfigField) :
  key ∉ map name fs → find_field key fs = None.
Proof.
  induction fs as [| f fs IH]; [done |].
  intros Hnot. unfold find_field; cbn.
  destruct (String.eqb_spec (name f) key) as [Heq | Hne].
  - destruct Hnot. rewrite <- Heq. cbn. apply elem_of_cons. by left.
  - apply IH. intros Hin. apply Hnot. cbn. apply elem_of_cons. by right.
Qed.

Lemma unknown_field_message_contains key (fs : list ConfigField) :
  contains key (unknown_field_message key fs) ∧
  ∀ f, f ∈ fs → contains (name f) (unknown_field_message key fs).
Proof.
  unfold unknown_field_message. split.
  - apply contains_append_l, contains_append_r, contains_refl.
  - intros f Hf. do 3 apply contains_append_l. apply contains_join.
    apply list_elem_of_In, in_map, list_elem_of_In, Hf.
Qed.

(** X6. Saving under a key that is the name of no field of the schema is
    refused and changes nothing; the message names the key and every
    field of the schema. *)
Theorem saveConfig_unknown_field w sid l s key value :
  session_at w sid l s →
  key ∉ map name (fields (configSchema s)) →
  ∃ r,
    saveConfig_handler sid key value w = (Ret r, w) ∧
    isError r = true ∧
    result_text r
    = "Unknown config field: " +:+ key +:+ ". Valid fields: " +:+
      join ", " (map name (fields (configSchema s))) ∧
    contains key (result_text r) ∧
    ∀ f, f ∈ fields (configSchema s) → contains (name f) (result_text r).
Proof.
  intros Hat Hkey. rewrite (saveConfig_run w sid l s key value Hat).
  unfold validate_field. rewrite (find_field_None key _ Hkey).
  eexists. split; [reflexivity |]. split; [done |]. split; [done |].
  apply unknown_field_message_contains.
Qed.

(** The [try] block of [saveConfig], path by path: it returns; either
    every call went through, and the session object has the mutation and
    the value; or a call threw, the result is the error with the text of
    what was thrown, and the session object is as before. *)
Lemma persist_value_cases w l key value :
  ∃ r w',
    persist_value l key value w = (Ret r, w') ∧ sessions w' = sessions w ∧
    ((isError r = false ∧
      heap w'
      = alter (λ s, set_collectedValues (map_set key value (collectedValues s)) s) l
          (alter (push_mutation (M_saveConfig key value)) l (heap w)) ∧
      ∃ o c, trace w' = trace w ++ [EGetConfig (Ret o); ESetKey c key value;
                                    ESaveConfig c (Ret tt)]) ∨
     (isError r = true ∧ heap w' = heap w ∧
      ∃ err, result_text r = save_failed_message key err ∧
        (trace w' = trace w ++ [EGetConfig (Throw err)] ∨
         ∃ o c, trace w' = trace w ++ [EGetConfig (Ret o); ESetKey c key value;
                                       ESaveConfig c (Throw err)]))).
Proof.
  unfold persist_value, try_catch, getConfig_or_empty, call_getConfig; unfold bind.
  destruct (ctx_getConfig (outside w)) as [[o | err] o1].
  - set (w1 := set_outside o1 [EGetConfig (Ret o)] w).
    assert (∃ c w2, (match o with Some l => ret l | None => new_object end) w1
                    = (Ret c, w2) ∧ trace w2 = trace w ++ [EGetConfig (Ret o)] ∧
                    sessions w2 = sessions w ∧ heap w2 = heap w)
      as (c & w2 & -> & Ht & Hs & Hh).
    { destruct o as [c |]; [by exists c, w1 |].
      eexists _, _. unfold new_object. by repeat split. }
    unfold obj_set, call_saveConfig, ret, update. cbn [outside set_outside].
    destruct (ctx_saveConfig c _) as [[[] | err] o2]; eexists _, _;
      (split; [reflexivity |]); cbn [sessions heap trace set_heap set_outside];
      (split; [done |]).
    + left. split; [done |]. rewrite Hh. split; [done |].
      exists o, c. by rewrite Ht, <- !app_assoc.
    + right. split; [done |]. split; [done |]. exists err. split; [done |].
      right. exists o, c. by rewrite Ht, <- !app_assoc.
  - eexists _, _. split; [reflexivity |]. split; [done |]. right.
    split; [done |]. split; [done |]. exists err. split; [done |]. by left.
Qed.


(** X8. Unless [saveConfig] reports success, it has changed no session
    and no session object, whatever the reason: no such session, a value
    refused by the validator, a host that threw, a pattern that threw. *)
Theorem saveConfig_failure_keeps_sessions w sid key value res w' :
  saveConfig_handler sid key value w = (res, w') →
  (∀ r, res = Ret r → isError r = true) →
  sessions w' = sessions w ∧ heap w' = heap w.
Proof.
  intros Hrun Hfail.
  destruct (sessions w !! sid) as [l |] eqn:Hs;
    [| rewrite saveConfig_absent in Hrun by done; by injection Hrun as _ <-].
  destruct (heap w !! l) as [s |] eqn:Hl.
  - rewrite (saveConfig_run w sid l s key value (conj Hs Hl)) in Hrun.
    destruct (validate_field _ _ _) as [[r0 |] | err].
    + by injection Hrun as _ <-.
    + destruct (persist_value_cases w l key value) as (r1 & w1 & Hp & Hs1 & Hcases).
      rewrite Hp in Hrun. injection Hrun as <- <-.
      destruct Hcases as [(Hok & _) | (_ & Hh & _)]; [| done].
      specialize (Hfail r1 eq_refl). congruence.
    + by injection Hrun as _ <-.
  - revert Hrun. unfold saveConfig_handler, bind, getSession, deref.
    rewrite Hs, Hl. by intros [= _ <-].
Qed.


(* ===================================================================== *)
(** ** Installing, completing, rolling back: what reaches the outside *)
(* ===================================================================== *)


(** X11. The completion of a session that is there and not completed makes
    exactly one call to the outside: the event ["setup:complete"] with the
    plugin id of the session, the session id, and the keys of the
    collected values in the order they were first saved.  The flag is set
    before the event is emitted: when the emission throws, the handler
    throws with it, the session is completed all the same, and a second
    [complete] gets "Setup already completed." and emits nothing. *)
Theorem complete_emits_once w sid l s :
  session_at w sid l s → completed s = false →
  let payload := {| ev_pluginId := pluginId s; ev_sessionId := sid;
                    ev_configKeys := map_keys (collectedValues s) |} in
  let out := fst (ctx_events_emit "setup:complete" payload (outside w)) in
  ∃ res w',
    complete_handler sid w = (res, w') ∧
    trace w' = trace w ++ [EEmit "setup:complete" payload out] ∧
    (∀ err, out = Throw err → res = Throw err) ∧
    (∀ u, out = Ret u →
       res = Ret (textResult ("Setup complete for " +:+ pluginId s +:+
                              ". Plugin is now active.") false)) ∧
    (∃ s', heap w' !! l = Some s' ∧ completed s' = true) ∧
    complete_handler sid w'
    = (Ret (textResult "Setup already completed." true), w').
Proof.
  intros Hat Hc payload out. pose proof Hat as [Hs Hl].
  pose proof (complete_first w sid l s Hat Hc) as Hrun. cbv zeta in Hrun.
  fold payload in Hrun. subst out.
  destruct (ctx_events_emit "setup:complete" payload (outside w)) as [r o].
  cbn [fst snd] in *.
  eexists _, _. split; [exact Hrun |]. cbn [trace]. split; [done |].
  split; [by intros err -> |]. split; [by intros u -> |].
  assert (session_at {| sessions := sessions w;
                        heap := alter (set_completed true) l (heap w);
                        outside := o;
                        trace := trace w ++ [EEmit "setup:complete" payload r] |}
            sid l (set_completed true s)) as Hat'.
  { split; cbn [sessions heap]; [done |]. by rewrite lookup_alter_eq, Hl. }
  split; [by exists (set_completed true s); split; [apply Hat' |] |].
  by apply (complete_already _ sid l (set_completed true s)).
Qed.

Lemma fetched_app es1 es2 : fetched (es1 ++ es2) = fetched es1 ++ fetched es2.
Proof. apply List.flat_map_app. Qed.

Lemma deleted_keys_app es1 es2 :
  deleted_keys (es1 ++ es2) = deleted_keys es1 ++ deleted_keys es2.
Proof. apply List.flat_map_app. Qed.

Lemma config_reads_app es1 es2 :
  config_reads (es1 ++ es2) = (config_reads es1 + config_reads es2)%nat.
Proof. unfold config_reads. by rewrite List.filter_app, length_app. Qed.

(** What the attempts on a list of mutations show in the trace. *)
Lemma compensations_show ms es errs :
  compensations ms es errs →
  fetched es = plugins_request "uninstall" <$> installed ms ∧
  config_reads es = length (saved_keys ms) ∧
  deleted_keys es `sublist_of` saved_keys ms ∧
  Forall (λ e, sets_or_emits e = false) es ∧
  (errs = [] → deleted_keys es = saved_keys ms ∧
               Forall (λ e, ∀ req r, e = EFetch req r → ∃ resp, r = Ret resp ∧ ok resp = true) es).
Proof.
  induction 1 as [| m ms es errs es' errs' Hm _ IH]; [by repeat split |].
  destruct IH as (IHf & IHr & IHd & IHn & IHok).
  rewrite fetched_app, config_reads_app, deleted_keys_app, IHf, IHr.
  assert (saved_keys (m :: ms) = saved_keys [m] ++ saved_keys ms) as ->
    by (destruct m; by cbn).
  assert (installed (m :: ms) = installed [m] ++ installed ms) as ->
    by (destruct m; by cbn).
  rewrite fmap_app, length_app.
  split; [| split; [| split; [| split]]].
  - f_equal. by destruct Hm.
  - f_equal. by destruct Hm.
  - apply sublist_app; [| done].
    destruct Hm; cbn; try done. apply sublist_nil_l.
  - apply Forall_app. split; [| done]. destruct Hm; by repeat constructor.
  - intros [-> ->]%app_eq_nil. destruct (IHok eq_refl) as [-> IHall].
    split.
    + f_equal. inversion Hm; by subst.
    + apply Forall_app. split; [| done].
      inversion Hm; subst; repeat constructor; try done.
      intros req r [= <- <-]. eauto.
Qed.

Lemma saved_keys_reverse ms : saved_keys (reverse ms) = reverse (saved_keys ms).
Proof.
  induction ms as [| m ms IH]; [done |].
  rewrite reverse_cons. unfold saved_keys in *.
  rewrite List.flat_map_app, IH.
  destruct m; cbn [flat_map app]; rewrite ?app_nil_r; [| done].
  by rewrite reverse_cons.
Qed.

Lemma installed_reverse ms : installed (reverse ms) = reverse (installed ms).
Proof.
  induction ms as [| m ms IH]; [done |].
  rewrite reverse_cons. unfold installed in *.
  rewrite List.flat_map_app, IH.
  destruct m; cbn [flat_map app]; rewrite ?app_nil_r; [done |].
  by rewrite reverse_cons.
Qed.

(** X12. A rollback undoes each mutation once and does nothing else to the
    outside.  Its calls are those of one attempt per mutation, made one
    after the other, the most recent mutation first; among them there is
    one uninstall request per installed plugin and no other request, one
    read of the configuration per saved key, and no deletion but of
    saved keys; no key is set and no event is emitted.  When the rollback
    reports success, every saved key was deleted, most recent first, and
    every uninstall was answered ok. *)
Theorem rollback_once_each w sid l s :
  session_at w sid l s →
  ∃ r w' es errs,
    rollback_handler sid w = (Ret r, w') ∧
    trace w' = trace w ++ es ∧
    attempts (reverse (mutations s)) (outside w) es errs (outside w') ∧
    fetched es = plugins_request "uninstall" <$> reverse (installed (mutations s)) ∧
    config_reads es = length (saved_keys (mutations s)) ∧
    deleted_keys es `sublist_of` reverse (saved_keys (mutations s)) ∧
    Forall (λ e, sets_or_emits e = false) es ∧
    (isError r = false →
     deleted_keys es = reverse (saved_keys (mutations s)) ∧
     Forall (λ e, ∀ req res, e = EFetch req res →
                    ∃ resp, res = Ret resp ∧ ok resp = true) es).
Proof.
  intros Hat.
  destruct (rollback_handler_attempts w sid l s Hat) as (es & errs & o' & Hatt & Hr).
  destruct (compensations_show _ _ _ (attempts_compensations _ _ _ _ _ Hatt))
    as (Hf & Hg & Hd & Hn & Hok).
  rewrite saved_keys_reverse in Hg, Hd, Hok. rewrite installed_reverse in Hf.
  rewrite length_reverse in Hg.
  eexists _, _, es, errs. split; [exact Hr |]. cbn [trace outside].
  repeat split; try done; destruct errs; try done; by apply Hok.
Qed.

(* ===================================================================== *)
(** ** What any sequence of calls keeps *)
(* ===================================================================== *)

Lemma alter_twice (f g : SetupSession → SetupSession) l (h : gmap loc SetupSession) :
  alter f l (alter g l h) = alter (λ s, f (g s)) l h.
Proof.
  apply map_eq. intros i. destruct (decide (l = i)) as [<- |].
  - rewrite !lookup_alter_eq. by destruct (h !! l).
  - by rewrite !lookup_alter_ne.
Qed.

Lemma installDependency_heap w sid pid :
  heap_altered w (snd (installDependency_handler sid pid w)) sid
    (push_mutation (M_installDependency pid)).
Proof.
  destruct (sessions w !! sid) as [l |] eqn:Hs.
  - destruct (installDependency_run w sid l pid Hs) as (r & -> & _). cbn [snd].
    destruct (install_succeeded _); [| by left].
    right. by exists l.
  - unfold installDependency_handler, bind, getSession. rewrite Hs. by left.
Qed.

Lemma saveConfig_heap w sid key value :
  heap_altered w (snd (saveConfig_handler sid key value w)) sid
    (saved_value key value).
Proof.
  destruct (sessions w !! sid) as [l |] eqn:Hs;
    [| rewrite saveConfig_absent by done; by left].
  destruct (heap w !! l) as [s |] eqn:Hl.
  - rewrite (saveConfig_run w sid l s key value (conj Hs Hl)).
    destruct (validate_field _ _ _) as [[r |] | err]; try by left.
    destruct (persist_value_cases w l key value) as (r1 & w1 & -> & _ & Hcases).
    cbn [snd]. destruct Hcases as [(_ & Hh & _) | (_ & Hh & _)]; [| by left].
    right. exists l. split; [done |]. by rewrite Hh, alter_twice.
  - unfold saveConfig_handler, bind, getSession, deref. rewrite Hs, Hl. by left.
Qed.

Lemma complete_heap w sid :
  heap_altered w (snd (complete_handler sid w)) sid (set_completed true).
Proof.
  destruct (sessions w !! sid) as [l |] eqn:Hs;
    [| rewrite complete_absent by done; by left].
  destruct (heap w !! l) as [s |] eqn:Hl.
  - destruct (completed s) eqn:Hc.
    + rewrite (complete_already w sid l s (conj Hs Hl) Hc). by left.
    + rewrite (complete_first w sid l s (conj Hs Hl) Hc). right. by exists l.
  - unfold complete_handler, bind, getSession, deref. rewrite Hs, Hl. by left.
Qed.

Lemma rollback_heap w sid :
  heap_altered w (snd (rollback_handler sid w)) sid cleared.
Proof.
  destruct (sessions w !! sid) as [l |] eqn:Hs;
    [| rewrite rollback_absent by done; by left].
  destruct (heap w !! l) as [s |] eqn:Hl.
  - destruct (rollback_handler_spec w sid l s (conj Hs Hl))
      as (es & errs & w1 & _ & _ & _ & ->).
    right. exists l. split; [done |]. cbn [snd heap]. by rewrite alter_twice.
  - unfold rollback_handler, bind, getSession, deref. rewrite Hs, Hl. by left.
Qed.

(** The three tools without a session of their own, and the queries,
    leave the store and the session objects alone. *)
Lemma provider_validator_sessions api req w :
  ∃ r w', provider_validator api req w = (Ret r, w') ∧
          sessions w' = sessions w ∧ heap w' = heap w.
Proof.
  unfold provider_validator, try_catch, call_fetch, call_text, call_outside;
    unfold bind.
  destruct (fetch req (outside w)) as [[resp | err] o1]; [| by eexists _, _].
  destruct (ok resp); [by eexists _, _ |]. cbn [outside set_outside].
  destruct (response_text resp o1) as [[body | err] o2]; by eexists _, _.
Qed.

Lemma validateKey_sessions provider key w :
  sessions (snd (validateKey provider key w)) = sessions w ∧
  heap (snd (validateKey provider key w)) = heap w.
Proof.
  assert (∀ api req, sessions (snd (provider_validator api req w)) = sessions w ∧
                     heap (snd (provider_validator api req w)) = heap w) as Hp.
  { intros api req.
    by destruct (provider_validator_sessions api req w) as (r & w' & -> & ? & ?). }
  unfold validateKey, validators.
  destruct (String.eqb provider "anthropic"); [apply Hp |].
  destruct (String.eqb provider "openai"); [apply Hp |].
  destruct (String.eqb provider "discord"); [apply Hp |].
  destruct (String.eqb provider "telegram"); [apply Hp |].
  destruct (Object_prototype provider) as [f |]; cbn [fmap option_fmap option_map];
    [| done].
  unfold call_outside. by destruct (f key (outside w)).
Qed.

Lemma installDependency_sessions w sid pid :
  sessions (snd (installDependency_handler sid pid w)) = sessions w.
Proof.
  destruct (sessions w !! sid) as [l |] eqn:Hs.
  - by destruct (installDependency_run w sid l pid Hs) as (r & -> & _).
  - unfold installDependency_handler, bind, getSession. by rewrite Hs.
Qed.

Lemma saveConfig_sessions w sid key value :
  sessions (snd (saveConfig_handler sid key value w)) = sessions w.
Proof.
  destruct (sessions w !! sid) as [l |] eqn:Hs;
    [| by rewrite saveConfig_absent].
  destruct (heap w !! l) as [s |] eqn:Hl.
  - rewrite (saveConfig_run w sid l s key value (conj Hs Hl)).
    destruct (validate_field _ _ _) as [[r |] | err]; try done.
    by destruct (persist_value_cases w l key value) as (r1 & w1 & -> & ? & _).
  - unfold saveConfig_handler, bind, getSession, deref. by rewrite Hs, Hl.
Qed.

Lemma complete_sessions w sid :
  sessions (snd (complete_handler sid w)) = sessions w.
Proof.
  destruct (sessions w !! sid) as [l |] eqn:Hs;
    [| by rewrite complete_absent].
  destruct (heap w !! l) as [s |] eqn:Hl.
  - destruct (completed s) eqn:Hc.
    + by rewrite (complete_already w sid l s (conj Hs Hl) Hc).
    + by rewrite (complete_first w sid l s (conj Hs Hl) Hc).
  - unfold complete_handler, bind, getSession, deref. by rewrite Hs, Hl.
Qed.

Lemma rollback_sessions w sid :
  sessions (snd (rollback_handler sid w)) = sessions w ∨
  sessions (snd (rollback_handler sid w)) = delete sid (sessions w).
Proof.
  destruct (sessions w !! sid) as [l |] eqn:Hs;
    [| left; by rewrite rollback_absent].
  destruct (heap w !! l) as [s |] eqn:Hl.
  - destruct (rollback_handler_spec w sid l s (conj Hs Hl))
      as (es & errs & w1 & _ & _ & _ & ->). by right.
  - left. unfold rollback_handler, bind, getSession, deref. by rewrite Hs, Hl.
Qed.

Lemma ask_sessions w sid field : snd (ask_handler sid field w) = w.
Proof. unfold ask_handler, bind, getSession. by destruct (sessions w !! sid). Qed.

Lemma validateKey_handler_sessions provider key w :
  sessions (snd (validateKey_handler provider key w)) = sessions w ∧
  heap (snd (validateKey_handler provider key w)) = heap w.
Proof.
  pose proof (validateKey_sessions provider key w) as Hv.
  unfold validateKey_handler, bind.
  destruct (validateKey provider key w) as [[r | err] w']; [| done].
  by destruct (valid r).
Qed.

Lemma testConnection_sessions service w :
  sessions (snd (testConnection_handler service w)) = sessions w ∧
  heap (snd (testConnection_handler service w)) = heap w.
Proof.
  unfold testConnection_handler, try_catch, call_fetch, call_text, call_outside;
    unfold bind.
  destruct (fetch _ (outside w)) as [[resp | err] o1]; [| done].
  destruct (ok resp); [done |]. cbn [outside set_outside].
  by destruct (response_text resp o1) as [[body | err] o2].
Qed.

Lemma shutdown_heap initialised w :
  heap (snd (shutdown initialised w)) = heap w ∧
  (sessions (snd (shutdown initialised w)) = sessions w ∨
   sessions (snd (shutdown initialised w)) = ∅).
Proof.
  unfold shutdown, bind, clearAllSessions, call_outside.
  destruct initialised; [| by split; [| right]].
  destruct ctx_unregisterExtension as [unregister |]; [| by split; [| right]].
  destruct (unregister "setup" (outside w)) as [[[] | err] o];
    (split; [done |]); [by right | by left].
Qed.

(** What a call does to a session object that is there: the object
    stays, changed at most as [obj_change] tells, and not at all unless
    the call is a tool called on the session of this object. *)
Lemma plugin_step_object pc w l s :
  heap w !! l = Some s →
  ∃ s', heap (plugin_step pc w) !! l = Some s' ∧ obj_change pc s s' ∧
        ((∀ tc, pc = P_tool tc → sessions w !! call_session tc ≠ Some l) → s' = s).
Proof.
  intros Hl.
  assert (∀ w' : World X, heap w' = heap w →
            ∃ s', heap w' !! l = Some s' ∧ obj_change pc s s' ∧
                  ((∀ tc, pc = P_tool tc → sessions w !! call_session tc ≠ Some l)
                   → s' = s)) as Hsame.
  { intros w' ->. exists s. split; [done |]. split; [constructor | done]. }
  assert (∀ (w' : World X) tc f, pc = P_tool tc →
            obj_change pc s (f s) →
            heap_altered w w' (call_session tc) f →
            ∃ s', heap w' !! l = Some s' ∧ obj_change pc s s' ∧
                  ((∀ tc, pc = P_tool tc → sessions w !! call_session tc ≠ Some l)
                   → s' = s)) as Halt.
  { intros w' tc f Hpc Hoc [Hh | (l0 & Hs0 & Hh)]; [by apply Hsame |].
    rewrite Hh. destruct (decide (l0 = l)) as [-> | Hne].
    - exists (f s). rewrite lookup_alter_eq, Hl. split; [done |]. split; [done |].
      intros Hnot. by destruct (Hnot tc Hpc).
    - exists s. rewrite lookup_alter_ne by done. split; [done |].
      split; [constructor | done]. }
  destruct pc as [tc | sid field | provider key | service | sid | sid | initialised];
    cbn [plugin_step].
  - destruct tc as [pid schema sid now | sid pid | sid key value | sid | sid];
      cbn [step].
    + exists s. unfold createSession; cbn [snd heap set_heap set_sessions].
      rewrite lookup_insert_ne; [by repeat split; try constructor |].
      intros Heq. pose proof (is_fresh (dom (heap w))) as Hf.
      rewrite Heq in Hf. apply Hf, elem_of_dom. eauto.
    + eapply Halt; [done | constructor | apply installDependency_heap].
    + eapply Halt; [done | constructor | apply saveConfig_heap].
    + eapply Halt; [done | constructor | apply complete_heap].
    + eapply Halt; [done | constructor | apply rollback_heap].
  - apply Hsame. by rewrite ask_sessions.
  - apply Hsame, validateKey_handler_sessions.
  - apply Hsame, testConnection_sessions.
  - by apply Hsame.
  - apply Hsame. unfold isSetupActive.
    destruct (sessions w !! sid) as [l0 |]; [| done]. by destruct (heap w !! l0).
  - apply Hsame, shutdown_heap.
Qed.

(** A session object appears only by [beginSetup], and then it is a
    session with an empty ledger, no collected value, not completed. *)
Lemma plugin_step_new pc w l s' :
  heap w !! l = None → heap (plugin_step pc w) !! l = Some s' →
  begins_session pc = true ∧
  mutations s' = [] ∧ collectedValues s' = [] ∧ completed s' = false.
Proof.
  intros Hl.
  assert (∀ (w' : World X) tc f,
            heap_altered w w' (call_session tc) f → heap w' !! l = None) as Halt.
  { intros w' tc f [-> | (l0 & _ & ->)]; [done |].
    destruct (decide (l0 = l)) as [-> |];
      [by rewrite lookup_alter_eq, Hl | by rewrite lookup_alter_ne]. }
  destruct pc as [tc | sid field | provider key | service | sid | sid | initialised];
    cbn [plugin_step begins_session].
  - destruct tc as [pid schema sid now | sid pid | sid key value | sid | sid];
      cbn [step is_beginSetup].
    + unfold createSession; cbn [snd heap set_heap set_sessions].
      intros [[_ <-] | [_ Hl']]%lookup_insert_Some; [done | congruence].
    + by rewrite (Halt _ (C_installDependency sid pid) _ (installDependency_heap w sid pid)).
    + by rewrite (Halt _ (C_saveConfig sid key value) _ (saveConfig_heap w sid key value)).
    + by rewrite (Halt _ (C_complete sid) _ (complete_heap w sid)).
    + by rewrite (Halt _ (C_rollback sid) _ (rollback_heap w sid)).
  - rewrite ask_sessions. congruence.
  - destruct (validateKey_handler_sessions provider key w) as [_ ->]. congruence.
  - destruct (testConnection_sessions service w) as [_ ->]. congruence.
  - cbn. congruence.
  - assert (snd (isSetupActive sid w) = w) as ->; [| congruence].
    unfold isSetupActive.
    destruct (sessions w !! sid) as [l0 |]; [| done]. by destruct (heap w !! l0).
  - destruct (shutdown_heap initialised w) as [-> _]. congruence.
Qed.

(** No call but [beginSetup] puts a session in the store. *)
Lemma plugin_step_sessions pc w sid l :
  begins_session pc = false →
  sessions (plugin_step pc w) !! sid = Some l → sessions w !! sid = Some l.
Proof.
  destruct pc as [tc | sid' field | provider key | service | sid' | sid' | initialised];
    cbn [plugin_step begins_session].
  - destruct tc as [pid schema sid' now | sid' pid | sid' key value | sid' | sid'];
      cbn [step is_beginSetup]; intros Hb; try done.
    + by rewrite installDependency_sessions.
    + by rewrite saveConfig_sessions.
    + by rewrite complete_sessions.
    + destruct (rollback_sessions w sid') as [-> | ->]; [done |].
      by intros [_ ?]%lookup_delete_Some.
  - by rewrite ask_sessions.
  - by destruct (validateKey_handler_sessions provider key w) as [-> _].
  - by destruct (testConnection_sessions service w) as [-> _].
  - done.
  - assert (snd (isSetupActive sid' w) = w) as ->; [| done].
    unfold isSetupActive.
    destruct (sessions w !! sid') as [l0 |]; [| done]. by destruct (heap w !! l0).
  - destruct (shutdown_heap initialised w) as [_ [-> | ->]]; [done |].
    by rewrite lookup_empty.
Qed.

(** *** The map of the collected values and the ledger *)

Lemma map_get_set k key value (m : ValueMap) :
  map_get k (map_set key value m)
  = if String.eqb key k then Some value else map_get k m.
Proof.
  induction m as [| [k' v'] m IH]; cbn.
  - by destruct (String.eqb key k).
  - destruct (String.eqb_spec k' key) as [-> | Hne]; cbn.
    + by destruct (String.eqb key k).
    + rewrite IH. destruct (String.eqb_spec k' k) as [-> | Hne']; [| done].
      by apply not_eq_sym, String.eqb_neq in Hne as ->.
Qed.

Lemma map_keys_set k key value (m : ValueMap) :
  k ∈ map_keys (map_set key value m) ↔ k = key ∨ k ∈ map_keys m.
Proof.
  unfold map_keys. induction m as [| [k' v'] m IH]; cbn.
  - rewrite list_elem_of_singleton, elem_of_nil. tauto.
  - destruct (String.eqb_spec k' key) as [-> | Hne]; cbn;
      rewrite !elem_of_cons; [tauto |]. rewrite IH. tauto.
Qed.

Lemma map_keys_set_NoDup key value (m : ValueMap) :
  NoDup (map_keys m) → NoDup (map_keys (map_set key value m)).
Proof.
  unfold map_keys. induction m as [| [k' v'] m IH]; cbn.
  - intros _. apply NoDup_singleton.
  - intros [Hk Hm]%NoDup_cons.
    destruct (String.eqb_spec k' key) as [-> | Hne]; cbn; apply NoDup_cons.
    + done.
    + split; [| by apply IH].
      intros [? | ?]%(map_keys_set k' key value m); [done | by apply Hk].
Qed.

Lemma last_saved_snoc k ms m :
  last_saved k (ms ++ [m])
  = match m with
    | M_saveConfig k' v => if String.eqb k' k then Some v else last_saved k ms
    | M_installDependency _ => last_saved k ms
    end.
Proof. unfold last_saved. by rewrite foldl_app. Qed.

(** *** What the changes of a session object keep *)

Lemma obj_change_identity pc s s' : obj_change pc s s' → same_identity s s'.
Proof. by destruct 1. Qed.

Lemma obj_change_completed pc s s' :
  obj_change pc s s' → completed s = true → completed s' = true.
Proof. by destruct 1. Qed.

Lemma obj_change_prefix pc s s' :
  obj_change pc s s' → is_rollback pc = false →
  mutations s `prefix_of` mutations s'.
Proof.
  destruct 1; try done; intros _; cbn; by apply prefix_app_r.
Qed.

Lemma obj_change_agrees pc s s' : obj_change pc s s' → agrees s → agrees s'.
Proof.
  destruct 1 as [| sid pid s | sid key value s | |]; try done; intros [Hnd Hag].
  - split; [done |]. intros k. unfold push_mutation.
    cbn [mutations collectedValues set_mutations]. by rewrite last_saved_snoc.
  - unfold saved_value, push_mutation.
    split; cbn [mutations collectedValues set_mutations set_collectedValues].
    + by apply map_keys_set_NoDup.
    + intros k. rewrite map_get_set, last_saved_snoc, Hag.
      by destruct (String.eqb key k).
  - split; cbn; [apply NoDup_nil_2 | done].
Qed.

Lemma same_identity_trans s1 s2 s3 :
  same_identity s1 s2 → same_identity s2 s3 → same_identity s1 s3.
Proof. intros (? & ? & ? & ?) (? & ? & ? & ?). repeat split; congruence. Qed.

(** X13. Whatever is called, in whatever order, a session object stays in
    place and keeps its session id, its plugin id, its schema and its
    creation time; and once it is completed it stays completed. *)
Theorem session_identity_kept pcs w l s :
  heap w !! l = Some s →
  ∃ s',
    heap (plugin_run pcs w) !! l = Some s' ∧
    sessionId s' = sessionId s ∧ pluginId s' = pluginId s ∧
    configSchema s' = configSchema s ∧ createdAt s' = createdAt s ∧
    (completed s = true → completed s' = true).
Proof.
  revert w s. induction pcs as [| pc pcs IH]; intros w s Hl.
  - by exists s.
  - destruct (plugin_step_object pc w l s Hl) as (s1 & Hl1 & Hoc & _).
    destruct (IH (plugin_step pc w) s1 Hl1) as (s2 & Hl2 & H1 & H2 & H3 & H4 & Hc).
    destruct (obj_change_identity _ _ _ Hoc) as (? & ? & ? & ?).
    exists s2. split; [exact Hl2 |]. repeat split; try congruence.
    intros Hdone. by apply Hc, (obj_change_completed _ _ _ Hoc).
Qed.

(** X14. The ledger only grows at its end, except by a rollback: along
    any calls with no rollback among them, the ledger a session had is a
    prefix of the ledger it has afterwards. *)
Theorem ledger_append_only pcs w l s :
  Forall (λ pc, is_rollback pc = false) pcs →
  heap w !! l = Some s →
  ∃ s', heap (plugin_run pcs w) !! l = Some s' ∧
        mutations s `prefix_of` mutations s'.
Proof.
  intros Hpcs. revert w s. induction Hpcs as [| pc pcs Hpc _ IH]; intros w s Hl.
  - by exists s.
  - destruct (plugin_step_object pc w l s Hl) as (s1 & Hl1 & Hoc & _).
    destruct (IH (plugin_step pc w) s1 Hl1) as (s2 & Hl2 & Hpre).
    exists s2. split; [exact Hl2 |].
    by etrans; [apply (obj_change_prefix _ _ _ Hoc Hpc) |].
Qed.

(** X15. The collected values agree with the ledger, and keep doing so
    whatever is called: in every session object the keys of the collected
    values are distinct, and each key holds the value saved last under it
    by the mutations of the ledger (a key that no mutation saved is not
    there). *)
Theorem collected_values_agree pcs w :
  (∀ l s, heap w !! l = Some s → agrees s) →
  ∀ l s, heap (plugin_run pcs w) !! l = Some s → agrees s.
Proof.
  revert w. induction pcs as [| pc pcs IH]; intros w Hw; [done |].
  cbn [plugin_run foldl]. apply IH. intros l s1 Hl1.
  destruct (heap w !! l) as [s |] eqn:Hl.
  - destruct (plugin_step_object pc w l s Hl) as (s1' & Hl1' & Hoc & _).
    rewrite Hl1 in Hl1'. injection Hl1' as <-.
    by eapply obj_change_agrees, Hw.
  - destruct (plugin_step_new pc w l s1 Hl Hl1) as (_ & Hm & Hc & _).
    split; rewrite ?Hm, ?Hc; [apply NoDup_nil_2 | done].
Qed.

(** X16. The sessions do not interfere: a call changes no session object
    but the one of the session it is called on, and (the shutdown apart)
    no entry of the store but the one of that session id.  The tools
    without a session ([validateKey], [testConnection], [ask] too) change
    none. *)
Theorem calls_do_not_interfere pc w :
  (∀ l s, heap w !! l = Some s →
     (∀ tc, pc = P_tool tc → sessions w !! call_session tc ≠ Some l) →
     heap (plugin_step pc w) !! l = Some s) ∧
  (∀ sid, (∀ tc, pc = P_tool tc → call_session tc ≠ sid) →
     (∀ initialised, pc ≠ P_shutdown initialised) →
     sessions (plugin_step pc w) !! sid = sessions w !! sid).
Proof.
  split.
  - intros l s Hl Hnot.
    destruct (plugin_step_object pc w l s Hl) as (s' & Hl' & _ & Hsame).
    by rewrite Hl', (Hsame Hnot).
  - intros sid Hnot Hns.
    destruct pc as [tc | sid' field | provider key | service | sid' | sid' | initialised];
      cbn [plugin_step].
    + specialize (Hnot tc eq_refl).
      destruct tc as [pid schema sid' now | sid' pid | sid' key value | sid' | sid'];
        cbn [step call_session] in *.
      * unfold createSession; cbn [snd sessions set_sessions set_heap].
        by rewrite lookup_insert_ne.
      * by rewrite installDependency_sessions.
      * by rewrite saveConfig_sessions.
      * by rewrite complete_sessions.
      * destruct (rollback_sessions w sid') as [-> | ->]; [done |].
        by rewrite lookup_delete_ne.
    + by rewrite ask_sessions.
    + by destruct (validateKey_handler_sessions provider key w) as [-> _].
    + by destruct (testConnection_sessions service w) as [-> _].
    + done.
    + assert (snd (isSetupActive sid' w) = w) as ->; [| done].
      unfold isSetupActive.
      destruct (sessions w !! sid') as [l0 |]; [| done]. by destruct (heap w !! l0).
    + by destruct (Hns initialised).
Qed.

(** X17. Sessions come from [beginSetup] alone: along any calls with no
    [beginSetup] among them, every session of the store was there before
    under the same id, as the same object, and no session object was
    created. *)
Theorem sessions_only_from_beginSetup pcs w :
  Forall (λ pc, begins_session pc = false) pcs →
  (∀ sid l, sessions (plugin_run pcs w) !! sid = Some l → sessions w !! sid = Some l) ∧
  (∀ l, heap w !! l = None → heap (plugin_run pcs w) !! l = None).
Proof.
  intros Hpcs. revert w. induction Hpcs as [| pc pcs Hpc _ IH]; intros w; [done |].
  cbn [plugin_run foldl]. destruct (IH (plugin_step pc w)) as [IHs IHh]. split.
  - intros sid l Hl. by eapply plugin_step_sessions, IHs.
  - intros l Hl. apply IHh.
    destruct (heap (plugin_step pc w) !! l) as [s' |] eqn:Hl'; [| done].
    destruct (plugin_step_new pc w l s' Hl Hl') as [Hb _]. congruence.
Qed.

(* ===================================================================== *)
(** ** The prompt of [setup.ask] *)
(* ===================================================================== *)

Lemma contains_empty (a : string) : contains EmptyString a.
Proof. by exists EmptyString, a. Qed.

Lemma contains_foldl {A} (g : A → string) (n init : string) (xs : list A) :
  contains n init → contains n (foldl (λ p x, p +:+ g x) init xs).
Proof.
  revert init. induction xs as [| x xs IH]; intros init Hn; [done |].
  cbn. by apply IH, contains_append_r.
Qed.

Lemma contains_foldl_item {A} (g : A → string) (n init : string) (xs : list A) x :
  x ∈ xs → contains n (g x) → contains n (foldl (λ p x, p +:+ g x) init xs).
Proof.
  revert init. induction xs as [| y xs IH]; intros init Hx Hn;
    [by apply elem_of_nil in Hx |].
  cbn. apply elem_of_cons in Hx as [<- | Hx].
  - by apply contains_foldl, contains_append_l.
  - by apply IH.
Qed.

Lemma starts_append (a b x : string) : starts_with a b → starts_with a (b +:+ x).
Proof. intros [rest ->]. exists (rest +:+ x). by rewrite append_assoc. Qed.

Lemma starts_foldl {A} (g : A → string) (a init : string) (xs : list A) :
  starts_with a init → starts_with a (foldl (λ p x, p +:+ g x) init xs).
Proof.
  revert init. induction xs as [| x xs IH]; intros init Hn; [done |].
  cbn. by apply IH, starts_append.
Qed.

(** Looking for a string in a concatenation. *)
Ltac find_part :=
  first
    [ assumption
    | apply contains_refl
    | solve [apply contains_append_r; find_part]
    | solve [apply contains_append_l; find_part]
    | solve [apply contains_foldl; find_part] ].

(** X18. [setup.ask] needs a session in the store and changes nothing.  Its
    prompt begins with "Please provide: **label**" and holds, for the
    field it is given: the description; the note on secure storage when
    the type is password; the value and the label of every option when
    the type is select; the placeholder; the note that the field is
    required when it is. *)
Theorem ask_prompt_holds w sid l field :
  sessions w !! sid = Some l →
  ∃ prompt,
    ask_handler sid field w = (Ret (textResult prompt false), w) ∧
    starts_with ("Please provide: **" +:+ label field +:+ "**") prompt ∧
    (∀ d, description field = Some d → contains d prompt) ∧
    (type field = TPassword →
     contains "(This value will be stored securely and never displayed.)" prompt) ∧
    (∀ opts opt, type field = TSelect → options field = Some opts → opt ∈ opts →
       contains (opt_value opt) prompt ∧ contains (opt_label opt) prompt) ∧
    (∀ p, placeholder field = Some p → contains p prompt) ∧
    (required field = Some true → contains "*This field is required.*" prompt).
Proof.
  intros Hs. exists (ask_prompt field). split.
  { unfold ask_handler, bind, getSession. by rewrite Hs. }
  unfold ask_prompt. cbv zeta.
  set (base := "Please provide: **" +:+ label field +:+ "**").
  set (item := λ opt : SelectOption,
         newline +:+ "- " +:+ backtick +:+ opt_value opt +:+ backtick +:+ " " +:+
         em_dash +:+ " " +:+ opt_label opt).
  assert (∀ (opts : list SelectOption) init,
            foldl (λ p opt, p +:+ newline +:+ "- " +:+ backtick +:+ opt_value opt
                              +:+ backtick +:+ " " +:+ em_dash +:+ " " +:+ opt_label opt)
                  init opts
            = foldl (λ p opt, p +:+ item opt) init opts) as Hfold by done.
  split; [| split; [| split; [| split; [| split]]]].
  - assert (starts_with base base) as Hbase
      by (exists EmptyString; by rewrite append_empty_r).
    destruct (truthy_string (description field)), (type field),
      (options field) as [opts |], (truthy_string (placeholder field)),
      (truthy_bool (required field));
      rewrite ?Hfold;
      repeat first [exact Hbase | apply starts_append | apply starts_foldl].
  - intros d Hd. rewrite Hd.
    destruct d as [| a d]; [apply contains_empty |]. cbn [truthy_string default from_option id].
    destruct (type field), (options field) as [opts |],
      (truthy_string (placeholder field)), (truthy_bool (required field));
      rewrite ?Hfold; find_part.
  - intros ->.
    destruct (truthy_string (description field)), (options field) as [opts |],
      (truthy_string (placeholder field)), (truthy_bool (required field));
      find_part.
  - intros opts opt -> -> Hopt. rewrite Hfold.
    assert (contains (opt_value opt) (item opt) ∧ contains (opt_label opt) (item opt))
      as [Hv Hl] by (unfold item; split; find_part).
    destruct (truthy_string (description field)),
      (truthy_string (placeholder field)), (truthy_bool (required field));
      split;
      repeat first [ by eapply contains_foldl_item | apply contains_append_r ].
  - intros p Hp. rewrite Hp.
    destruct p as [| a p]; [apply contains_empty |]. cbn [truthy_string default from_option id].
    destruct (truthy_string (description field)), (type field),
      (options field) as [opts |], (truthy_bool (required field));
      rewrite ?Hfold; find_part.
  - intros ->. cbn [truthy_bool default from_option id].
    destruct (truthy_string (description field)), (type field),
      (options field) as [opts |], (truthy_string (placeholder field));
      rewrite ?Hfold; find_part.
Qed.

(* ===================================================================== *)
(** ** The validators and [setup.validateKey] *)
(* ===================================================================== *)

(** A validator, path by path. *)
Lemma provider_validator_run api req w :
  let res := fst (fetch req (outside w)) in
  let o1 := snd (fetch req (outside w)) in
  ∃ r w',
    provider_validator api req w = (Ret r, w') ∧
    trace w' = trace w ++ [EFetch req res] ∧
    sessions w' = sessions w ∧ heap w' = heap w ∧
    (valid r = true ↔ ∃ resp, res = Ret resp ∧ ok resp = true) ∧
    (valid r = true → validation_error r = None) ∧
    (∀ err, res = Throw err →
       validation_error r = Some ("Network error: " +:+ err)) ∧
    (∀ resp, res = Ret resp → ok resp = false →
       match fst (response_text resp o1) with
       | Ret body =>
           validation_error r
           = Some (api +:+ " API returned " +:+ pretty (status resp) +:+ ": " +:+ body)
       | Throw err => validation_error r = Some ("Network error: " +:+ err)
       end).
Proof.
  intros res o1. subst res o1.
  unfold provider_validator, try_catch, call_fetch, call_text, call_outside;
    unfold bind.
  destruct (fetch req (outside w)) as [[resp | err] o1]; cbn [fst snd].
  - destruct (ok resp) eqn:Hok.
    + eexists _, _. split; [reflexivity |]. cbn. repeat split; try done; eauto.
      intros resp0 [= <-]. congruence.
    + cbn [outside set_outside].
      destruct (response_text resp o1) as [[body | err] o2] eqn:Htext;
        eexists _, _; (split; [reflexivity |]); cbn;
        repeat split; try done;
        try (by intros (resp0 & [= <-] & ?); congruence);
        intros resp0 [= <-] _; by rewrite Htext.
  - eexists _, _. split; [reflexivity |]. cbn. repeat split; try done.
    + by intros (resp0 & [=] & _).
    + by intros err0 [= <-].
Qed.

Lemma validators_known provider key api req :
  provider_request provider key = Some (api, req) →
  ∃ fn, validators provider = Some fn ∧ fn key = provider_validator api req.
Proof.
  unfold provider_request, validators.
  destruct (String.eqb provider "anthropic"); [intros [= <- <-]; by eexists |].
  destruct (String.eqb provider "openai"); [intros [= <- <-]; by eexists |].
  destruct (String.eqb provider "discord"); [intros [= <- <-]; by eexists |].
  destruct (String.eqb provider "telegram"); [intros [= <- <-]; by eexists |].
  done.
Qed.

(** X19. For one of the four providers, [validateKey] sends exactly one
    request, the one of that provider with the key in it, and returns:
    valid exactly when the response is ok; else with an error that is
    "Network error" and what was thrown, when the call (or the reading of
    the body) threw, and the status and the body of the response
    otherwise.  The tool reports an error exactly when the key is not
    valid.  Neither touches the sessions. *)
Theorem validateKey_known_provider provider key api req w :
  provider_request provider key = Some (api, req) →
  let res := fst (fetch req (outside w)) in
  let o1 := snd (fetch req (outside w)) in
  ∃ r w' t,
    validateKey provider key w = (Ret r, w') ∧
    validateKey_handler provider key w = (Ret t, w') ∧
    isError t = negb (valid r) ∧
    trace w' = trace w ++ [EFetch req res] ∧
    sessions w' = sessions w ∧ heap w' = heap w ∧
    (valid r = true ↔ ∃ resp, res = Ret resp ∧ ok resp = true) ∧
    (∀ err, res = Throw err →
       validation_error r = Some ("Network error: " +:+ err)) ∧
    (∀ resp, res = Ret resp → ok resp = false →
       match fst (response_text resp o1) with
       | Ret body =>
           validation_error r
           = Some (api +:+ " API returned " +:+ pretty (status resp) +:+ ": " +:+ body)
       | Throw err => validation_error r = Some ("Network error: " +:+ err)
       end).
Proof.
  intros Hreq res o1.
  destruct (validators_known provider key api req Hreq) as (fn & Hfn & Hrun).
  destruct (provider_validator_run api req w)
    as (r & w' & Hp & Ht & Hs & Hh & Hvalid & _ & Hthrow & Htext).
  assert (validateKey provider key w = (Ret r, w')) as Hv
    by (unfold validateKey; by rewrite Hfn, Hrun).
  exists r, w',
    (if valid r
     then textResult ("Key validated successfully for provider: " +:+ provider) false
     else textResult ("Key validation failed: " +:+
                      default "undefined" (validation_error r)) true).
  split; [exact Hv |]. split.
  { unfold validateKey_handler, bind. rewrite Hv. by destruct (valid r). }
  split; [by destruct (valid r) |]. done.
Qed.

Lemma not_provider_name provider :
  provider ∉ provider_names →
  String.eqb provider "anthropic" = false ∧ String.eqb provider "openai" = false ∧
  String.eqb provider "discord" = false ∧ String.eqb provider "telegram" = false.
Proof.
  intros Hnot. repeat split; apply String.eqb_neq; intros ->; apply Hnot;
    unfold provider_names; set_solver.
Qed.

(** X20. For a provider that is none of the four and that the object of
    the validators does not inherit either, [validateKey] calls nothing
    and returns the error "Unknown provider" with the name given and the
    four names supported; the tool reports it as an error. *)
Theorem validateKey_unknown_provider provider key w :
  provider ∉ provider_names →
  Object_prototype provider = None →
  validateKey provider key w
  = (Ret {| valid := false;
            validation_error :=
              Some ("Unknown provider: " +:+ provider +:+
                    ". Supported: anthropic, openai, discord, telegram") |}, w) ∧
  validateKey_handler provider key w
  = (Ret (textResult ("Key validation failed: Unknown provider: " +:+ provider +:+
                      ". Supported: anthropic, openai, discord, telegram") true), w).
Proof.
  intros Hnot Hproto.
  destruct (not_provider_name provider Hnot) as (H1 & H2 & H3 & H4).
  assert (validators provider = None) as Hv
    by (unfold validators; by rewrite H1, H2, H3, H4, Hproto).
  unfold validateKey_handler, bind, validateKey. by rewrite Hv.
Qed.

(* ===================================================================== *)
(** ** [setup.testConnection] *)
(* ===================================================================== *)

(** X21. [setup.testConnection] needs no session and touches none.  It
    sends exactly one request, to the health endpoint of the service, and
    always returns: a success exactly when the response is ok; else an
    error whose text has the HTTP status and the body of the response, or
    what was thrown when the call or the reading of the body threw. *)
Theorem testConnection_result service w :
  let req := health_request service in
  let res := fst (fetch req (outside w)) in
  let o1 := snd (fetch req (outside w)) in
  ∃ r w',
    testConnection_handler service w = (Ret r, w') ∧
    trace w' = trace w ++ [EFetch req res] ∧
    sessions w' = sessions w ∧ heap w' = heap w ∧
    (isError r = false ↔ ∃ resp, res = Ret resp ∧ ok resp = true) ∧
    (∀ err, res = Throw err →
       result_text r = "Connection test failed for " +:+ service +:+ ": " +:+ err) ∧
    (∀ resp, res = Ret resp → ok resp = false →
       match fst (response_text resp o1) with
       | Ret body =>
           result_text r
           = "Connection test failed for " +:+ service +:+ ": HTTP " +:+
             pretty (status resp) +:+ " " +:+ em_dash +:+ " " +:+ body ∧
           contains (pretty (status resp)) (result_text r)
       | Throw err =>
           result_text r
           = "Connection test failed for " +:+ service +:+ ": " +:+ err
       end).
Proof.
  intros req res o1. subst req res o1.
  unfold testConnection_handler, try_catch, call_fetch, call_text, call_outside;
    unfold bind.
  destruct (fetch _ (outside w)) as [[resp | err] o1]; cbn [fst snd].
  - destruct (ok resp) eqn:Hok.
    + eexists _, _. split; [reflexivity |]. cbn. repeat split; try done; eauto.
      intros resp0 [= <-]. congruence.
    + cbn [outside set_outside].
      destruct (response_text resp o1) as [[body | err] o2] eqn:Htext;
        eexists _, _; (split; [reflexivity |]); cbn [trace sessions heap isError textResult];
        repeat split; try done;
        try (by intros (resp0 & [= <-] & ?); congruence).
      * intros resp0 [= <-] _. rewrite Htext. split; [done |].
        unfold result_text; cbn [content text].
        do 3 apply contains_append_l. apply contains_append_r, contains_refl.
      * intros resp0 [= <-] _. by rewrite Htext.
  - eexists _, _. split; [reflexivity |]. cbn. repeat split; try done.
    + by intros (resp0 & [=] & _).
    + by intros err0 [= <-].
Qed.

(* ===================================================================== *)
(** ** What the validator and the writing tools do not look at *)
(* ===================================================================== *)

Lemma check_pattern_same f f' key value :
  same_constraints f f' → check_pattern f key value = check_pattern f' key value.
Proof. intros (_ & _ & Hp & He). unfold check_pattern. by rewrite Hp, He. Qed.

(** X22. The validator looks at the name of a field, at [required], at
    [pattern] and at [patternError], and at nothing else: two schemas
    whose fields agree on these give the same verdict on every key and
    value.  So the type of a field and the options of a select are not
    enforced. *)
Theorem validate_field_ignores_type fs fs' key value :
  Forall2 same_constraints fs fs' →
  validate_field fs key value = validate_field fs' key value.
Proof.
  intros Hfs.
  assert (map name fs = map name fs') as Hnames.
  { induction Hfs as [| f f' fs fs' (Hn & _) _ IH]; [done |]. cbn. by rewrite Hn, IH. }
  assert (option_Forall2 same_constraints (find_field key fs) (find_field key fs'))
    as Hfind.
  { unfold find_field. induction Hfs as [| f f' fs fs' Hf _ IH]; cbn; [constructor |].
    destruct Hf as (Hn & Hrest). rewrite <- Hn.
    destruct (String.eqb (name f) key); [| by apply IH; injection Hnames].
    by constructor. }
  unfold validate_field, unknown_field_message. rewrite <- Hnames.
  destruct Hfind as [f f' Hf |]; [| done].
  pose proof Hf as (_ & -> & _). by rewrite (check_pattern_same f f' key value Hf).
Qed.

(** X23. The tools that write have no guard on [completed].  On a
    session that is completed, a value that the validator accepts is
    saved as on any session: on a host that keeps a configuration, the
    configuration holds the value under the key afterwards (unless the
    key is [__proto__]) and is the same at every other key.  An install
    that went through is recorded as on any session, and the outside is
    what the install request left.  In both cases the ledger grows and
    the session stays completed. *)
Theorem writing_tools_ignore_completed (current : Outside X → Config) w sid l s :
  config_store current →
  session_at w sid l s → completed s = true →
  (∀ key value,
     validate_field (fields (configSchema s)) key value = Ret None →
     ∃ r w' s',
       saveConfig_handler sid key value w = (Ret r, w') ∧ isError r = false ∧
       (key ≠ "__proto__" →
        current (outside w') = <[key := value]> (current (outside w))) ∧
       (∀ k, k ≠ key → current (outside w') !! k = current (outside w) !! k) ∧
       heap w' !! l = Some s' ∧
       mutations s' = mutations s ++ [M_saveConfig key value] ∧
       completed s' = true) ∧
  (∀ pid,
     let out := fetch (plugins_request "install" pid) (outside w) in
     install_succeeded (fst out) = true →
     ∃ r w' s',
       installDependency_handler sid pid w = (Ret r, w') ∧ isError r = false ∧
       outside w' = snd out ∧
       heap w' !! l = Some s' ∧
       mutations s' = mutations s ++ [M_installDependency pid] ∧
       completed s' = true).
Proof.
  intros Hstore Hat Hdone. pose proof Hat as [Hs Hl]. split.
  - intros key value Hval.
    destruct (persist_value_store current Hstore w l key value)
      as (w' & Hsave & Hother & Hkey & _ & Hh).
    eexists _, w', _. rewrite (saveConfig_run w sid l s key value Hat), Hval.
    split; [exact Hsave |]. split; [done |]. split; [exact Hkey |].
    split; [exact Hother |].
    rewrite Hh, !lookup_alter_eq, Hl. by repeat split.
  - intros pid out Hyes.
    destruct (installDependency_run w sid l pid Hs) as (r & Hrun & Herr & _).
    fold out in Hrun, Herr. rewrite Hyes in Hrun, Herr.
    eexists r, _, _. split; [exact Hrun |]. split; [exact Herr |].
    cbn [outside heap]. split; [done |].
    rewrite lookup_alter_eq, Hl. by repeat split.
Qed.

(** X24. On a session that is there, [saveConfig] throws in one case
    only: the field found under the key has a pattern on which the
    constructor of the regular expression throws.  It throws what the
    constructor threw, and has changed nothing. *)
Theorem saveConfig_throws_only_on_pattern w sid l s key value err w' :
  session_at w sid l s →
  saveConfig_handler sid key value w = (Throw err, w') →
  w' = w ∧
  ∃ field p,
    find_field key (fields (configSchema s)) = Some field ∧
    pattern field = Some p ∧ RegExp_new p = Throw err.
Proof.
  intros Hat Hrun. rewrite (saveConfig_run w sid l s key value Hat) in Hrun.
  destruct (validate_field _ _ _) as [[r |] | err0] eqn:Hval.
  - done.
  - by destruct (persist_value_cases w l key value) as (r1 & w1 & Hp & _);
      rewrite Hp in Hrun.
  - injection Hrun as -> ->. split; [done |].
    revert Hval. unfold validate_field.
    destruct (find_field _ _) as [field |]; [| done].
    destruct (_ && _); [done |]. unfold check_pattern.
    destruct (pattern field) as [p |] eqn:Hp; [| done].
    destruct (truthy_string (Some p)); [| done]. cbn [default from_option id].
    destruct (RegExp_new p) as [regex | err1] eqn:Hre.
    + destruct value as [| | | | sv |]; try done. by destruct (negb (regex sv)).
    + intros [= ->]. by exists field, p.
Qed.

(* ===================================================================== *)
(** ** A whole session, and a session that was replaced *)
(* ===================================================================== *)

(** Undoing what a ledger saved: the keys it saved are gone, the others
    are as before. *)
Lemma undo_all_lookup ms (c : Config) k :
  undo_all ms c !! k = if bool_decide (k ∈ saved_keys ms) then None else c !! k.
Proof.
  revert c. induction ms as [| m ms IH]; intros c; [done |].
  change (undo_all (m :: ms) c) with (undo_all ms (undo_all [m] c)). rewrite IH.
  destruct m as [key v | pid]; cbn [undo_all foldl saved_keys flat_map app];
    fold (saved_keys ms); [| done].
  destruct (decide (k = key)) as [-> | Hne].
  - rewrite lookup_delete_eq, (bool_decide_eq_true_2 (key ∈ key :: _)); [| by left].
    by case_bool_decide.
  - rewrite lookup_delete_ne by done.
    apply (f_equal (λ b : bool, if b then None else c !! k)), bool_decide_ext.
    rewrite elem_of_cons. split; [by right | by intros [? | ?]].
Qed.

(** One write of the session, on a host that keeps a configuration: the
    ledger is as before and so is the configuration, or the ledger has
    one more mutation.  If that one is a saved value, the configuration
    differs at most at its key, where it holds the value unless the key
    is [__proto__]; if it is an install, the configuration is as
    before. *)
Lemma write_step_store (current : Outside X → Config) w sid l s tc :
  config_store current →
  session_at w sid l s → writes_on sid tc →
  ∃ s',
    session_at (step tc w) sid l s' ∧
    ((mutations s' = mutations s ∧
      current (outside (step tc w)) = current (outside w)) ∨
     (∃ pid, mutations s' = mutations s ++ [M_installDependency pid] ∧
             current (outside (step tc w)) = current (outside w)) ∨
     (∃ key value,
        mutations s' = mutations s ++ [M_saveConfig key value] ∧
        (∀ k, k ≠ key →
           current (outside (step tc w)) !! k = current (outside w) !! k) ∧
        (key ≠ "__proto__" →
         current (outside (step tc w)) = <[key := value]> (current (outside w))))).
Proof.
  intros Hstore Hat Htc. pose proof Hat as [Hs Hl].
  destruct tc as [| sid' pid | sid' key value | |]; try done; cbn in Htc; subst sid'.
  - cbn [step].
    destruct (installDependency_run w sid l pid Hs) as (r & -> & _). cbn [snd outside].
    pose proof (store_fetch current Hstore (plugins_request "install" pid) (outside w))
      as Hf.
    destruct (install_succeeded _).
    + exists (push_mutation (M_installDependency pid) s). split.
      * split; cbn; [done |]. by rewrite lookup_alter_eq, Hl.
      * right; left. by exists pid.
    + exists s. split; [done | by left].
  - cbn [step]. rewrite (saveConfig_run w sid l s key value Hat).
    destruct (validate_field _ _ _) as [[r |] | err];
      try (exists s; split; [done | by left]).
    destruct (persist_value_store current Hstore w l key value)
      as (w' & -> & Hother & Hkey & Hs' & Hh).
    exists (saved_value key value s). split.
    + split; cbn [snd]; [by rewrite Hs' |]. by rewrite Hh, !lookup_alter_eq, Hl.
    + right; right. by exists key, value.
Qed.

(** Writes of the session, one after the other: the ledger grows by the
    mutations [ms]; the configuration is as before at every key that
    none of them saved; and it is the configuration with their values put
    in, unless one of them saved the key [__proto__]. *)
Lemma write_run_store (current : Outside X → Config) tcs w sid l s :
  config_store current →
  session_at w sid l s → Forall (writes_on sid) tcs →
  ∃ ms s',
    session_at (run tcs w) sid l s' ∧
    mutations s' = mutations s ++ ms ∧
    (∀ k, k ∉ saved_keys ms →
       current (outside (run tcs w)) !! k = current (outside w) !! k) ∧
    ("__proto__" ∉ saved_keys ms →
     current (outside (run tcs w)) = apply_saves ms (current (outside w))).
Proof.
  intros Hstore Hat Htcs. revert w s Hat.
  induction Htcs as [| tc tcs Htc _ IH]; intros w s Hat.
  - exists [], s. by rewrite app_nil_r.
  - destruct (write_step_store current w sid l s tc Hstore Hat Htc)
      as (s1 & Hat1 & Hcase).
    destruct (IH (step tc w) s1 Hat1) as (ms & s2 & Hat2 & Hms2 & Hout2 & Hcur2).
    cbn [run foldl]. fold (run tcs (step tc w)).
    destruct Hcase as [(Hms1 & Hcur1) | [(pid & Hms1 & Hcur1)
                                        | (key & value & Hms1 & Hother & Hkey)]].
    + exists ms, s2. split; [done |]. split; [by rewrite Hms2, Hms1 |].
      rewrite <- Hcur1. by split.
    + exists (M_installDependency pid :: ms), s2. split; [done |].
      split; [by rewrite Hms2, Hms1, <- app_assoc |].
      rewrite <- Hcur1. by split.
    + exists (M_saveConfig key value :: ms), s2. split; [done |].
      split; [by rewrite Hms2, Hms1, <- app_assoc |].
      cbn [saved_keys flat_map app]. fold (saved_keys ms). split.
      * intros k [Hk Hin]%not_elem_of_cons. rewrite Hout2 by done. by apply Hother.
      * intros [Hk Hin]%not_elem_of_cons. rewrite Hcur2 by done.
        cbn [apply_saves foldl]. rewrite Hkey; [done |]. by intros ->.
Qed.

(** X25. A session and its rollback, on a host that keeps a
    configuration: start from a session with an empty ledger, let any
    number of [saveConfig] and [installDependency] calls on it follow,
    whatever they return, and roll back.  Before the rollback the
    configuration is the one before the session with the saved values
    put in (as long as no value was saved under [__proto__]).  After the
    rollback every key that the session saved is absent from the
    configuration, and every other key has the value it had before the
    session.  When none of the saved keys was in the configuration
    before, the configuration is back to what it was.  (This is about
    the keys of the configuration: a prototype that a save under
    [__proto__] gave to the configuration object is not taken back.) *)
Theorem session_then_rollback (current : Outside X → Config) tcs w sid l s :
  config_store current →
  session_at w sid l s → mutations s = [] →
  Forall (writes_on sid) tcs →
  let w1 := run tcs w in
  let w2 := snd (rollback_handler sid w1) in
  ∃ s1,
    heap w1 !! l = Some s1 ∧
    ("__proto__" ∉ saved_keys (mutations s1) →
     current (outside w1) = apply_saves (mutations s1) (current (outside w))) ∧
    (∀ k, current (outside w2) !! k
          = if bool_decide (k ∈ saved_keys (mutations s1)) then None
            else current (outside w) !! k) ∧
    ((∀ k, k ∈ saved_keys (mutations s1) → current (outside w) !! k = None) →
     current (outside w2) = current (outside w)).
Proof.
  intros Hstore Hat Hempty Htcs w1 w2.
  destruct (write_run_store current tcs w sid l s Hstore Hat Htcs)
    as (ms & s1 & Hat1 & Hms1 & Hout1 & Hcur1).
  fold w1 in Hat1, Hout1, Hcur1. rewrite Hempty in Hms1. cbn in Hms1. subst ms.
  exists s1. split; [apply Hat1 |]. split; [done |].
  destruct (rollback_handler_spec w1 sid l s1 Hat1)
    as (es & errs & w1' & Hloop & _ & _ & Hr).
  destruct (rollback_loop_store current Hstore (reverse (mutations s1)) [] w1)
    as (errs' & w1'' & Hloop' & Hcur2 & _).
  rewrite Hloop in Hloop'. injection Hloop' as <- <-.
  assert (current (outside w2)
          = undo_all (reverse (mutations s1)) (current (outside w1))) as Hfinal.
  { unfold w2. rewrite Hr. cbn [snd outside]. by rewrite Hcur2. }
  assert (∀ k, current (outside w2) !! k
               = if bool_decide (k ∈ saved_keys (mutations s1)) then None
                 else current (outside w) !! k) as Hk.
  { intros k. rewrite Hfinal, undo_all_lookup, saved_keys_reverse.
    assert (bool_decide (k ∈ reverse (saved_keys (mutations s1)))
            = bool_decide (k ∈ saved_keys (mutations s1))) as ->
      by (apply bool_decide_ext, elem_of_reverse).
    case_bool_decide as Hin; [done |]. by apply Hout1. }
  split; [exact Hk |].
  intros Hfresh. apply map_eq. intros k. rewrite Hk. case_bool_decide; [| done].
  symmetry. by apply Hfresh.
Qed.

(** An object that no id of the store names is never changed, and never
    named again. *)
Lemma unreachable_object_kept pcs w l s :
  heap w !! l = Some s →
  (∀ sid, sessions w !! sid ≠ Some l) →
  heap (plugin_run pcs w) !! l = Some s ∧
  ∀ sid, sessions (plugin_run pcs w) !! sid ≠ Some l.
Proof.
  revert w. induction pcs as [| pc pcs IH]; intros w Hl Hno; [done |].
  cbn [plugin_run foldl]. apply IH.
  - destruct (plugin_step_object pc w l s Hl) as (s' & Hl' & _ & Hsame).
    rewrite Hl'. f_equal. apply Hsame. intros tc _. apply Hno.
  - intros sid Hsid. destruct (begins_session pc) eqn:Hb.
    + destruct pc as [[pid schema sid' now | | | |] | | | | | |]; try done.
      revert Hsid. cbn [plugin_step step]. unfold createSession.
      cbn [snd sessions set_sessions set_heap].
      intros [[_ Heq] | [_ Hsid]]%lookup_insert_Some; [| by apply (Hno sid)].
      pose proof (is_fresh (dom (heap w))) as Hf. rewrite Heq in Hf.
      apply Hf, elem_of_dom. eauto.
    + by apply (Hno sid), (plugin_step_sessions pc w sid l Hb).
Qed.

(** X26. [beginSetup] on an id that is in use replaces the session, and
    orphans the one that was there: its object keeps its ledger, but no
    id names it any more, and nothing that is called afterwards changes
    it; so its mutations are never rolled back. *)
Theorem replaced_session_is_orphaned pcs w sid l s pid schema now :
  session_at w sid l s →
  (∀ sid', sessions w !! sid' = Some l → sid' = sid) →
  let w1 := snd (createSession sid pid schema now w) in
  getSession sid w1 ≠ (Ret (Some l), w1) ∧
  heap (plugin_run pcs w1) !! l = Some s ∧
  ∀ sid', sessions (plugin_run pcs w1) !! sid' ≠ Some l.
Proof.
  intros [Hs Hl] Honly w1.
  assert (fresh (dom (heap w)) ≠ l) as Hfresh.
  { intros Heq. pose proof (is_fresh (dom (heap w))) as Hf. rewrite Heq in Hf.
    apply Hf, elem_of_dom. eauto. }
  assert (∀ sid', sessions w1 !! sid' ≠ Some l) as Hno.
  { intros sid'. unfold w1, createSession. cbn [snd sessions set_sessions set_heap].
    intros [[_ Heq] | [Hne Hsid]]%lookup_insert_Some; [done |].
    by apply Hne, eq_sym, Honly. }
  split.
  - unfold getSession. intros [= Heq]. by apply (Hno sid).
  - apply unreachable_object_kept; [| done].
    unfold w1, createSession. cbn [snd heap set_sessions set_heap].
    by rewrite lookup_insert_ne.
Qed.

End Coverage.

(* ===================================================================== *)
(** ** These properties on the scenarios of the tests *)
(* ===================================================================== *)

Lemma isSetupActive_lifecycle_witness :
  isSetupActive "s2" (w_empty false) = (Ret true, w_empty false) ∧
  (let w1 := snd (complete_handler "s2" (w_empty false)) in
   isSetupActive "s2" w1 = (Ret false, w1)) ∧
  (let w2 := snd (rollback_handler "s2" (w_empty false)) in
   isSetupActive "s2" w2 = (Ret false, w2)).
Proof.
  apply (isSetupActive_lifecycle (w_empty false) "s2" 1%positive
           (session_of "s2" [] [] false)).
  - split; reflexivity.
  - reflexivity.
Defined.

(** The tests "errors on missing session". *)
Lemma no_session_no_effect_witness :
  let w := w_empty false in
  let r := Ret (textResult ("No active setup session: " +:+ "nope") true) in
  (∀ field, ask_handler "nope" field w = (r, w)) ∧
  (∀ pid, installDependency_handler "nope" pid w = (r, w)) ∧
  (∀ key value, saveConfig_handler "nope" key value w = (r, w)) ∧
  complete_handler "nope" w = (r, w) ∧
  rollback_handler "nope" w = (r, w).
Proof. apply (no_session_no_effect (w_empty false) "nope"). reflexivity. Defined.

(** The test "rejects unknown field". *)
Lemma saveConfig_unknown_field_witness :
  let w := w_field token_field ∅ in
  let s := session_of "s4" [token_field] [] false in
  ∃ r,
    saveConfig_handler "s4" "unknown" (VString "x") w = (Ret r, w) ∧
    isError r = true ∧
    result_text r
    = "Unknown config field: " +:+ "unknown" +:+ ". Valid fields: " +:+
      join ", " (map name (fields (configSchema s))) ∧
    contains "unknown" (result_text r) ∧
    ∀ f, f ∈ fields (configSchema s) → contains (name f) (result_text r).
Proof.
  apply (saveConfig_unknown_field (w_field token_field ∅) "s4" 1%positive
           (session_of "s4" [token_field] [] false) "unknown" (VString "x")).
  - split; reflexivity.
  - cbn. by intros [=]%list_elem_of_singleton.
Defined.


(** A value that is refused leaves the sessions as they were. *)
Lemma saveConfig_failure_keeps_sessions_witness :
  let w := w_field token_field ∅ in
  let w' := snd (saveConfig_handler "s4" "token" (VString EmptyString) w) in
  sessions w' = sessions w ∧ heap w' = heap w.
Proof.
  apply (saveConfig_failure_keeps_sessions (w_field token_field ∅) "s4" "token"
           (VString EmptyString)
           (Ret (textResult (required_message "token") true))
           (snd (saveConfig_handler "s4" "token" (VString EmptyString)
                   (w_field token_field ∅)))).
  - reflexivity.
  - by intros r [= <-].
Defined.



(** The test "marks session complete and emits event". *)
Lemma complete_emits_once_witness :
  let w := w_empty false in
  let payload := {| ev_pluginId := "p"; ev_sessionId := "s2"; ev_configKeys := [] |} in
  let out := fst (ctx_events_emit "setup:complete" payload (outside w)) in
  ∃ res w',
    complete_handler "s2" w = (res, w') ∧
    trace w' = trace w ++ [EEmit "setup:complete" payload out] ∧
    (∀ err, out = Throw err → res = Throw err) ∧
    (∀ u, out = Ret u →
       res = Ret (textResult ("Setup complete for " +:+ "p" +:+
                              ". Plugin is now active.") false)) ∧
    (∃ s', heap w' !! 1%positive = Some s' ∧ completed s' = true) ∧
    complete_handler "s2" w'
    = (Ret (textResult "Setup already completed." true), w').
Proof.
  apply (complete_emits_once (w_empty false) "s2" 1%positive
           (session_of "s2" [] [] false)).
  - split; reflexivity.
  - reflexivity.
Defined.

(** The ledger [save a; install p1; save b]. *)
Lemma rollback_once_each_witness :
  ∃ r w' es errs,
    rollback_handler "s1" w_three = (Ret r, w') ∧
    trace w' = trace w_three ++ es ∧
    attempts (reverse (mutations s_three)) (outside w_three) es errs (outside w') ∧
    fetched es
    = plugins_request "uninstall" <$> reverse (installed (mutations s_three)) ∧
    config_reads es = length (saved_keys (mutations s_three)) ∧
    deleted_keys es `sublist_of` reverse (saved_keys (mutations s_three)) ∧
    Forall (λ e, sets_or_emits e = false) es ∧
    (isError r = false →
     deleted_keys es = reverse (saved_keys (mutations s_three)) ∧
     Forall (λ e, ∀ req res, e = EFetch req res →
                    ∃ resp, res = Ret resp ∧ ok resp = true) es).
Proof.
  apply (rollback_once_each w_three "s1" 1%positive s_three). split; reflexivity.
Defined.

(** Calls of every kind on the session of that ledger and around it. *)
Lemma session_identity_kept_witness :
  let pcs := [P_tool (C_saveConfig "s1" "k" (VString "v")); P_tool (C_complete "s1");
              P_validateKey "anthropic" "sk"; P_tool (C_rollback "s1");
              P_tool (C_beginSetup "q" {| title := "T"; fields := [] |} "s1" 7);
              P_shutdown true] in
  ∃ s',
    heap (plugin_run pcs w_three) !! 1%positive = Some s' ∧
    sessionId s' = sessionId s_three ∧ pluginId s' = pluginId s_three ∧
    configSchema s' = configSchema s_three ∧ createdAt s' = createdAt s_three ∧
    (completed s_three = true → completed s' = true).
Proof.
  apply (session_identity_kept
           [P_tool (C_saveConfig "s1" "k" (VString "v")); P_tool (C_complete "s1");
            P_validateKey "anthropic" "sk"; P_tool (C_rollback "s1");
            P_tool (C_beginSetup "q" {| title := "T"; fields := [] |} "s1" 7);
            P_shutdown true]
           w_three 1%positive s_three).
  reflexivity.
Defined.

Lemma ledger_append_only_witness :
  let pcs := [P_tool (C_installDependency "s1" "voice"); P_tool (C_complete "s1");
              P_ask "s1" model_field; P_tool (C_installDependency "s1" "tts")] in
  ∃ s', heap (plugin_run pcs w_three) !! 1%positive = Some s' ∧
        mutations s_three `prefix_of` mutations s'.
Proof.
  apply (ledger_append_only
           [P_tool (C_installDependency "s1" "voice"); P_tool (C_complete "s1");
            P_ask "s1" model_field; P_tool (C_installDependency "s1" "tts")]
           w_three 1%positive s_three).
  - by repeat constructor.
  - reflexivity.
Defined.

(** Two values saved under one key, then a third key. *)
Lemma collected_values_agree_witness :
  let pcs := [P_tool (C_saveConfig "s4" "token" (VString "a"));
              P_tool (C_saveConfig "s4" "token" (VString "b"));
              P_tool (C_installDependency "s4" "voice")] in
  ∃ s, heap (plugin_run pcs (w_field token_field ∅)) !! 1%positive = Some s ∧
       collectedValues s = [("token", VString "b")] ∧ agrees s.
Proof.
  eexists. split; [reflexivity |]. split; [reflexivity |].
  apply (collected_values_agree
           [P_tool (C_saveConfig "s4" "token" (VString "a"));
            P_tool (C_saveConfig "s4" "token" (VString "b"));
            P_tool (C_installDependency "s4" "voice")]
           (w_field token_field ∅)) with (l := 1%positive); [| reflexivity].
  intros l s Hl. cbn in Hl. apply lookup_singleton_Some in Hl as [_ <-].
  split; [apply NoDup_nil_2 | done].
Defined.

Lemma sessions_only_from_beginSetup_witness :
  let pcs := [P_tool (C_saveConfig "s9" "k" (VString "v")); P_tool (C_complete "s9");
              P_ask "s9" model_field; P_testConnection "discord"] in
  (∀ sid l, sessions (plugin_run pcs w_three) !! sid = Some l →
            sessions w_three !! sid = Some l) ∧
  (∀ l, heap w_three !! l = None → heap (plugin_run pcs w_three) !! l = None).
Proof.
  apply (sessions_only_from_beginSetup
           [P_tool (C_saveConfig "s9" "k" (VString "v")); P_tool (C_complete "s9");
            P_ask "s9" model_field; P_testConnection "discord"] w_three).
  by repeat constructor.
Defined.

(** The test "returns formatted prompt with select options". *)
Lemma ask_prompt_holds_witness :
  let w := w_field token_field ∅ in
  ∃ prompt,
    ask_handler "s4" model_field w = (Ret (textResult prompt false), w) ∧
    starts_with ("Please provide: **" +:+ label model_field +:+ "**") prompt ∧
    (∀ d, description model_field = Some d → contains d prompt) ∧
    (type model_field = TPassword →
     contains "(This value will be stored securely and never displayed.)" prompt) ∧
    (∀ opts opt, type model_field = TSelect → options model_field = Some opts →
       opt ∈ opts → contains (opt_value opt) prompt ∧ contains (opt_label opt) prompt) ∧
    (∀ p, placeholder model_field = Some p → contains p prompt) ∧
    (required model_field = Some true → contains "*This field is required.*" prompt).
Proof.
  apply (ask_prompt_holds (w_field token_field ∅) "s4" 1%positive model_field).
  reflexivity.
Defined.

Example ask_select_prompt :
  fst (ask_handler "s4" model_field (w_field token_field ∅))
  = Ret (textResult
           ("Please provide: **Model**" +:+ newline +:+ newline +:+ "Options:" +:+
            newline +:+ "- `gpt-4` — GPT-4" +:+ newline +:+ "- `claude` — Claude")
           false).
Proof. reflexivity. Qed.

(** The test "returns invalid for bad key (401)". *)
Lemma validateKey_known_provider_witness :
  let w := test_world ∅ [Ret (response 401)] in
  let req := anthropic_request "bad-key" in
  let res := fst (fetch req (outside w)) in
  let o1 := snd (fetch req (outside w)) in
  ∃ r w' t,
    validateKey "anthropic" "bad-key" w = (Ret r, w') ∧
    validateKey_handler "anthropic" "bad-key" w = (Ret t, w') ∧
    isError t = negb (valid r) ∧
    trace w' = trace w ++ [EFetch req res] ∧
    sessions w' = sessions w ∧ heap w' = heap w ∧
    (valid r = true ↔ ∃ resp, res = Ret resp ∧ ok resp = true) ∧
    (∀ err, res = Throw err →
       validation_error r = Some ("Network error: " +:+ err)) ∧
    (∀ resp, res = Ret resp → ok resp = false →
       match fst (response_text resp o1) with
       | Ret body =>
           validation_error r
           = Some ("Anthropic" +:+ " API returned " +:+ pretty (status resp) +:+ ": " +:+ body)
       | Throw err => validation_error r = Some ("Network error: " +:+ err)
       end).
Proof.
  apply (validateKey_known_provider "anthropic" "bad-key" "Anthropic"
           (anthropic_request "bad-key") (test_world ∅ [Ret (response 401)])).
  reflexivity.
Defined.

Example validateKey_401 :
  fst (validateKey "anthropic" "bad-key" (test_world ∅ [Ret (response 401)]))
  = Ret {| valid := false;
           validation_error := Some "Anthropic API returned 401: invalid key" |}.
Proof. reflexivity. Qed.

(** The test "returns invalid for unknown provider". *)
Lemma validateKey_unknown_provider_witness :
  let w := test_world ∅ [] in
  validateKey "unknown-provider" "key" w
  = (Ret {| valid := false;
            validation_error :=
              Some ("Unknown provider: " +:+ "unknown-provider" +:+
                    ". Supported: anthropic, openai, discord, telegram") |}, w) ∧
  validateKey_handler "unknown-provider" "key" w
  = (Ret (textResult ("Key validation failed: Unknown provider: " +:+
                      "unknown-provider" +:+
                      ". Supported: anthropic, openai, discord, telegram") true), w).
Proof.
  apply (validateKey_unknown_provider "unknown-provider" "key" (test_world ∅ [])).
  - unfold provider_names. intros Hin. by repeat (apply elem_of_cons in Hin as [? | Hin]);
      try apply elem_of_nil in Hin.
  - reflexivity.
Defined.

(** The field [id] declared as a text field and as a password field. *)
Lemma validate_field_ignores_type_witness :
  let f := id_field (Some true) in
  let f' := {| name := "id"; type := TPassword; label := "Identifier";
               description := Some "The id"; placeholder := Some "abc-1";
               required := Some true; pattern := Some "abc";
               patternError := Some "Must contain abc"; options := None |} in
  validate_field [f] "id" (VString "xyz") = validate_field [f'] "id" (VString "xyz").
Proof.
  apply (validate_field_ignores_type
           [id_field (Some true)]
           [{| name := "id"; type := TPassword; label := "Identifier";
               description := Some "The id"; placeholder := Some "abc-1";
               required := Some true; pattern := Some "abc";
               patternError := Some "Must contain abc"; options := None |}]
           "id" (VString "xyz")).
  by repeat constructor.
Defined.

(** A completed session takes a value and a dependency. *)
Lemma writing_tools_ignore_completed_witness :
  let w := w_completed in
  let s := session_of "s2" [token_field] [] true in
  (∀ key value,
     validate_field (fields (configSchema s)) key value = Ret None →
     ∃ r w' s',
       saveConfig_handler "s2" key value w = (Ret r, w') ∧ isError r = false ∧
       (key ≠ "__proto__" → test_config w' = <[key := value]> (test_config w)) ∧
       (∀ k, k ≠ key → test_config w' !! k = test_config w !! k) ∧
       heap w' !! 1%positive = Some s' ∧
       mutations s' = mutations s ++ [M_saveConfig key value] ∧
       completed s' = true) ∧
  (∀ pid,
     let out := fetch (plugins_request "install" pid) (outside w) in
     install_succeeded (fst out) = true →
     ∃ r w' s',
       installDependency_handler "s2" pid w = (Ret r, w') ∧ isError r = false ∧
       outside w' = snd out ∧
       heap w' !! 1%positive = Some s' ∧
       mutations s' = mutations s ++ [M_installDependency pid] ∧
       completed s' = true).
Proof.
  apply (writing_tools_ignore_completed
           (λ o : Outside TestState, obj_content (savedConfig (host o)) o)
           w_completed "s2" 1%positive (session_of "s2" [token_field] [] true)).
  - exact test_config_store.
  - split; reflexivity.
  - reflexivity.
Defined.

Example completed_session_saves :
  ∃ w', saveConfig_handler "s2" "token" (VString "abc") w_completed
        = (Ret (textResult ("Saved " +:+ dquote +:+ "token" +:+ dquote +:+
                            " successfully.") false), w') ∧
        test_config w' = {[ "token" := VString "abc" ]}.
Proof. eexists. split; reflexivity. Qed.

(** A field whose pattern is the ill-formed [(]. *)
Lemma saveConfig_throws_only_on_pattern_witness :
  let f := text_field "id" None (Some "(") None in
  let w := w_field f ∅ in
  let err := "SyntaxError: Invalid regular expression: /(/: Unterminated group" in
  saveConfig_handler "s4" "id" (VNumber 5) w = (Throw err, w) ∧
  w = w ∧
  ∃ field p,
    find_field "id" (fields (configSchema (session_of "s4" [f] [] false))) = Some field ∧
    pattern field = Some p ∧ RegExp_new p = Throw err.
Proof.
  split; [reflexivity |].
  apply (saveConfig_throws_only_on_pattern
           (w_field (text_field "id" None (Some "(") None) ∅) "s4" 1%positive
           (session_of "s4" [text_field "id" None (Some "(") None] [] false)
           "id" (VNumber 5)
           "SyntaxError: Invalid regular expression: /(/: Unterminated group"
           (w_field (text_field "id" None (Some "(") None) ∅)).
  - split; reflexivity.
  - reflexivity.
Defined.

(** A session that saves [token] twice and installs a plugin, on a host
    that had a [token] and a [region]. *)
Lemma session_then_rollback_witness :
  let current := λ o : Outside TestState, obj_content (savedConfig (host o)) o in
  let tcs := [C_saveConfig "s4" "token" (VString "a");
              C_installDependency "s4" "voice";
              C_saveConfig "s4" "token" (VString "b")] in
  let w := w_field token_field {[ "token" := VString "old"; "region" := VString "eu" ]} in
  let w1 := run tcs w in
  let w2 := snd (rollback_handler "s4" w1) in
  ∃ s1,
    heap w1 !! 1%positive = Some s1 ∧
    ("__proto__" ∉ saved_keys (mutations s1) →
     current (outside w1) = apply_saves (mutations s1) (current (outside w))) ∧
    (∀ k, current (outside w2) !! k
          = if bool_decide (k ∈ saved_keys (mutations s1)) then None
            else current (outside w) !! k) ∧
    ((∀ k, k ∈ saved_keys (mutations s1) → current (outside w) !! k = None) →
     current (outside w2) = current (outside w)).
Proof.
  apply (session_then_rollback
           (λ o : Outside TestState, obj_content (savedConfig (host o)) o)
           [C_saveConfig "s4" "token" (VString "a");
            C_installDependency "s4" "voice";
            C_saveConfig "s4" "token" (VString "b")]
           (w_field token_field {[ "token" := VString "old"; "region" := VString "eu" ]})
           "s4" 1%positive (session_of "s4" [token_field] [] false)).
  - exact test_config_store.
  - split; reflexivity.
  - reflexivity.
  - by repeat constructor.
Defined.

Example session_then_rollback_config :
  let tcs := [C_saveConfig "s4" "token" (VString "a");
              C_installDependency "s4" "voice";
              C_saveConfig "s4" "token" (VString "b")] in
  let w := w_field token_field {[ "token" := VString "old"; "region" := VString "eu" ]} in
  test_config (run tcs w) = {[ "token" := VString "b"; "region" := VString "eu" ]} ∧
  test_config (snd (rollback_handler "s4" (run tcs w))) = {[ "region" := VString "eu" ]}.
Proof. split; apply map_eq; intros k; vm_compute; reflexivity. Qed.

(** [beginSetup] anew on the id of the session with three mutations. *)
Lemma replaced_session_is_orphaned_witness :
  let pcs := [P_tool (C_saveConfig "s1" "k" (VString "v")); P_tool (C_rollback "s1");
              P_shutdown true] in
  let w1 := snd (createSession "s1" "q" {| title := "T"; fields := [] |} 9 w_three) in
  getSession "s1" w1 ≠ (Ret (Some 1%positive), w1) ∧
  heap (plugin_run pcs w1) !! 1%positive = Some s_three ∧
  ∀ sid', sessions (plugin_run pcs w1) !! sid' ≠ Some 1%positive.
Proof.
  apply (replaced_session_is_orphaned
           [P_tool (C_saveConfig "s1" "k" (VString "v")); P_tool (C_rollback "s1");
            P_shutdown true]
           w_three "s1" 1%positive s_three "q" {| title := "T"; fields := [] |} 9).
  - split; reflexivity.
  - intros sid' Hsid. cbn in Hsid. by apply lookup_singleton_Some in Hsid as [-> _].
Defined.

(** The test "unregisters on shutdown": the name is taken off the host
    and the store is emptied; without [init] nothing is called; and when
    the host throws, the shutdown throws and the session stays. *)
Example shutdown_unregisters :
  let run_shutdown fails initialised :=
    let '(r, w') := @shutdown _ (registry_runtime fails) initialised w_registry in
    (r, host (outside w'), sessions w' !! "s1") in
  run_shutdown false true = (Ret tt, ["other"], None) ∧
  run_shutdown false false = (Ret tt, ["setup"; "other"], None) ∧
  run_shutdown true true
  = (Throw "Error: host is shutting down", ["setup"; "other"], Some 1%positive).
Proof. vm_compute. repeat split. Qed.

(** A rollback of [s1] beside a second session [s9]. *)
Lemma calls_do_not_interfere_witness :
  let w := snd (createSession "s9" "q" {| title := "T"; fields := [] |} 3 w_three) in
  let pc := P_tool (C_rollback "s1") in
  heap (plugin_step pc w) !! 2%positive = heap w !! 2%positive ∧
  is_Some (heap w !! 2%positive) ∧
  sessions (plugin_step pc w) !! "s9" = sessions w !! "s9".
Proof.
  destruct (calls_do_not_interfere
              (P_tool (C_rollback "s1"))
              (snd (createSession "s9" "q" {| title := "T"; fields := [] |} 3 w_three)))
    as [Hobj Hid].
  split; [| split].
  - erewrite Hobj; [reflexivity | reflexivity |].
    intros tc [= <-]. by vm_compute.
  - eexists. reflexivity.
  - apply Hid; [by intros tc [= <-] | done].
Defined.
